(** * Key manager library: credential lifecycle engine

    A shallow embedding of the three services of the library

      - [KeyGenerationService]  (services/key-generation.service.ts)
      - [KeyValidationService]  (services/key-validation.service.ts)
      - [KeyManagerService]     (key-manager.service.ts)

    over an explicit model of the two tables they share ([sa_info] and
    [api_keys]).  Every service method is a computation in a small
    state-and-exception monad [M]: the state is the [World] (tables, id
    sequence, consumed entropy, repository trace), an exception is a thrown
    JavaScript value ([HttpException] or a plain [Error]).

    Conventions.
      - A [Date] is its [getTime()] value, a [Z] number of milliseconds.
      - A JavaScript string is a [string]; each [ascii] stands for the code
        unit of the same number.
      - Numbers that the code handles are integers; they are modelled by [Z],
        and what [parseInt] reads is rounded to the nearest Number.
        [NaN], where the code can produce it, is [None] in [option Z].
      - The store answers every query the services can send, except those
        it is bound to reject: a lookup or an update by a [NaN] identifier,
        and in the query builder an order direction other than [ASC] and
        [DESC] and a [NaN] [skip] or [take].  [validateApiKey], whose
        [catch] turns a rejected query into a result, is written over a
        repository that may reject any.
      - [logger] calls are observability only and are left out; what the
        repositories and [crypto.randomBytes] are asked is recorded in
        [World.trace]. *)

From Stdlib Require Import List String Ascii ZArith Bool Lia.
From Stdlib Require Import DecimalString DecimalZ DecimalPos.
Import ListNotations.

#[local] Open Scope string_scope.
#[local] Open Scope Z_scope.

(** ** JavaScript primitives used by the services *)

Module Js.

(** [undefined], [null], or a value: what a DTO field can hold. *)
Inductive nullable (A : Type) : Type :=
| undefined : nullable A
| null : nullable A
| value : A -> nullable A.
Arguments undefined {A}.
Arguments null {A}.
Arguments value {A} _.

(** A query-string parameter: absent, a number, or a string. *)
Inductive param : Type :=
| PUndefined : param
| PNum : Z -> param
| PStr : string -> param.

(** WhiteSpace and LineTerminator code units below U+0100:
    TAB, LF, VT, FF, CR, SP and NBSP. *)
Definition is_white_space (c : ascii) : bool :=
  let n := nat_of_ascii c in
  (Nat.leb 9 n && Nat.leb n 13) || Nat.eqb n 32 || Nat.eqb n 160.

Fixpoint trimStart (s : string) : string :=
  match s with
  | EmptyString => EmptyString
  | String c s' => if is_white_space c then trimStart s' else s
  end.

Definition reverse (s : string) : string :=
  string_of_list_ascii (rev (list_ascii_of_string s)).

Definition trimEnd (s : string) : string := reverse (trimStart (reverse s)).

(** [String.prototype.trim]. *)
Definition trim (s : string) : string := trimEnd (trimStart s).

(** Truthiness of a string: every string but the empty one. *)
Definition truthy_string (s : string) : bool :=
  match s with EmptyString => false | _ => true end.

Definition truthy_nullable_string (v : nullable string) : bool :=
  match v with value s => truthy_string s | _ => false end.

Definition truthy_option_string (v : option string) : bool :=
  match v with Some s => truthy_string s | None => false end.

Definition truthy_param (p : param) : bool :=
  match p with
  | PUndefined => false
  | PNum z => negb (z =? 0)
  | PStr s => truthy_string s
  end.

(** [p || d] with a numeric default [d]. *)
Definition or_default (p : param) (d : Z) : param :=
  if truthy_param p then p else PNum d.

(** [String(z)] for an integer [z] of magnitude below 10^21, which
    JavaScript prints in full. *)
Definition string_of_Z (z : Z) : string := NilZero.string_of_int (Z.to_int z).

(** [String(p)]. *)
Definition String_ (p : param) : string :=
  match p with
  | PUndefined => "undefined"
  | PNum z => string_of_Z z
  | PStr s => s
  end.

(** Value of a digit in a radix up to 16, [None] for any other character. *)
Definition digit_value (c : ascii) : option Z :=
  let n := Z.of_nat (nat_of_ascii c) in
  if (48 <=? n) && (n <=? 57) then Some (n - 48)
  else if (97 <=? n) && (n <=? 102) then Some (n - 87)
  else if (65 <=? n) && (n <=? 70) then Some (n - 55)
  else None.

(** Longest prefix of digits of the radix, accumulated from the left.
    [acc] is [None] until a first digit has been read. *)
Fixpoint parse_digits (radix : Z) (s : string) (acc : option Z) : option Z :=
  match s with
  | EmptyString => acc
  | String c s' =>
      match digit_value c with
      | Some d =>
          if d <? radix
          then parse_digits radix s'
                 (Some (radix * match acc with Some a => a | None => 0 end + d))
          else acc
      | None => acc
      end
  end.

(** Strips a leading [0x] or [0X], reporting the radix. *)
Definition strip_radix_prefix (s : string) : Z * string :=
  match s with
  | String "0" (String "x" s') => (16, s')
  | String "0" (String "X" s') => (16, s')
  | _ => (10, s)
  end.

Definition parse_unsigned (s : string) : option Z :=
  let '(radix, digits) := strip_radix_prefix s in
  parse_digits radix digits None.

(** The Number nearest to an integer: the integer itself below 2^53, above
    it the nearest multiple of the spacing of the doubles of that size, ties
    to the even significand.  (From 2^1024 on JavaScript reads Infinity;
    no identifier, page or limit of the statements below is that large, and
    such a reading keeps a finite value here.) *)
Definition to_double (z : Z) : Z :=
  let a := Z.abs z in
  if a <? 2 ^ 53 then z
  else
    let ulp := 2 ^ (Z.log2 a - 52) in
    let q := a / ulp in
    let r := a mod ulp in
    let up := (ulp <? 2 * r) || ((2 * r =? ulp) && Z.odd q) in
    Z.sgn z * ((if up then q + 1 else q) * ulp).

(** [parseInt(s)] with no radix argument; [None] is [NaN].  The digits are
    read exactly and the result is the Number nearest to them. *)
Definition parseInt (s : string) : option Z :=
  option_map to_double
    match trimStart s with
    | String "-" s' => option_map Z.opp (parse_unsigned s')
    | String "+" s' => parse_unsigned s'
    | s' => parse_unsigned s'
    end.

(** [Math.max(a, x)] and [Math.min(a, x)] with a possibly-[NaN] [x]. *)
Definition Math_max (a : Z) (x : option Z) : option Z := option_map (Z.max a) x.
Definition Math_min (a : Z) (x : option Z) : option Z := option_map (Z.min a) x.

(** [Math.ceil(a / b)] for integers [a >= 0] and [b > 0]. *)
Definition ceil_div (a b : Z) : Z := (a + b - 1) / b.

(** [d <= now] for a nullable [Date] column: [null] is converted to [0]. *)
Definition date_le (d : option Z) (now : Z) : bool :=
  match d with
  | Some t => t <=? now
  | None => 0 <=? now
  end.

End Js.

(** ** Entities

    Modelled from the spec: entities/sa-info.entity.ts and
    entities/api-key.entity.ts are not part of the sources at hand; the
    columns are those of section 3 of the specification, which are also the
    ones the services read and write.  [deleted_at] is an ordinary nullable
    column: the services filter on it themselves. *)

Module SaInfo.
Record t : Type := mk {
  id : string;                    (* acts as client_id *)
  user_id : Z;
  client_secret : string;
  description : option string;
  created_at : Z;
  created_by : option string;
  updated_at : Z;
  updated_by : option string;
  deleted_at : option Z;
  deleted_by : option string
}.
End SaInfo.

Module ApiKey.
Record t : Type := mk {
  id : Z;
  client_id : string;
  api_key : string;
  name : string;
  description : option string;
  is_active : bool;
  expiry_date : option Z;
  created_at : Z;
  created_by : option string;
  updated_at : Z;
  updated_by : option string;
  deleted_at : option Z;
  deleted_by : option string
}.
End ApiKey.

(** ** Configuration of the key generation service *)

Record KeyGenerationServiceConfig : Type := {
  saltRounds : Z;
  maxRetries : nat;
  keyPrefix : string;
  defaultExpiryDays : Z
}.

(** ** Environment and world *)

(** What the services ask of the outside: the clock, the entropy source, the
    identifiers the store hands out, [Date] parsing and the two parts of SQL
    evaluation that belong to the database ([ILIKE] and [ORDER BY]).  The
    clock of one request is a single reading [now]. *)
Record Env : Type := {
  now : Z;
  randomBytes32_base64 : nat -> string;
  uuid : nat -> string;
  Date_parse : string -> option Z;      (* [None] is an invalid date *)
  toISOString : Z -> string;
  ilike : string -> string -> bool;
  order_by : string -> string -> list ApiKey.t -> list ApiKey.t
}.

(** One entry per repository call and per [crypto.randomBytes] call. *)
Inductive Event : Type :=
| SaFindOne | SaSave
| KeyFindOne | KeyFind | KeySave | KeyUpdate | KeyCount | KeyGetMany
| RandomBytes.

Record World : Type := {
  sa_info : list SaInfo.t;
  api_keys : list ApiKey.t;
  api_key_seq : Z;                (* next value of the api_keys id sequence *)
  uuids : nat;                    (* identifiers handed out so far *)
  entropy : nat;                  (* [crypto.randomBytes] calls so far *)
  config : KeyGenerationServiceConfig;
  trace : list Event
}.

(** ** Thrown values and the monad of service methods *)

Record FailureData : Type := {
  fd_api_key : string;
  validation_failed_reason : string
}.

Record HttpBody : Type := {
  code : string;
  message : string;
  timestamp : Z;
  data : option FailureData
}.

Inductive exn : Type :=
| HttpException : HttpBody -> Z -> exn
| Error : string -> exn.

Definition error_message (e : exn) : string :=
  match e with
  | HttpException b _ => message b
  | Error m => m
  end.

Module HttpStatus.
Definition BAD_REQUEST : Z := 400.
Definition UNAUTHORIZED : Z := 401.
Definition NOT_FOUND : Z := 404.
Definition INTERNAL_SERVER_ERROR : Z := 500.
End HttpStatus.

Inductive outcome (A : Type) : Type :=
| Return : A -> outcome A
| Throw : exn -> outcome A.
Arguments Return {A} _.
Arguments Throw {A} _.

Definition M (A : Type) : Type := World -> outcome A * World.

Definition ret {A} (a : A) : M A := fun w => (Return a, w).

Definition throw {A} (e : exn) : M A := fun w => (Throw e, w).

Definition bind {A B} (m : M A) (k : A -> M B) : M B :=
  fun w =>
    match m w with
    | (Return a, w') => k a w'
    | (Throw e, w') => (Throw e, w')
    end.

(** [try { m } catch (error) { h error }]: what [m] did to the world before
    it threw stays done. *)
Definition try_catch {A} (m : M A) (h : exn -> M A) : M A :=
  fun w =>
    match m w with
    | (Return a, w') => (Return a, w')
    | (Throw e, w') => h e w'
    end.

Definition get_world : M World := fun w => (Return w, w).

Definition log_event (e : Event) : M unit :=
  fun w => (Return tt,
            {| sa_info := sa_info w; api_keys := api_keys w;
               api_key_seq := api_key_seq w; uuids := uuids w;
               entropy := entropy w; config := config w;
               trace := trace w ++ [e] |}).

Declare Scope monad_scope.
Delimit Scope monad_scope with monad.
Notation "x <- m ;; k" := (bind m (fun x => k))
  (at level 61, m at next level, right associativity) : monad_scope.
Notation "m ;;; k" := (bind m (fun _ => k))
  (at level 61, right associativity) : monad_scope.
#[local] Open Scope monad_scope.

(** [throw new HttpException({ message, code, timestamp }, status)]. *)
Definition http_exception (e : Env) (c m : string) (status : Z) : exn :=
  HttpException {| code := c; message := m; timestamp := now e; data := None |} status.

(** ** Repositories *)

Module SaInfoRepo.

(** [findOne({ where })]: the first row the predicate accepts. *)
Definition findOne (where_ : SaInfo.t -> bool) : M (option SaInfo.t) :=
  log_event SaFindOne ;;;
  w <- get_world ;;
  ret (List.find where_ (sa_info w)).

(** [save(create({ user_id, client_secret, description, created_by }))]: the
    store assigns the identifier and the audit dates. *)
Definition save (e : Env) (user_id : Z) (client_secret : string)
    (description : option string) (created_by : string) : M SaInfo.t :=
  log_event SaSave ;;;
  fun w =>
    let row := {| SaInfo.id := uuid e (uuids w);
                  SaInfo.user_id := user_id;
                  SaInfo.client_secret := client_secret;
                  SaInfo.description := description;
                  SaInfo.created_at := now e;
                  SaInfo.created_by := Some created_by;
                  SaInfo.updated_at := now e;
                  SaInfo.updated_by := None;
                  SaInfo.deleted_at := None;
                  SaInfo.deleted_by := None |} in
    (Return row,
     {| sa_info := sa_info w ++ [row]; api_keys := api_keys w;
        api_key_seq := api_key_seq w; uuids := S (uuids w);
        entropy := entropy w; config := config w; trace := trace w |}).

End SaInfoRepo.

Module ApiKeyRepo.

(** Columns of an [update(id, { ... })] call; [None] leaves a column alone. *)
Record UpdateData : Type := {
  set_name : option string;
  set_description : option string;
  set_expiry_date : option Z;
  set_is_active : option bool;
  set_updated_by : option string;
  set_deleted_at : option Z;
  set_deleted_by : option string
}.

Definition no_update : UpdateData :=
  {| set_name := None; set_description := None; set_expiry_date := None;
     set_is_active := None; set_updated_by := None; set_deleted_at := None;
     set_deleted_by := None |}.

Definition or_keep {A} (new : option A) (old : option A) : option A :=
  match new with Some a => Some a | None => old end.

Definition apply_update (e : Env) (u : UpdateData) (k : ApiKey.t) : ApiKey.t :=
  {| ApiKey.id := ApiKey.id k;
     ApiKey.client_id := ApiKey.client_id k;
     ApiKey.api_key := ApiKey.api_key k;
     ApiKey.name := match set_name u with Some n => n | None => ApiKey.name k end;
     ApiKey.description := or_keep (set_description u) (ApiKey.description k);
     ApiKey.is_active :=
       match set_is_active u with Some b => b | None => ApiKey.is_active k end;
     ApiKey.expiry_date := or_keep (set_expiry_date u) (ApiKey.expiry_date k);
     ApiKey.created_at := ApiKey.created_at k;
     ApiKey.created_by := ApiKey.created_by k;
     ApiKey.updated_at := now e;
     ApiKey.updated_by := or_keep (set_updated_by u) (ApiKey.updated_by k);
     ApiKey.deleted_at := or_keep (set_deleted_at u) (ApiKey.deleted_at k);
     ApiKey.deleted_by := or_keep (set_deleted_by u) (ApiKey.deleted_by k) |}.

Definition findOne (where_ : ApiKey.t -> bool) : M (option ApiKey.t) :=
  log_event KeyFindOne ;;;
  w <- get_world ;;
  ret (List.find where_ (api_keys w)).

(** [findOne({ where: { id } })] on the numeric identifier column.  [NaN]
    is no value of that column: the store rejects the query, and the promise
    with it. *)
Definition findOneById (id : option Z) : M (option ApiKey.t) :=
  match id with
  | Some i => findOne (fun k => ApiKey.id k =? i)
  | None =>
      log_event KeyFindOne ;;;
      throw (Error "invalid input syntax for type integer: NaN")
  end.

Definition find (where_ : ApiKey.t -> bool) : M (list ApiKey.t) :=
  log_event KeyFind ;;;
  w <- get_world ;;
  ret (filter where_ (api_keys w)).

(** [save(create({ ... }))] of a new entity: the identifier comes from the
    sequence, the audit dates from the store. *)
Definition save (e : Env) (name client_id api_key : string)
    (expiry_date : option Z) (is_active : bool) (created_by : string)
    (description : option string) : M ApiKey.t :=
  log_event KeySave ;;;
  fun w =>
    let row := {| ApiKey.id := api_key_seq w;
                  ApiKey.client_id := client_id;
                  ApiKey.api_key := api_key;
                  ApiKey.name := name;
                  ApiKey.description := description;
                  ApiKey.is_active := is_active;
                  ApiKey.expiry_date := expiry_date;
                  ApiKey.created_at := now e;
                  ApiKey.created_by := Some created_by;
                  ApiKey.updated_at := now e;
                  ApiKey.updated_by := None;
                  ApiKey.deleted_at := None;
                  ApiKey.deleted_by := None |} in
    (Return row,
     {| sa_info := sa_info w; api_keys := api_keys w ++ [row];
        api_key_seq := api_key_seq w + 1; uuids := uuids w;
        entropy := entropy w; config := config w; trace := trace w |}).

(** The rows a condition selects take the columns of [data]. *)
Definition update_where (e : Env) (where_ : ApiKey.t -> bool) (u : UpdateData) : M unit :=
  fun w =>
    (Return tt,
     {| sa_info := sa_info w;
        api_keys := map (fun k => if where_ k then apply_update e u k else k) (api_keys w);
        api_key_seq := api_key_seq w; uuids := uuids w;
        entropy := entropy w; config := config w; trace := trace w |}).

(** [update(id, data)] by primary key; the store rejects a [NaN] id as it
    does in a lookup. *)
Definition update (e : Env) (id : option Z) (u : UpdateData) : M unit :=
  log_event KeyUpdate ;;;
  match id with
  | Some i => update_where e (fun k => ApiKey.id k =? i) u
  | None => throw (Error "invalid input syntax for type integer: NaN")
  end.

(** [createQueryBuilder ... getCount()]. *)
Definition getCount (where_ : ApiKey.t -> bool) : M Z :=
  log_event KeyCount ;;;
  w <- get_world ;;
  ret (Z.of_nat (List.length (filter where_ (api_keys w)))).

(** [orderBy(column, direction).skip(skip).take(take).getMany()] with the
    joined service account of each row.  The query builder throws, in this
    order, on a direction other than [ASC] and [DESC], on a [NaN] [skip] and
    on a [NaN] [take]. *)
Definition getMany (e : Env) (where_ : ApiKey.t -> bool) (column direction : string)
    (skip take : option Z) : M (list (ApiKey.t * option SaInfo.t)) :=
  if negb (String.eqb direction "ASC" || String.eqb direction "DESC") then
    throw (Error "SelectQueryBuilder.addOrderBy order can accept only ASC and DESC values.")
  else
  match skip, take with
  | Some sk, Some tk =>
      log_event KeyGetMany ;;;
      w <- get_world ;;
      let rows := order_by e column direction (filter where_ (api_keys w)) in
      let page := firstn (Z.to_nat tk) (skipn (Z.to_nat sk) rows) in
      ret (map (fun k =>
                  (k, List.find (fun sa => String.eqb (SaInfo.id sa) (ApiKey.client_id k))
                        (sa_info w)))
               page)
  | None, _ => throw (Error "Provided skip value is not a number. Please provide a numeric value.")
  | _, None => throw (Error "Provided take value is not a number. Please provide a numeric value.")
  end.

End ApiKeyRepo.

(** ** crypto *)

Module Crypto.

(** [crypto.randomBytes(32).toString('base64')]: the next draw of the
    entropy source. *)
Definition randomBytes32_toBase64 (e : Env) : M string :=
  log_event RandomBytes ;;;
  fun w =>
    (Return (randomBytes32_base64 e (entropy w)),
     {| sa_info := sa_info w; api_keys := api_keys w;
        api_key_seq := api_key_seq w; uuids := uuids w;
        entropy := S (entropy w); config := config w; trace := trace w |}).

End Crypto.

(** The four values of a displayed status. *)
Inductive KeyStatus : Type := active | inactive | expired | deleted.

(** ** services/key-generation.service.ts *)

Module KeyGenerationService.

Definition default_config : KeyGenerationServiceConfig :=
  {| saltRounds := 12; maxRetries := 3%nat; keyPrefix := "ak_";
     defaultExpiryDays := 365 |}.

Module KeyGenerationParams.
Record t : Type := mk {
  userId : string;
  name : string;
  description : option string;
  isActive : option bool;
  expiresAt : option Z
}.
End KeyGenerationParams.

Module KeyRecord.
Record t : Type := mk {
  id : string;
  userId : string;
  createdAt : Z;
  expiresAt : option Z;
  status : KeyStatus
}.
End KeyRecord.

Module UniqueKeyResult.
Record t : Type := mk {
  rawKey : string;
  keyRecord : KeyRecord.t
}.
End UniqueKeyResult.

Module KeyGenerationResult.
Record t : Type := mk {
  keyId : string;
  rawKey : string;
  userId : string;
  createdAt : Z;
  expiresAt : option Z;
  status : KeyStatus
}.
End KeyGenerationResult.

Definition generateRawKey (e : Env) : M string := Crypto.randomBytes32_toBase64 e.

Definition checkKeyExists (apiKey : string) : M bool :=
  try_catch
    (existing <- ApiKeyRepo.findOne (fun k => String.eqb (ApiKey.api_key k) apiKey) ;;
     ret (match existing with Some _ => true | None => false end))
    (fun error => throw (Error ("Collision check failed: " ++ error_message error))).

(** [save] hands back the entity it stored, so the check on a missing
    record never fires. *)
Definition createKeyRecord (e : Env) (apiKey userId name : string)
    (description : option string) (isActive : bool) (expiresAt : option Z)
  : M ApiKey.t :=
  try_catch
    (w <- get_world ;;
     ApiKeyRepo.save e name userId apiKey
       (Some (match expiresAt with
              | Some d => d
              | None => now e + defaultExpiryDays (config w) * 24 * 60 * 60 * 1000
              end))
       isActive
       "key-generation-service"
       (Some (match description with
              | Some d =>
                  if Js.truthy_string d then d
                  else "Generated API key for client " ++ userId
              | None => "Generated API key for client " ++ userId
              end)))
    (fun error => throw (Error ("Failed to create key record: " ++ error_message error))).

(** Body of one turn of the [while] loop: [Some] is the [return] inside the
    loop, [None] falls through to [attempt++]. *)
Definition attempt_once (e : Env) (userId name : string)
    (description : option string) (isActive : bool) (expiresAt : option Z)
  : M (option UniqueKeyResult.t) :=
  try_catch
    (rawKey <- generateRawKey e ;;
     exists_ <- checkKeyExists rawKey ;;
     if negb exists_ then
       keyRecord <- createKeyRecord e rawKey userId name description isActive expiresAt ;;
       ret (Some {| UniqueKeyResult.rawKey := rawKey;
                    UniqueKeyResult.keyRecord :=
                      {| KeyRecord.id := Js.string_of_Z (ApiKey.id keyRecord);
                         KeyRecord.userId := ApiKey.client_id keyRecord;
                         KeyRecord.createdAt := ApiKey.created_at keyRecord;
                         KeyRecord.expiresAt := ApiKey.expiry_date keyRecord;
                         KeyRecord.status :=
                           if ApiKey.is_active keyRecord then active else inactive |} |})
     else ret None)
    (fun error => throw error).

(** [while (attempt < maxRetries) { ... attempt++ }], by recursion on
    [maxRetries - attempt]. *)
Fixpoint retry_loop (e : Env) (remaining : nat) (userId name : string)
    (description : option string) (isActive : bool) (expiresAt : option Z)
  : M (option UniqueKeyResult.t) :=
  match remaining with
  | O => ret None
  | S remaining' =>
      r <- attempt_once e userId name description isActive expiresAt ;;
      match r with
      | Some result => ret (Some result)
      | None => retry_loop e remaining' userId name description isActive expiresAt
      end
  end.

Definition generateUniqueKey (e : Env) (userId name : string)
    (description : option string) (isActive : bool) (expiresAt : option Z)
  : M UniqueKeyResult.t :=
  w <- get_world ;;
  r <- retry_loop e (maxRetries (config w)) userId name description isActive expiresAt ;;
  match r with
  | Some result => ret result
  | None =>
      throw (Error ("Failed to generate unique key after "
                    ++ Js.string_of_Z (Z.of_nat (maxRetries (config w)))
                    ++ " attempts"))
  end.

Definition validateGenerationInput (e : Env) (userId : string) (expiresAt : option Z)
  : M unit :=
  if negb (Js.truthy_string userId) || (String.length (Js.trim userId) =? 0)%nat
  then throw (Error "Client ID is required and must be a non-empty string")
  else
    match expiresAt with
    | Some d =>
        if d <=? now e
        then throw (Error "Expiry date must be in the future")
        else ret tt
    | None => ret tt
    end.

Definition generateApiKey (e : Env) (params : KeyGenerationParams.t)
  : M KeyGenerationResult.t :=
  let userId := KeyGenerationParams.userId params in
  let isActive :=
    match KeyGenerationParams.isActive params with Some b => b | None => true end in
  let expiresAt := KeyGenerationParams.expiresAt params in
  try_catch
    (validateGenerationInput e userId expiresAt ;;;
     result <- generateUniqueKey e userId (KeyGenerationParams.name params)
                 (KeyGenerationParams.description params) isActive expiresAt ;;
     let keyRecord := UniqueKeyResult.keyRecord result in
     ret {| KeyGenerationResult.keyId := KeyRecord.id keyRecord;
            KeyGenerationResult.rawKey := UniqueKeyResult.rawKey result;
            KeyGenerationResult.userId := KeyRecord.userId keyRecord;
            KeyGenerationResult.createdAt := KeyRecord.createdAt keyRecord;
            KeyGenerationResult.expiresAt := KeyRecord.expiresAt keyRecord;
            KeyGenerationResult.status := KeyRecord.status keyRecord |})
    (fun error => throw error).

(** [updateConfig(newConfig)] with every field given. *)
Definition updateConfig (newConfig : KeyGenerationServiceConfig) : M unit :=
  fun w =>
    (Return tt,
     {| sa_info := sa_info w; api_keys := api_keys w;
        api_key_seq := api_key_seq w; uuids := uuids w;
        entropy := entropy w; config := newConfig; trace := trace w |}).

End KeyGenerationService.

(** ** services/key-validation.service.ts *)

Module KeyValidationService.

Module ExpirationValidationResult.
Record t : Type := mk {
  isValid : bool;
  reason : string;
  message : string
}.
End ExpirationValidationResult.

Module KeyInfo.
Record t : Type := mk {
  id : string;
  userId : string;
  expiresAt : option Z;
  status : KeyStatus
}.
End KeyInfo.

Module ValidationResult.
Record t : Type := mk {
  isValid : bool;
  reason : option string;
  message : string;
  statusCode : Z;
  timestamp : Z;
  keyInfo : option KeyInfo.t
}.
End ValidationResult.

Definition validateExpiration (e : Env) (expiresAt : option Z)
  : ExpirationValidationResult.t :=
  match expiresAt with
  | None =>
      {| ExpirationValidationResult.isValid := true;
         ExpirationValidationResult.reason := "NO_EXPIRY";
         ExpirationValidationResult.message := "Key has no expiration date" |}
  | Some expiresAt =>
      if expiresAt <=? now e then
        {| ExpirationValidationResult.isValid := false;
           ExpirationValidationResult.reason := "KEY_EXPIRED";
           ExpirationValidationResult.message :=
             "API key expired on " ++ toISOString e expiresAt |}
      else
        {| ExpirationValidationResult.isValid := true;
           ExpirationValidationResult.reason := "NOT_EXPIRED";
           ExpirationValidationResult.message := "Key is within expiration date" |}
  end.

(** The fourth parameter, [startTime], is optional and unused. *)
Definition createFailureResult (e : Env) (reason message : string) (statusCode : Z)
    (startTime : option Z) : ValidationResult.t :=
  {| ValidationResult.isValid := false;
     ValidationResult.reason := Some reason;
     ValidationResult.message := message;
     ValidationResult.statusCode := statusCode;
     ValidationResult.timestamp := now e;
     ValidationResult.keyInfo := None |}.

(** The method over the [find] of its [apiKeyRepository], which the
    constructor takes from the data source.  The [select] list of the query names every column the method reads
    afterwards; the rows are kept whole here. *)
Definition validateApiKey_over (apiKeyRepository_find : (ApiKey.t -> bool) -> M (list ApiKey.t))
    (e : Env) (keyToValidate : string) (clientId : option string)
  : M ValidationResult.t :=
  let startTime := now e in
  try_catch
    (if negb (Js.truthy_string (Js.trim keyToValidate)) then
       (* three arguments: [startTime] lands in the [statusCode] position *)
       ret (createFailureResult e "INVALID_FORMAT" "API key cannot be empty" startTime None)
     else
       let where_ (k : ApiKey.t) :=
         Bool.eqb (ApiKey.is_active k) true
         && (if Js.truthy_option_string clientId
             then match clientId with
                  | Some c => String.eqb (ApiKey.client_id k) c
                  | None => true
                  end
             else true) in
       activeKeys <- apiKeyRepository_find where_ ;;
       match List.find (fun record => String.eqb keyToValidate (ApiKey.api_key record))
               activeKeys with
       | None =>
           ret (createFailureResult e "KEY_NOT_FOUND"
                  "Invalid API key or client credentials" 404 (Some startTime))
       | Some keyRecord =>
           if negb (ApiKey.is_active keyRecord) then
             ret (createFailureResult e "KEY_INACTIVE" "API key is not active" 403
                    (Some startTime))
           else
             let expirationValidation := validateExpiration e (ApiKey.expiry_date keyRecord) in
             if negb (ExpirationValidationResult.isValid expirationValidation) then
               ret (createFailureResult e
                      (ExpirationValidationResult.reason expirationValidation)
                      (ExpirationValidationResult.message expirationValidation)
                      401 (Some startTime))
             else
               ret {| ValidationResult.isValid := true;
                      ValidationResult.reason := None;
                      ValidationResult.message := "API key validation successful";
                      ValidationResult.statusCode := 200;
                      ValidationResult.timestamp := now e;
                      ValidationResult.keyInfo :=
                        Some {| KeyInfo.id := Js.string_of_Z (ApiKey.id keyRecord);
                                KeyInfo.userId := ApiKey.client_id keyRecord;
                                KeyInfo.expiresAt := ApiKey.expiry_date keyRecord;
                                KeyInfo.status :=
                                  if ApiKey.is_active keyRecord then active else inactive |} |}
       end)
    (fun error =>
       ret (createFailureResult e "VALIDATION_ERROR" "Internal validation error" 500
              (Some startTime))).

(** [validateApiKey] of the service over the [api_keys] repository. *)
Definition validateApiKey : Env -> string -> option string -> M ValidationResult.t :=
  validateApiKey_over ApiKeyRepo.find.

End KeyValidationService.

(** ** key-manager.service.ts *)

Module KeyManagerService.

(** Modelled from the spec: interfaces/dto.interface.ts is not part of the
    sources at hand; the fields are those the methods destructure. *)
Module CreateApiKeyDto.
Record t : Type := mk {
  user_id : Z;
  name : string;
  expires_at : Js.nullable string;
  description : option string;
  is_active : option bool
}.
End CreateApiKeyDto.

Module ValidateApiKeyDto.
Record t : Type := mk {
  client_id : string;
  client_secret : string;
  api_key : string
}.
End ValidateApiKeyDto.

Module UpdateApiKeyDto.
Record t : Type := mk {
  name : option string;
  description : option string;
  expires_at : Js.nullable string;
  is_active : option bool
}.
End UpdateApiKeyDto.

Module ListKeysQueryDto.
Record t : Type := mk {
  page : Js.param;
  limit : Js.param;
  sort_by : option string;
  sort_order : option string;
  include_deleted : bool;
  client_id : option string;
  status : option string;
  search : option string
}.
End ListKeysQueryDto.

(** [{ success: true, message, data, timestamp }]. *)
Module Response.
Record t (A : Type) : Type := mk {
  success : bool;
  message : string;
  data : A;
  timestamp : Z
}.
Arguments mk {A} _ _ _ _.
Arguments success {A} _.
Arguments message {A} _.
Arguments data {A} _.
Arguments timestamp {A} _.
End Response.

Module CreateData.
Record t : Type := mk {
  key_id : string;
  raw_key : string;
  user_id : Z;
  client_id : string;
  client_secret : string;
  name : string;
  description : option string;
  is_active : bool;
  created_at : Z;
  expires_at : option Z;
  status : KeyStatus
}.
End CreateData.

Module ValidateData.
Record t : Type := mk {
  key_id : option string;
  user_id : Z;
  client_id : string;
  expires_at : option Z;
  status : option KeyStatus
}.
End ValidateData.

Module UpdateData.
Record t : Type := mk {
  key_id : Z;
  client_id : string;
  name : string;
  description : option string;
  is_active : bool;
  expires_at : option Z;
  status : KeyStatus;
  updated_at : Z
}.
End UpdateData.

Module RemoveData.
Record t : Type := mk {
  key_id : Z;
  client_id : string;
  status : KeyStatus;
  deleted_at : option Z;
  deleted_by : option string
}.
End RemoveData.

Module ListItem.
Record t : Type := mk {
  id : Z;
  client_id : string;
  client_secret : option string;
  api_key : string;
  name : string;
  description : option string;
  created_at : Z;
  expires_at : option Z;
  status : KeyStatus;
  deleted_at : option Z;
  deleted_by : option string
}.
End ListItem.

Module Pagination.
Record t : Type := mk {
  page : option Z;
  limit : option Z;
  total : Z;
  total_pages : option Z;
  has_next : bool;
  has_previous : bool
}.
End Pagination.

Module ListData.
Record t : Type := mk {
  keys : list ListItem.t;
  pagination : Pagination.t
}.
End ListData.

(** The tail of every [catch]: an [HttpException] is thrown again, anything
    else becomes a 500 with the method's own code. *)
Definition rethrow_or_internal (e : Env) (code_ message_ : string) (error : exn)
  : exn :=
  match error with
  | HttpException _ _ => error
  | Error _ => http_exception e code_ message_ HttpStatus.INTERNAL_SERVER_ERROR
  end.

(** [expires_at] of a create request: [null] when falsy, else the parsed
    date, which must be valid and after now. *)
Definition create_expiry (e : Env) (expires_at : Js.nullable string) : M (option Z) :=
  if Js.truthy_nullable_string expires_at then
    match expires_at with
    | Js.value s =>
        match Date_parse e s with
        | None =>
            throw (http_exception e "INVALID_EXPIRY_DATE"
                     "expires_at must be a valid ISO date string" HttpStatus.BAD_REQUEST)
        | Some expiryDate =>
            if expiryDate <=? now e then
              throw (http_exception e "EXPIRY_DATE_PAST"
                       "expires_at must be in the future" HttpStatus.BAD_REQUEST)
            else ret (Some expiryDate)
        end
    | _ => ret None
    end
  else ret None.

Definition createApiKey (e : Env) (createKeyDto : CreateApiKeyDto.t)
  : M (Response.t CreateData.t) :=
  try_catch
    (let user_id := CreateApiKeyDto.user_id createKeyDto in
     let name := CreateApiKeyDto.name createKeyDto in
     let description := CreateApiKeyDto.description createKeyDto in
     let is_active :=
       match CreateApiKeyDto.is_active createKeyDto with Some b => b | None => true end in
     expiryDate <- create_expiry e (CreateApiKeyDto.expires_at createKeyDto) ;;
     (* Step 1: the non-deleted sa_info row of the user *)
     found <- SaInfoRepo.findOne
                (fun sa => (SaInfo.user_id sa =? user_id)
                           && match SaInfo.deleted_at sa with None => true | Some _ => false end) ;;
     (* Step 2: create it when absent *)
     saInfo <- match found with
               | None =>
                   clientSecret <- Crypto.randomBytes32_toBase64 e ;;
                   SaInfoRepo.save e user_id clientSecret description "key-manager-service"
               | Some saInfo =>
                   match SaInfo.deleted_at saInfo with
                   | Some _ =>
                       throw (http_exception e "SERVICE_ACCOUNT_DELETED"
                                "Service account has been deleted" HttpStatus.BAD_REQUEST)
                   | None => ret saInfo
                   end
               end ;;
     (* Step 3: the key, with client_id the sa_info id *)
     result <- KeyGenerationService.generateApiKey e
                 {| KeyGenerationService.KeyGenerationParams.userId := SaInfo.id saInfo;
                    KeyGenerationService.KeyGenerationParams.name := name;
                    KeyGenerationService.KeyGenerationParams.description := description;
                    KeyGenerationService.KeyGenerationParams.isActive := Some is_active;
                    KeyGenerationService.KeyGenerationParams.expiresAt := expiryDate |} ;;
     ret {| Response.success := true;
            Response.message := "API key created successfully";
            Response.data :=
              {| CreateData.key_id := KeyGenerationService.KeyGenerationResult.keyId result;
                 CreateData.raw_key := KeyGenerationService.KeyGenerationResult.rawKey result;
                 CreateData.user_id := user_id;
                 CreateData.client_id := SaInfo.id saInfo;
                 CreateData.client_secret := SaInfo.client_secret saInfo;
                 CreateData.name := name;
                 CreateData.description :=
                   if Js.truthy_option_string description then description else None;
                 CreateData.is_active := is_active;
                 CreateData.created_at :=
                   KeyGenerationService.KeyGenerationResult.createdAt result;
                 CreateData.expires_at :=
                   KeyGenerationService.KeyGenerationResult.expiresAt result;
                 CreateData.status := KeyGenerationService.KeyGenerationResult.status result |};
            Response.timestamp := now e |})
    (fun error =>
       throw (rethrow_or_internal e "KEY_CREATION_ERROR" "Failed to create API key" error)).

Definition validateKey (e : Env) (validateKeyDto : ValidateApiKeyDto.t)
  : M (Response.t ValidateData.t) :=
  try_catch
    (let client_id := ValidateApiKeyDto.client_id validateKeyDto in
     let client_secret := ValidateApiKeyDto.client_secret validateKeyDto in
     let api_key := ValidateApiKeyDto.api_key validateKeyDto in
     (* Step 1: the non-deleted sa_info row of the client *)
     found <- SaInfoRepo.findOne
                (fun sa => String.eqb (SaInfo.id sa) client_id
                           && match SaInfo.deleted_at sa with None => true | Some _ => false end) ;;
     match found with
     | None =>
         throw (http_exception e "INVALID_CLIENT_ID" "Invalid client credentials"
                  HttpStatus.UNAUTHORIZED)
     | Some saInfo =>
         (* Step 2: the secret *)
         if negb (String.eqb (SaInfo.client_secret saInfo) client_secret) then
           throw (http_exception e "INVALID_CLIENT_SECRET" "Invalid client credentials"
                    HttpStatus.UNAUTHORIZED)
         else
           (* Step 3: the key *)
           validationResult <- KeyValidationService.validateApiKey e api_key (Some client_id) ;;
           if negb (KeyValidationService.ValidationResult.isValid validationResult) then
             let reason :=
               match KeyValidationService.ValidationResult.reason validationResult with
               | Some r => r
               | None => EmptyString
               end in
             throw (HttpException
                      {| code := reason;
                         message := KeyValidationService.ValidationResult.message validationResult;
                         timestamp := KeyValidationService.ValidationResult.timestamp validationResult;
                         data := Some {| fd_api_key := "***masked***";
                                         validation_failed_reason := reason |} |}
                      (KeyValidationService.ValidationResult.statusCode validationResult))
           else
             let keyInfo := KeyValidationService.ValidationResult.keyInfo validationResult in
             ret {| Response.success := true;
                    Response.message := "API key is valid";
                    Response.data :=
                      {| ValidateData.key_id :=
                           option_map KeyValidationService.KeyInfo.id keyInfo;
                         ValidateData.user_id := SaInfo.user_id saInfo;
                         ValidateData.client_id := SaInfo.id saInfo;
                         ValidateData.expires_at :=
                           match keyInfo with
                           | Some i => KeyValidationService.KeyInfo.expiresAt i
                           | None => None
                           end;
                         ValidateData.status :=
                           option_map KeyValidationService.KeyInfo.status keyInfo |};
                    Response.timestamp :=
                      KeyValidationService.ValidationResult.timestamp validationResult |}
     end)
    (fun error =>
       throw (rethrow_or_internal e "VALIDATION_SERVICE_ERROR" "Validation service error" error)).

(** [new Date(expires_at)] for a field that is not [undefined]:
    [new Date(null)] is the epoch. *)
Definition update_expiry (e : Env) (expires_at : Js.nullable string) : M (option Z) :=
  match expires_at with
  | Js.undefined => ret None
  | _ =>
      let parsed :=
        match expires_at with
        | Js.value s => Date_parse e s
        | _ => Some 0
        end in
      match parsed with
      | None =>
          throw (http_exception e "INVALID_EXPIRY_DATE"
                   "expires_at must be a valid ISO date string" HttpStatus.BAD_REQUEST)
      | Some expiryDate =>
          if expiryDate <=? now e then
            throw (http_exception e "EXPIRY_DATE_PAST"
                     "expires_at must be in the future" HttpStatus.BAD_REQUEST)
          else ret (Some expiryDate)
      end
  end.

Definition is_undefined {A} (v : Js.nullable A) : bool :=
  match v with Js.undefined => true | _ => false end.

Definition is_none {A} (v : option A) : bool :=
  match v with None => true | Some _ => false end.

(** The rows that [{ id: parseInt(id) }] selects. *)
Definition where_id (id : string) (k : ApiKey.t) : bool :=
  match Js.parseInt id with
  | Some i => ApiKey.id k =? i
  | None => false
  end.

Definition updateApiKey (e : Env) (id : string) (updateKeyDto : UpdateApiKeyDto.t)
  : M (Response.t UpdateData.t) :=
  try_catch
    (if negb (Js.truthy_string id) then
       throw (http_exception e "MISSING_KEY_ID" "Key ID is required" HttpStatus.BAD_REQUEST)
     else
       let name := UpdateApiKeyDto.name updateKeyDto in
       let description := UpdateApiKeyDto.description updateKeyDto in
       let expires_at := UpdateApiKeyDto.expires_at updateKeyDto in
       let is_active := UpdateApiKeyDto.is_active updateKeyDto in
       if is_none name && is_none description && is_undefined expires_at && is_none is_active
       then
         throw (http_exception e "MISSING_UPDATE_FIELDS"
                  "At least one field (name, description, expires_at, or is_active) must be provided"
                  HttpStatus.BAD_REQUEST)
       else
         existingKey <- ApiKeyRepo.findOneById (Js.parseInt id) ;;
         match existingKey with
         | None =>
             throw (http_exception e "KEY_NOT_FOUND" "API key not found" HttpStatus.NOT_FOUND)
         | Some _ =>
             expiryDate <- update_expiry e expires_at ;;
             let updateData :=
               {| ApiKeyRepo.set_name := name;
                  ApiKeyRepo.set_description := description;
                  ApiKeyRepo.set_expiry_date := expiryDate;
                  ApiKeyRepo.set_is_active := is_active;
                  ApiKeyRepo.set_updated_by := Some "key-manager-service";
                  ApiKeyRepo.set_deleted_at := None;
                  ApiKeyRepo.set_deleted_by := None |} in
             ApiKeyRepo.update e (Js.parseInt id) updateData ;;;
             updatedKey <- ApiKeyRepo.findOneById (Js.parseInt id) ;;
             match updatedKey with
             | None => throw (Error "Cannot read properties of null (reading 'id')")
             | Some updatedKey =>
                 ret {| Response.success := true;
                        Response.message := "API key updated successfully";
                        Response.data :=
                          {| UpdateData.key_id := ApiKey.id updatedKey;
                             UpdateData.client_id := ApiKey.client_id updatedKey;
                             UpdateData.name := ApiKey.name updatedKey;
                             UpdateData.description := ApiKey.description updatedKey;
                             UpdateData.is_active := ApiKey.is_active updatedKey;
                             UpdateData.expires_at := ApiKey.expiry_date updatedKey;
                             UpdateData.status :=
                               if ApiKey.is_active updatedKey then active else inactive;
                             UpdateData.updated_at := ApiKey.updated_at updatedKey |};
                        Response.timestamp := now e |}
             end
         end)
    (fun error =>
       throw (rethrow_or_internal e "KEY_UPDATE_ERROR" "Failed to update API key" error)).

Definition removeKey (e : Env) (id : string) (deletedBy : string)
  : M (Response.t RemoveData.t) :=
  try_catch
    (if negb (Js.truthy_string id) then
       throw (http_exception e "MISSING_KEY_ID" "Key ID is required" HttpStatus.BAD_REQUEST)
     else
       existingKey <- ApiKeyRepo.findOneById (Js.parseInt id) ;;
       match existingKey with
       | None =>
           throw (http_exception e "KEY_NOT_FOUND" "API key not found" HttpStatus.NOT_FOUND)
       | Some existingKey =>
           match ApiKey.deleted_at existingKey with
           | Some _ =>
               throw (http_exception e "KEY_ALREADY_DELETED" "API key already deleted"
                        HttpStatus.BAD_REQUEST)
           | None =>
               ApiKeyRepo.update e (Js.parseInt id)
                 {| ApiKeyRepo.set_name := None;
                    ApiKeyRepo.set_description := None;
                    ApiKeyRepo.set_expiry_date := None;
                    ApiKeyRepo.set_is_active := None;
                    ApiKeyRepo.set_updated_by := Some deletedBy;
                    ApiKeyRepo.set_deleted_at := Some (now e);
                    ApiKeyRepo.set_deleted_by := Some deletedBy |} ;;;
               deletedKey <- ApiKeyRepo.findOneById (Js.parseInt id) ;;
               match deletedKey with
               | None => throw (Error "Cannot read properties of null (reading 'id')")
               | Some deletedKey =>
                   ret {| Response.success := true;
                          Response.message := "API key removed successfully";
                          Response.data :=
                            {| RemoveData.key_id := ApiKey.id deletedKey;
                               RemoveData.client_id := ApiKey.client_id deletedKey;
                               RemoveData.status := deleted;
                               RemoveData.deleted_at := ApiKey.deleted_at deletedKey;
                               RemoveData.deleted_by := ApiKey.deleted_by deletedKey |};
                          Response.timestamp := now e |}
               end
           end
       end)
    (fun error =>
       throw (rethrow_or_internal e "KEY_REMOVAL_ERROR" "Failed to remove API key" error)).

(** [Math.max(1, parseInt(String(query.page || 1)))]. *)
Definition effective_page (page : Js.param) : option Z :=
  Js.Math_max 1 (Js.parseInt (Js.String_ (Js.or_default page 1))).

(** [Math.min(100, Math.max(1, parseInt(String(query.limit || 10))))]. *)
Definition effective_limit (limit : Js.param) : option Z :=
  Js.Math_min 100 (Js.Math_max 1 (Js.parseInt (Js.String_ (Js.or_default limit 10)))).

(** [(page - 1) * limit]. *)
Definition effective_skip (page limit : option Z) : option Z :=
  match page, limit with
  | Some p, Some l => Some ((p - 1) * l)
  | _, _ => None
  end.

(** The conjunction of the [andWhere] clauses of a list query. *)
Definition list_where (e : Env) (query : ListKeysQueryDto.t) (k : ApiKey.t) : bool :=
  (if negb (ListKeysQueryDto.include_deleted query)
   then is_none (ApiKey.deleted_at k) else true)
  && (match ListKeysQueryDto.client_id query with
      | Some c => if Js.truthy_string c then String.eqb (ApiKey.client_id k) c else true
      | None => true
      end)
  && (match ListKeysQueryDto.status query with
      | Some st =>
          if negb (Js.truthy_string st) then true
          else if String.eqb st "active" then
            Bool.eqb (ApiKey.is_active k) true
            && match ApiKey.expiry_date k with Some t => now e <? t | None => false end
          else if String.eqb st "inactive" || String.eqb st "revoked" then
            Bool.eqb (ApiKey.is_active k) false
          else if String.eqb st "expired" then
            match ApiKey.expiry_date k with Some t => t <=? now e | None => false end
          else true
      | None => true
      end)
  && (match ListKeysQueryDto.search query with
      | Some q =>
          if Js.truthy_string q then
            ilike e (ApiKey.name k) ("%" ++ q ++ "%")
            || match ApiKey.description k with
               | Some d => ilike e d ("%" ++ q ++ "%")
               | None => false
               end
          else true
      | None => true
      end).

Definition allowedSortColumns : list string :=
  ["created_at"; "updated_at"; "expiry_date"; "name"; "is_active"].

Definition includes (l : list string) (s : string) : bool :=
  existsb (String.eqb s) l.

Definition or_string (v : option string) (d : string) : string :=
  match v with
  | Some s => if Js.truthy_string s then s else d
  | None => d
  end.

(** The status expression of a list item. *)
Definition list_status (e : Env) (key : ApiKey.t) : KeyStatus :=
  match ApiKey.deleted_at key with
  | Some _ => deleted
  | None =>
      if negb (ApiKey.is_active key) then inactive
      else if Js.date_le (ApiKey.expiry_date key) (now e) then expired
      else active
  end.

Definition list_item (e : Env) (row : ApiKey.t * option SaInfo.t) : ListItem.t :=
  let '(key, service_account) := row in
  {| ListItem.id := ApiKey.id key;
     ListItem.client_id := ApiKey.client_id key;
     ListItem.client_secret := option_map SaInfo.client_secret service_account;
     ListItem.api_key := ApiKey.api_key key;
     ListItem.name := ApiKey.name key;
     ListItem.description := ApiKey.description key;
     ListItem.created_at := ApiKey.created_at key;
     ListItem.expires_at := ApiKey.expiry_date key;
     ListItem.status := list_status e key;
     ListItem.deleted_at := ApiKey.deleted_at key;
     ListItem.deleted_by := ApiKey.deleted_by key |}.

Definition listKeys (e : Env) (query : ListKeysQueryDto.t)
  : M (Response.t ListData.t) :=
  try_catch
    (let page := effective_page (ListKeysQueryDto.page query) in
     let limit := effective_limit (ListKeysQueryDto.limit query) in
     let skip := effective_skip page limit in
     let sortByColumn := or_string (ListKeysQueryDto.sort_by query) "created_at" in
     let sortOrderDirection := or_string (ListKeysQueryDto.sort_order query) "DESC" in
     total <- ApiKeyRepo.getCount (list_where e query) ;;
     let validSortColumn :=
       if includes allowedSortColumns sortByColumn then sortByColumn else "created_at" in
     keys <- ApiKeyRepo.getMany e (list_where e query) validSortColumn sortOrderDirection
               skip limit ;;
     let total_pages := option_map (Js.ceil_div total) limit in
     ret {| Response.success := true;
            Response.message := "API keys retrieved successfully";
            Response.data :=
              {| ListData.keys := map (list_item e) keys;
                 ListData.pagination :=
                   {| Pagination.page := page;
                      Pagination.limit := limit;
                      Pagination.total := total;
                      Pagination.total_pages := total_pages;
                      Pagination.has_next :=
                        match page, total_pages with
                        | Some p, Some tp => p <? tp
                        | _, _ => false
                        end;
                      Pagination.has_previous :=
                        match page with Some p => 1 <? p | None => false end |} |};
            Response.timestamp := now e |})
    (fun error =>
       throw (http_exception e "KEY_LISTING_ERROR" "Failed to list API keys"
                HttpStatus.INTERNAL_SERVER_ERROR)).

End KeyManagerService.
(** ** Vocabulary of the statements *)

(** The lifecycle classifier, written from section 4.4 of the specification
    and not from the code: deleted overrides inactive overrides expired
    overrides active, and a key is expired when its expiry date is non-null
    and not after now. *)
Module Spec.
Definition classify (deletedAt : option Z) (isActive : bool)
    (expiryDate : option Z) (now : Z) : KeyStatus :=
  match deletedAt with
  | Some _ => deleted
  | None =>
      if negb isActive then inactive
      else match expiryDate with
           | Some t => if t <=? now then expired else active
           | None => active
           end
  end.
End Spec.

(** The specification's classifier applied to the stored fields of a row. *)
Definition stored_status (e : Env) (k : ApiKey.t) : KeyStatus :=
  Spec.classify (ApiKey.deleted_at k) (ApiKey.is_active k) (ApiKey.expiry_date k) (now e).

(** A string that is empty or made of white space only. *)
Definition blank (s : string) : bool :=
  forallb Js.is_white_space (list_ascii_of_string s).

(** The world after further repository calls that changed no table. *)
Definition after_events (w : World) (evs : list Event) : World :=
  {| sa_info := sa_info w; api_keys := api_keys w;
     api_key_seq := api_key_seq w; uuids := uuids w;
     entropy := entropy w; config := config w;
     trace := trace w ++ evs |}.

(** The same world over another api_keys table. *)
Definition with_api_keys (w : World) (rows : list ApiKey.t) : World :=
  {| sa_info := sa_info w; api_keys := rows;
     api_key_seq := api_key_seq w; uuids := uuids w;
     entropy := entropy w; config := config w;
     trace := trace w |}.

(** Primary keys: no two rows of a table share an identifier. *)
Definition sa_ids_unique (w : World) : Prop := NoDup (map SaInfo.id (sa_info w)).
Definition key_ids_unique (w : World) : Prop := NoDup (map ApiKey.id (api_keys w)).

(** The row that holds a given token is the only one that does. *)
Definition only_holder (w : World) (k : ApiKey.t) : Prop :=
  forall k', In k' (api_keys w) -> ApiKey.api_key k' = ApiKey.api_key k -> k' = k.

(** The token of the [i]-th draw from now is already stored. *)
Definition draw_collides (e : Env) (w : World) (i : nat) : Prop :=
  exists k, In k (api_keys w)
            /\ ApiKey.api_key k = randomBytes32_base64 e (entropy w + i)%nat.

(** 365 days in milliseconds. *)
Definition one_year_ms : Z := 365 * 24 * 60 * 60 * 1000.




(** The test of the direction that [listKeys] hands to [orderBy]. *)
Definition direction_accepted (query : KeyManagerService.ListKeysQueryDto.t) : bool :=
  let direction :=
    KeyManagerService.or_string (KeyManagerService.ListKeysQueryDto.sort_order query) "DESC" in
  String.eqb direction "ASC" || String.eqb direction "DESC".

(** The message of the error that ends an exhausted retry loop. *)
Definition exhausted_message (w : World) : string :=
  "Failed to generate unique key after "
  ++ Js.string_of_Z (Z.of_nat (maxRetries (config w))) ++ " attempts".

(** The input check of the generator, as a boolean. *)
Definition generation_input_ok (e : Env) (userId : string) (expiresAt : option Z) : bool :=
  Js.truthy_string userId && negb (String.length (Js.trim userId) =? 0)%nat
  && match expiresAt with Some d => negb (d <=? now e) | None => true end.

(** The properties of the stored row and of the result that the callers of
    the generator rely on. *)
Definition generated (e : Env) (w w' : World) (userId : string) (isActive : bool)
    (expiresAt : option Z) (rawKey : string) (resultExpiresAt : option Z)
    (resultCreatedAt : Z) (resultStatus : KeyStatus) : Prop :=
  exists row,
    api_keys w' = (api_keys w ++ [row])%list
    /\ ApiKey.api_key row = rawKey
    /\ ApiKey.client_id row = userId
    /\ ApiKey.is_active row = isActive
    /\ ApiKey.deleted_at row = None
    /\ ApiKey.expiry_date row
       = Some (match expiresAt with
               | Some d => d
               | None => now e + defaultExpiryDays (config w) * 24 * 60 * 60 * 1000
               end)
    /\ resultExpiresAt = ApiKey.expiry_date row
    /\ resultCreatedAt = now e
    /\ resultStatus = if isActive then active else inactive.

(** The lookup of the owner's account, as [createApiKey] writes it. *)
Definition owner_account (user_id : Z) (sa : SaInfo.t) : bool :=
  (SaInfo.user_id sa =? user_id)
  && match SaInfo.deleted_at sa with None => true | Some _ => false end.

(** The parameters [createApiKey] hands to the generator. *)
Definition generation_params (dto : KeyManagerService.CreateApiKeyDto.t) (sa : SaInfo.t)
    (expiryDate : option Z) : KeyGenerationService.KeyGenerationParams.t :=
  {| KeyGenerationService.KeyGenerationParams.userId := SaInfo.id sa;
     KeyGenerationService.KeyGenerationParams.name :=
       KeyManagerService.CreateApiKeyDto.name dto;
     KeyGenerationService.KeyGenerationParams.description :=
       KeyManagerService.CreateApiKeyDto.description dto;
     KeyGenerationService.KeyGenerationParams.isActive :=
       Some (match KeyManagerService.CreateApiKeyDto.is_active dto with
             | Some b => b
             | None => true
             end);
     KeyGenerationService.KeyGenerationParams.expiresAt := expiryDate |}.

(** ** Proof steps *)

(** Unfolds the monad down to functions on worlds. *)
Ltac unfold_monad := unfold bind, ret, throw, get_world, log_event.

(** Splits a conjunction whose left part holds by computation. *)
Ltac split_refl := split; [reflexivity|].

(** ** Sample data *)

Module Sample.

Definition env : Env :=
  {| now := 1000;
     randomBytes32_base64 := fun n => "tok" ++ Js.string_of_Z (Z.of_nat n);
     uuid := fun n => "sa-" ++ Js.string_of_Z (Z.of_nat n);
     Date_parse := Js.parseInt;
     toISOString := Js.string_of_Z;
     ilike := fun text pattern => true;
     order_by := fun column direction rows => rows |}.

Definition account (id : string) (user : Z) (secret : string) (del : option Z) : SaInfo.t :=
  {| SaInfo.id := id; SaInfo.user_id := user; SaInfo.client_secret := secret;
     SaInfo.description := None; SaInfo.created_at := 10;
     SaInfo.created_by := Some "key-manager-service"; SaInfo.updated_at := 10;
     SaInfo.updated_by := None; SaInfo.deleted_at := del;
     SaInfo.deleted_by := match del with Some _ => Some "admin" | None => None end |}.

Definition key (id : Z) (client token : string) (is_active : bool)
    (expiry del : option Z) : ApiKey.t :=
  {| ApiKey.id := id; ApiKey.client_id := client; ApiKey.api_key := token;
     ApiKey.name := "sample"; ApiKey.description := None;
     ApiKey.is_active := is_active; ApiKey.expiry_date := expiry;
     ApiKey.created_at := 20; ApiKey.created_by := Some "key-generation-service";
     ApiKey.updated_at := 20; ApiKey.updated_by := None; ApiKey.deleted_at := del;
     ApiKey.deleted_by := match del with Some _ => Some "admin" | None => None end |}.

Definition world (accounts : list SaInfo.t) (keys : list ApiKey.t) : World :=
  {| sa_info := accounts; api_keys := keys;
     api_key_seq := 1 + Z.of_nat (List.length keys);
     uuids := List.length accounts; entropy := 0;
     config := KeyGenerationService.default_config; trace := [] |}.

(** [listKeys()] with no parameter. *)
Definition query : KeyManagerService.ListKeysQueryDto.t :=
  {| KeyManagerService.ListKeysQueryDto.page := Js.PUndefined;
     KeyManagerService.ListKeysQueryDto.limit := Js.PUndefined;
     KeyManagerService.ListKeysQueryDto.sort_by := None;
     KeyManagerService.ListKeysQueryDto.sort_order := None;
     KeyManagerService.ListKeysQueryDto.include_deleted := false;
     KeyManagerService.ListKeysQueryDto.client_id := None;
     KeyManagerService.ListKeysQueryDto.status := None;
     KeyManagerService.ListKeysQueryDto.search := None |}.

(** A creation request with only the required fields. *)
Definition create_request (user : Z) (name : string) : KeyManagerService.CreateApiKeyDto.t :=
  {| KeyManagerService.CreateApiKeyDto.user_id := user;
     KeyManagerService.CreateApiKeyDto.name := name;
     KeyManagerService.CreateApiKeyDto.expires_at := Js.undefined;
     KeyManagerService.CreateApiKeyDto.description := None;
     KeyManagerService.CreateApiKeyDto.is_active := None |}.

(** An update request that only renames the key. *)
Definition rename_request (name : string) : KeyManagerService.UpdateApiKeyDto.t :=
  {| KeyManagerService.UpdateApiKeyDto.name := Some name;
     KeyManagerService.UpdateApiKeyDto.description := None;
     KeyManagerService.UpdateApiKeyDto.expires_at := Js.undefined;
     KeyManagerService.UpdateApiKeyDto.is_active := None |}.

End Sample.
(** ** Vocabulary of the further properties *)

(** The lookup of the client's account, as [validateKey] writes it. *)
Definition client_account (client_id : string) (sa : SaInfo.t) : bool :=
  String.eqb (SaInfo.id sa) client_id
  && match SaInfo.deleted_at sa with None => true | Some _ => false end.

(** The [where] clause of the query of [validateApiKey]. *)
Definition active_scope (clientId : option string) (k : ApiKey.t) : bool :=
  Bool.eqb (ApiKey.is_active k) true
  && (if Js.truthy_option_string clientId
      then match clientId with
           | Some c => String.eqb (ApiKey.client_id k) c
           | None => true
           end
      else true).

(** The record the scan of [validateApiKey] stops at. *)
Definition scanned (w : World) (keyToValidate : string) (clientId : option string)
  : option ApiKey.t :=
  find (fun record => String.eqb keyToValidate (ApiKey.api_key record))
    (filter (active_scope clientId) (api_keys w)).

(** The exception [validateKey] throws for a failed validation result. *)
Definition validation_failure (reason message : string) (time status : Z) : exn :=
  HttpException
    {| code := reason; message := message; timestamp := time;
       data := Some {| fd_api_key := "***masked***";
                       validation_failed_reason := reason |} |}
    status.

(** The columns of a key that no update may touch. *)
Definition identity_columns (k : ApiKey.t)
  : Z * string * string * Z * option string * option Z * option string :=
  (ApiKey.id k, ApiKey.client_id k, ApiKey.api_key k, ApiKey.created_at k,
   ApiKey.created_by k, ApiKey.deleted_at k, ApiKey.deleted_by k).

(** The columns of a key that a soft delete leaves alone. *)
Definition payload_columns (k : ApiKey.t)
  : Z * string * string * string * option string * bool * option Z :=
  (ApiKey.id k, ApiKey.client_id k, ApiKey.api_key k, ApiKey.name k,
   ApiKey.description k, ApiKey.is_active k, ApiKey.expiry_date k).

(** The stored tokens, in table order. *)
Definition tokens (w : World) : list string := map ApiKey.api_key (api_keys w).

(** [ORDER BY] returns rows of its input, and no more of them. *)
Definition order_by_sound (e : Env) : Prop :=
  forall column direction rows,
    (forall k, In k (order_by e column direction rows) -> In k rows)
    /\ (List.length (order_by e column direction rows) <= List.length rows)%nat.

(** A list query with another [sort_by]. *)
Definition with_sort_by (query : KeyManagerService.ListKeysQueryDto.t)
    (sort_by : option string) : KeyManagerService.ListKeysQueryDto.t :=
  {| KeyManagerService.ListKeysQueryDto.page :=
       KeyManagerService.ListKeysQueryDto.page query;
     KeyManagerService.ListKeysQueryDto.limit :=
       KeyManagerService.ListKeysQueryDto.limit query;
     KeyManagerService.ListKeysQueryDto.sort_by := sort_by;
     KeyManagerService.ListKeysQueryDto.sort_order :=
       KeyManagerService.ListKeysQueryDto.sort_order query;
     KeyManagerService.ListKeysQueryDto.include_deleted :=
       KeyManagerService.ListKeysQueryDto.include_deleted query;
     KeyManagerService.ListKeysQueryDto.client_id :=
       KeyManagerService.ListKeysQueryDto.client_id query;
     KeyManagerService.ListKeysQueryDto.status :=
       KeyManagerService.ListKeysQueryDto.status query;
     KeyManagerService.ListKeysQueryDto.search :=
       KeyManagerService.ListKeysQueryDto.search query |}.

(** The codes of the exceptions each method throws by itself. *)
Definition create_codes : list string :=
  ["INVALID_EXPIRY_DATE"; "EXPIRY_DATE_PAST"; "KEY_CREATION_ERROR"].
Definition update_codes : list string :=
  ["MISSING_KEY_ID"; "MISSING_UPDATE_FIELDS"; "KEY_NOT_FOUND";
   "INVALID_EXPIRY_DATE"; "EXPIRY_DATE_PAST"; "KEY_UPDATE_ERROR"].
Definition validation_reasons : list string :=
  ["INVALID_FORMAT"; "KEY_NOT_FOUND"; "KEY_EXPIRED"; "VALIDATION_ERROR"].

(** A repository whose [find] returns only rows that its condition selects. *)
Definition finds_rows_of_query (find : (ApiKey.t -> bool) -> M (list ApiKey.t)) : Prop :=
  forall where_ w rows w',
    find where_ w = (Return rows, w') -> forall k, In k rows -> where_ k = true.

(** The world after the three repository calls of a successful update or
    removal: the lookup, the [update] and the second lookup. *)
Definition after_update (e : Env) (w : World) (id : string)
    (u : ApiKeyRepo.UpdateData) : World :=
  {| sa_info := sa_info w;
     api_keys := map (fun k => if KeyManagerService.where_id id k
                               then ApiKeyRepo.apply_update e u k else k)
                   (api_keys w);
     api_key_seq := api_key_seq w; uuids := uuids w;
     entropy := entropy w; config := config w;
     trace := ((trace w ++ [KeyFindOne]) ++ [KeyUpdate]) ++ [KeyFindOne] |}.

(** The columns [removeKey] writes. *)
Definition delete_data (e : Env) (deletedBy : string) : ApiKeyRepo.UpdateData :=
  {| ApiKeyRepo.set_name := None;
     ApiKeyRepo.set_description := None;
     ApiKeyRepo.set_expiry_date := None;
     ApiKeyRepo.set_is_active := None;
     ApiKeyRepo.set_updated_by := Some deletedBy;
     ApiKeyRepo.set_deleted_at := Some (now e);
     ApiKeyRepo.set_deleted_by := Some deletedBy |}.

(** The columns [updateApiKey] writes for a request and its parsed expiry. *)
Definition update_data (dto : KeyManagerService.UpdateApiKeyDto.t)
    (expiryDate : option Z) : ApiKeyRepo.UpdateData :=
  {| ApiKeyRepo.set_name := KeyManagerService.UpdateApiKeyDto.name dto;
     ApiKeyRepo.set_description := KeyManagerService.UpdateApiKeyDto.description dto;
     ApiKeyRepo.set_expiry_date := expiryDate;
     ApiKeyRepo.set_is_active := KeyManagerService.UpdateApiKeyDto.is_active dto;
     ApiKeyRepo.set_updated_by := Some "key-manager-service";
     ApiKeyRepo.set_deleted_at := None;
     ApiKeyRepo.set_deleted_by := None |}.

(** An update request names no field. *)
Definition no_field (dto : KeyManagerService.UpdateApiKeyDto.t) : bool :=
  KeyManagerService.is_none (KeyManagerService.UpdateApiKeyDto.name dto)
  && KeyManagerService.is_none (KeyManagerService.UpdateApiKeyDto.description dto)
  && KeyManagerService.is_undefined (KeyManagerService.UpdateApiKeyDto.expires_at dto)
  && KeyManagerService.is_none (KeyManagerService.UpdateApiKeyDto.is_active dto).

(** How [createApiKey] came by the account [sa] it works under: the lookup
    found it, or found none and [sa] was saved with a fresh secret.  Either
    way the lookup finds [sa] in the resulting rows. *)
Definition provisioned (e : Env) (user : Z) (w : World) (sa : SaInfo.t)
    (rows : list SaInfo.t) : Prop :=
  SaInfo.user_id sa = user /\ SaInfo.deleted_at sa = None
  /\ find (owner_account user) rows = Some sa
  /\ ((find (owner_account user) (sa_info w) = Some sa /\ rows = sa_info w)
      \/ (find (owner_account user) (sa_info w) = None
          /\ rows = (sa_info w ++ [sa])%list
          /\ SaInfo.id sa = uuid e (uuids w)
          /\ SaInfo.client_secret sa = randomBytes32_base64 e (entropy w))).

(** No stored key holds the token. *)
Definition fresh_token (w : World) (token : string) : Prop :=
  forall k, In k (api_keys w) -> ApiKey.api_key k <> token.

(** The column a list query is ordered by, after the allow-list. *)
Definition sort_column (query : KeyManagerService.ListKeysQueryDto.t) : string :=
  let sortByColumn :=
    KeyManagerService.or_string (KeyManagerService.ListKeysQueryDto.sort_by query)
      "created_at" in
  if KeyManagerService.includes KeyManagerService.allowedSortColumns sortByColumn
  then sortByColumn else "created_at".

(** The rows a list query matches, in table order. *)
Definition matching (e : Env) (query : KeyManagerService.ListKeysQueryDto.t) (w : World)
  : list ApiKey.t :=
  filter (KeyManagerService.list_where e query) (api_keys w).

(** The rows of page [P] of size [L] of a list query. *)
Definition page_rows (e : Env) (query : KeyManagerService.ListKeysQueryDto.t) (w : World)
    (P L : Z) : list ApiKey.t :=
  firstn (Z.to_nat L)
    (skipn (Z.to_nat ((P - 1) * L))
       (order_by e (sort_column query)
          (KeyManagerService.or_string
             (KeyManagerService.ListKeysQueryDto.sort_order query) "DESC")
          (matching e query w))).

(** A row with the service account joined to it. *)
Definition joined (w : World) (k : ApiKey.t) : ApiKey.t * option SaInfo.t :=
  (k, find (fun sa => String.eqb (SaInfo.id sa) (ApiKey.client_id k)) (sa_info w)).

(** * Properties *)

(** ** JavaScript primitives *)










Lemma trimStart_blank (s : string) :
  forallb Js.is_white_space (list_ascii_of_string s) = true -> Js.trimStart s = EmptyString.
Proof.
  induction s as [|c s IH]; cbn [list_ascii_of_string forallb Js.trimStart]; [reflexivity|].
  intros [Hc Hs]%andb_true_iff. rewrite Hc. auto.
Qed.

Lemma trim_blank (s : string) :
  forallb Js.is_white_space (list_ascii_of_string s) = true -> Js.trim s = EmptyString.
Proof. intro H. unfold Js.trim. now rewrite trimStart_blank. Qed.

Lemma parseInt_some_truthy (s : string) (z : Z) :
  Js.parseInt s = Some z -> Js.truthy_string s = true.
Proof. destruct s; [discriminate | reflexivity]. Qed.

Example parseInt_examples :
  Js.parseInt "42" = Some 42 /\ Js.parseInt "  -7px" = Some (-7)
  /\ Js.parseInt "0x1F" = Some 31 /\ Js.parseInt "abc" = None
  /\ Js.parseInt EmptyString = None /\ Js.parseInt "1e3" = Some 1
  /\ Js.parseInt "9007199254740993" = Some 9007199254740992
  /\ Js.parseInt "9007199254740995" = Some 9007199254740996
  /\ Js.parseInt "123456789012345678901234567890" = Some 123456789012345677877719597056.
Proof. repeat split. Qed.

Example trim_examples :
  Js.trim "  ab c  " = "ab c" /\ Js.trim EmptyString = EmptyString /\ blank EmptyString = true.
Proof. repeat split. Qed.

(** ** Lists as tables *)

Lemma find_the_only {A} (p : A -> bool) (l : list A) (x : A) :
  In x l -> p x = true ->
  (forall y, In y l -> p y = true -> y = x) ->
  find p l = Some x.
Proof.
  induction l as [|a l IH]; cbn [In find]; [tauto|].
  intros Hin Hp Huniq. destruct (p a) eqn:Hpa.
  - f_equal. apply Huniq; auto.
  - apply IH; auto. destruct Hin as [->|Hin]; [congruence | assumption].
Qed.

Lemma NoDup_map_eq {A B} (f : A -> B) (l : list A) (x y : A) :
  NoDup (map f l) -> In x l -> In y l -> f x = f y -> x = y.
Proof.
  induction l as [|a l IH]; cbn [map In]; [tauto|].
  intros Hnd Hx Hy Hf. inversion Hnd as [|? ? Hnotin Hnd']; subst.
  destruct Hx as [->|Hx], Hy as [->|Hy]; auto.
  - exfalso. apply Hnotin. rewrite Hf. now apply in_map.
  - exfalso. apply Hnotin. rewrite <- Hf. now apply in_map.
Qed.

Lemma find_none_iff {A} (p : A -> bool) (l : list A) :
  find p l = None <-> forall x, In x l -> p x = false.
Proof.
  split.
  - intros H x Hx. eapply find_none; eauto.
  - induction l as [|a l IH]; cbn [find In]; [reflexivity|].
    intro H. rewrite (H a) by auto. apply IH. auto.
Qed.

(** ** Key validation *)

Import KeyValidationService.

(** The expiry comparison is the non-strict one. *)
Lemma validateExpiration_valid_iff (e : Env) (t : Z) :
  ExpirationValidationResult.isValid (validateExpiration e (Some t)) = true
  <-> now e < t.
Proof.
  unfold validateExpiration. destruct (Z.leb_spec t (now e)); cbn; split; intros; lia || congruence.
Qed.

Lemma validateExpiration_expired (e : Env) (t : Z) :
  t <= now e ->
  validateExpiration e (Some t)
  = {| ExpirationValidationResult.isValid := false;
       ExpirationValidationResult.reason := "KEY_EXPIRED";
       ExpirationValidationResult.message := "API key expired on " ++ toISOString e t |}.
Proof.
  intro H. unfold validateExpiration.
  destruct (Z.leb_spec t (now e)); [reflexivity | lia].
Qed.

(** The scan of [validateApiKey] finds the stored row that holds the token. *)
Lemma scan_finds_holder (w : World) (k : ApiKey.t) (where_ : ApiKey.t -> bool) :
  In k (api_keys w) -> where_ k = true -> only_holder w k ->
  find (fun record => String.eqb (ApiKey.api_key k) (ApiKey.api_key record))
    (filter where_ (api_keys w)) = Some k.
Proof.
  intros Hin Hw Honly. apply find_the_only.
  - apply filter_In; auto.
  - apply String.eqb_refl.
  - intros y [Hy _]%filter_In Heq%String.eqb_eq. apply Honly; auto.
Qed.

(** What [validateApiKey] answers for a stored, active key of the client, in
    terms of the expiry check alone. *)
Lemma validateApiKey_stored (e : Env) (w : World) (k : ApiKey.t) :
  In k (api_keys w) -> only_holder w k ->
  ApiKey.is_active k = true ->
  Js.trim (ApiKey.api_key k) <> EmptyString ->
  validateApiKey e (ApiKey.api_key k) (Some (ApiKey.client_id k)) w
  = (Return
       (let v := validateExpiration e (ApiKey.expiry_date k) in
        if ExpirationValidationResult.isValid v then
          {| ValidationResult.isValid := true;
             ValidationResult.reason := None;
             ValidationResult.message := "API key validation successful";
             ValidationResult.statusCode := 200;
             ValidationResult.timestamp := now e;
             ValidationResult.keyInfo :=
               Some {| KeyInfo.id := Js.string_of_Z (ApiKey.id k);
                       KeyInfo.userId := ApiKey.client_id k;
                       KeyInfo.expiresAt := ApiKey.expiry_date k;
                       KeyInfo.status := active |} |}
        else createFailureResult e (ExpirationValidationResult.reason v)
               (ExpirationValidationResult.message v) 401 (Some (now e))),
     after_events w [KeyFind]).
Proof.
  intros Hin Honly Hact Htrim.
  unfold validateApiKey, validateApiKey_over, try_catch.
  destruct (Js.trim (ApiKey.api_key k)) eqn:Ht; [congruence|]. cbn [Js.truthy_string negb].
  unfold ApiKeyRepo.find, bind, log_event, get_world, ret. cbn [api_keys].
  rewrite (scan_finds_holder w k) by
    (auto; rewrite Hact, String.eqb_refl; cbn; now destruct (Js.truthy_string _)).
  rewrite Hact. cbn [negb].
  destruct (ExpirationValidationResult.isValid (validateExpiration e (ApiKey.expiry_date k)));
    reflexivity.
Qed.

(** A key that is not blank is looked up: the repository is read once. *)
Lemma validateApiKey_nonblank_reads (e : Env) (w : World) (keyToValidate : string)
    (clientId : option string) :
  Js.trim keyToValidate <> EmptyString ->
  exists r, validateApiKey e keyToValidate clientId w = (Return r, after_events w [KeyFind]).
Proof.
  intro Ht. unfold validateApiKey, validateApiKey_over, try_catch.
  destruct (Js.trim keyToValidate); [congruence|]. cbn [Js.truthy_string negb].
  unfold ApiKeyRepo.find. unfold_monad. cbn [api_keys].
  destruct (find _ _) as [k|]; [|eexists; reflexivity].
  destruct (negb (ApiKey.is_active k)); [eexists; reflexivity|].
  destruct (negb _); eexists; reflexivity.
Qed.

(** C10. A key that is empty or white space only is answered [INVALID_FORMAT]
    and the world, repository trace included, is left as it was: no
    repository call is made. *)
Theorem validateApiKey_blank_no_read (e : Env) (w : World) (keyToValidate : string)
    (clientId : option string) :
  blank keyToValidate = true ->
  exists r,
    validateApiKey e keyToValidate clientId w = (Return r, w)
    /\ ValidationResult.isValid r = false
    /\ ValidationResult.reason r = Some "INVALID_FORMAT".
Proof.
  intro Hb. unfold validateApiKey, validateApiKey_over, try_catch.
  rewrite (trim_blank _ Hb). cbn. eexists. repeat split.
Qed.

Lemma validateApiKey_blank_no_read_witness :
  blank "   " = true
  /\ exists r,
       validateApiKey Sample.env "   " (Some "sa-0")
         (Sample.world [] [Sample.key 1 "sa-0" "   " true None None])
       = (Return r, Sample.world [] [Sample.key 1 "sa-0" "   " true None None])
       /\ ValidationResult.isValid r = false
       /\ ValidationResult.reason r = Some "INVALID_FORMAT".
Proof.
  split; [reflexivity|].
  apply (validateApiKey_blank_no_read Sample.env
           (Sample.world [] [Sample.key 1 "sa-0" "   " true None None]) "   " (Some "sa-0")).
  reflexivity.
Defined.

(** C7. A stored, active key whose [expiry_date] is exactly the current time
    is answered [KEY_EXPIRED] with status 401: the expiry check rejects
    [expiry_date <= now]. *)
Theorem validateApiKey_expiry_boundary (e : Env) (w : World) (k : ApiKey.t) :
  In k (api_keys w) -> only_holder w k ->
  ApiKey.is_active k = true ->
  Js.trim (ApiKey.api_key k) <> EmptyString ->
  ApiKey.expiry_date k = Some (now e) ->
  ExpirationValidationResult.isValid (validateExpiration e (ApiKey.expiry_date k)) = false
  /\ ExpirationValidationResult.reason (validateExpiration e (ApiKey.expiry_date k))
     = "KEY_EXPIRED"
  /\ exists r,
       validateApiKey e (ApiKey.api_key k) (Some (ApiKey.client_id k)) w
       = (Return r, after_events w [KeyFind])
       /\ ValidationResult.isValid r = false
       /\ ValidationResult.reason r = Some "KEY_EXPIRED"
       /\ ValidationResult.statusCode r = 401
       /\ ValidationResult.keyInfo r = None.
Proof.
  intros Hin Honly Hact Htrim Hexp.
  rewrite (validateApiKey_stored e w k) by assumption.
  rewrite Hexp, (validateExpiration_expired e (now e)) by lia.
  cbn. repeat split. eexists. repeat split.
Qed.

Lemma validateApiKey_expiry_boundary_witness :
  let k := Sample.key 1 "sa-0" "tok0" true (Some 1000) None in
  let w := Sample.world [Sample.account "sa-0" 42 "s3cret" None] [k] in
  exists r,
    validateApiKey Sample.env "tok0" (Some "sa-0") w
    = (Return r, after_events w [KeyFind])
    /\ ValidationResult.reason r = Some "KEY_EXPIRED".
Proof.
  intros k w.
  destruct (validateApiKey_expiry_boundary Sample.env w k) as (_ & _ & r & Hr & _ & Hreason & _).
  - left; reflexivity.
  - intros k' [<-|[]] _; reflexivity.
  - reflexivity.
  - discriminate.
  - reflexivity.
  - exists r. split; [exact Hr | exact Hreason].
Defined.

(** ** Key manager: validation *)

Import KeyManagerService.

(** The lookup of step 1 resolves the non-deleted account of the client. *)
Lemma find_account_by_id (w : World) (sa : SaInfo.t) :
  sa_ids_unique w -> In sa (sa_info w) -> SaInfo.deleted_at sa = None ->
  find (fun sa' => String.eqb (SaInfo.id sa') (SaInfo.id sa)
                   && match SaInfo.deleted_at sa' with None => true | Some _ => false end)
    (sa_info w) = Some sa.
Proof.
  intros Hu Hin Hdel. apply find_the_only; auto.
  - now rewrite String.eqb_refl, Hdel.
  - intros y Hy [Hid _]%andb_true_iff. apply String.eqb_eq in Hid.
    eapply NoDup_map_eq; eauto.
Qed.

(** C4. When a non-deleted service account matches the presented
    [client_id] and the presented [client_secret] is not its secret, the
    outcome is the 401 [INVALID_CLIENT_SECRET] exception whatever [api_key]
    is presented and whatever the api_keys table holds, and the api_keys
    repository is not called. *)
Theorem validateKey_wrong_secret (e : Env) (w : World) (sa : SaInfo.t)
    (client_secret : string) :
  sa_ids_unique w -> In sa (sa_info w) -> SaInfo.deleted_at sa = None ->
  SaInfo.client_secret sa <> client_secret ->
  forall (api_key : string) (stored : list ApiKey.t),
    validateKey e
      {| ValidateApiKeyDto.client_id := SaInfo.id sa;
         ValidateApiKeyDto.client_secret := client_secret;
         ValidateApiKeyDto.api_key := api_key |}
      (with_api_keys w stored)
    = (Throw (HttpException
                {| code := "INVALID_CLIENT_SECRET";
                   message := "Invalid client credentials";
                   timestamp := now e;
                   data := None |}
                HttpStatus.UNAUTHORIZED),
       after_events (with_api_keys w stored) [SaFindOne]).
Proof.
  intros Hu Hin Hdel Hsecret api_key stored.
  unfold validateKey, try_catch, bind, SaInfoRepo.findOne, bind, log_event, get_world, ret.
  cbn [ValidateApiKeyDto.client_id ValidateApiKeyDto.client_secret sa_info with_api_keys].
  rewrite (find_account_by_id w sa Hu Hin Hdel).
  apply String.eqb_neq in Hsecret. rewrite Hsecret. reflexivity.
Qed.

Lemma validateKey_wrong_secret_witness :
  let sa := Sample.account "sa-0" 42 "s3cret" None in
  let k := Sample.key 1 "sa-0" "tok0" true None None in
  let w := Sample.world [sa] [k] in
  fst (validateKey Sample.env
         {| ValidateApiKeyDto.client_id := "sa-0";
            ValidateApiKeyDto.client_secret := "guess";
            ValidateApiKeyDto.api_key := "tok0" |}
         (with_api_keys w [k]))
  = fst (validateKey Sample.env
           {| ValidateApiKeyDto.client_id := "sa-0";
              ValidateApiKeyDto.client_secret := "guess";
              ValidateApiKeyDto.api_key := "no-such-key" |}
           (with_api_keys w [])).
Proof.
  intros sa k w.
  assert (Hu : sa_ids_unique w) by (repeat constructor; intros []).
  assert (Hin : In sa (sa_info w)) by (left; reflexivity).
  assert (Hs : SaInfo.client_secret sa <> "guess") by discriminate.
  pose proof (validateKey_wrong_secret Sample.env w sa "guess" Hu Hin eq_refl Hs) as H.
  exact (eq_trans (f_equal fst (H "tok0" [k])) (eq_sym (f_equal fst (H "no-such-key" [])))).
Defined.

(** With the right secret the key is looked at, and the boundary case of
    the expiry check surfaces as the 401 [KEY_EXPIRED] exception, the
    presented key masked. *)
Lemma validateKey_expiry_boundary (e : Env) (w : World) (sa : SaInfo.t) (k : ApiKey.t) :
  sa_ids_unique w -> In sa (sa_info w) -> SaInfo.deleted_at sa = None ->
  In k (api_keys w) -> only_holder w k -> ApiKey.is_active k = true ->
  Js.trim (ApiKey.api_key k) <> EmptyString ->
  ApiKey.client_id k = SaInfo.id sa ->
  ApiKey.expiry_date k = Some (now e) ->
  fst (validateKey e
         {| ValidateApiKeyDto.client_id := SaInfo.id sa;
            ValidateApiKeyDto.client_secret := SaInfo.client_secret sa;
            ValidateApiKeyDto.api_key := ApiKey.api_key k |} w)
  = Throw (HttpException
             {| code := "KEY_EXPIRED";
                message := "API key expired on " ++ toISOString e (now e);
                timestamp := now e;
                data := Some {| fd_api_key := "***masked***";
                                validation_failed_reason := "KEY_EXPIRED" |} |}
             401).
Proof.
  intros Hu Hin Hdel Hk Honly Hact Htrim Hcid Hexp.
  unfold validateKey, try_catch. unfold bind at 1.
  unfold SaInfoRepo.findOne. unfold_monad.
  cbn [ValidateApiKeyDto.client_id ValidateApiKeyDto.client_secret
         ValidateApiKeyDto.api_key sa_info].
  rewrite (find_account_by_id w sa Hu Hin Hdel), String.eqb_refl. cbn [negb].
  rewrite <- Hcid.
  change {| sa_info := sa_info w; api_keys := api_keys w; api_key_seq := api_key_seq w;
            uuids := uuids w; entropy := entropy w; config := config w;
            trace := (trace w ++ [SaFindOne])%list |}
    with (after_events w [SaFindOne]).
  rewrite (validateApiKey_stored e (after_events w [SaFindOne]) k) by assumption.
  rewrite Hexp, (validateExpiration_expired e (now e)) by lia.
  reflexivity.
Qed.

(** ** Key manager: removal *)

Lemma find_key_by_id (w : World) (k : ApiKey.t) (id : string) :
  key_ids_unique w -> In k (api_keys w) -> Js.parseInt id = Some (ApiKey.id k) ->
  find (where_id id) (api_keys w) = Some k.
Proof.
  intros Hu Hin Hid. apply find_the_only; auto.
  - unfold where_id. rewrite Hid. apply Z.eqb_refl.
  - intros y Hy. unfold where_id. rewrite Hid. intros Heq%Z.eqb_eq.
    eapply NoDup_map_eq; eauto.
Qed.

(** A lookup by an id that reads as a number is the lookup of the rows with
    that id. *)
Lemma findOneById_parsed (id : string) (i : Z) :
  Js.parseInt id = Some i ->
  ApiKeyRepo.findOneById (Js.parseInt id) = ApiKeyRepo.findOne (where_id id).
Proof. intro Hid. unfold where_id. rewrite Hid. reflexivity. Qed.

Lemma update_parsed (e : Env) (id : string) (i : Z) (u : ApiKeyRepo.UpdateData) :
  Js.parseInt id = Some i ->
  ApiKeyRepo.update e (Js.parseInt id) u
  = (log_event KeyUpdate ;;; ApiKeyRepo.update_where e (where_id id) u).
Proof. intro Hid. unfold where_id. rewrite Hid. reflexivity. Qed.

(** C8. Removing a key whose [deleted_at] is already set fails with the 400
    [KEY_ALREADY_DELETED] exception after the one lookup; both tables, and so
    the row and its [deleted_at], are as before. *)
Theorem removeKey_already_deleted (e : Env) (w : World) (k : ApiKey.t)
    (id deletedBy : string) (t : Z) :
  key_ids_unique w -> In k (api_keys w) ->
  Js.parseInt id = Some (ApiKey.id k) ->
  ApiKey.deleted_at k = Some t ->
  exists w',
    removeKey e id deletedBy w
    = (Throw (HttpException
                {| code := "KEY_ALREADY_DELETED";
                   message := "API key already deleted";
                   timestamp := now e;
                   data := None |}
                HttpStatus.BAD_REQUEST),
       w')
    /\ w' = after_events w [KeyFindOne]
    /\ api_keys w' = api_keys w
    /\ In k (api_keys w')
    /\ find (where_id id) (api_keys w') = Some k.
Proof.
  intros Hu Hin Hid Hdel. exists (after_events w [KeyFindOne]).
  split; [|repeat split; auto using find_key_by_id].
  unfold removeKey, try_catch.
  rewrite (parseInt_some_truthy _ _ Hid), (findOneById_parsed _ _ Hid). cbn [negb].
  unfold bind, ApiKeyRepo.findOne, bind, log_event, get_world, ret. cbn [api_keys].
  rewrite (find_key_by_id w k id Hu Hin Hid), Hdel. reflexivity.
Qed.

Lemma removeKey_already_deleted_witness :
  let k := Sample.key 7 "sa-0" "tok0" true None (Some 900) in
  let w := Sample.world [Sample.account "sa-0" 42 "s3cret" None] [k] in
  exists w',
    fst (removeKey Sample.env "7" "ops" w)
    = Throw (http_exception Sample.env "KEY_ALREADY_DELETED" "API key already deleted" 400)
    /\ snd (removeKey Sample.env "7" "ops" w) = w'
    /\ api_keys w' = [k].
Proof.
  intros k w.
  destruct (removeKey_already_deleted Sample.env w k "7" "ops" 900) as (w' & Hr & _ & Hk & _).
  - repeat constructor. intros [].
  - left; reflexivity.
  - reflexivity.
  - reflexivity.
  - exists w'. rewrite Hr. repeat split. exact Hk.
Defined.

(** ** Key manager: listing *)








(** ** Key generation *)

Import KeyGenerationService.

Lemma draw_collides_find (e : Env) (w : World) :
  draw_collides e w 0
  <-> find (fun k => String.eqb (ApiKey.api_key k) (randomBytes32_base64 e (entropy w)))
        (api_keys w) <> None.
Proof.
  unfold draw_collides. rewrite Nat.add_0_r. split.
  - intros (k & Hin & Hk) Hnone.
    apply (find_none _ _ Hnone) in Hin. rewrite Hk, String.eqb_refl in Hin. discriminate.
  - destruct (find _ _) as [k|] eqn:Hf; [intros _ | congruence].
    apply find_some in Hf as [Hin Hk]. apply String.eqb_eq in Hk. eauto.
Qed.

(** One turn of the loop: exactly one draw; on a collision nothing is
    stored, otherwise one row is appended that holds the drawn token. *)
Section Generation.

Context (e : Env) (userId name : string) (description : option string)
  (isActive : bool) (expiresAt : option Z).

Lemma attempt_once_spec (w : World) :
  exists r w',
    attempt_once e userId name description isActive expiresAt w = (Return r, w')
    /\ entropy w' = S (entropy w) /\ config w' = config w /\ sa_info w' = sa_info w
    /\ (r = None <-> draw_collides e w 0)
    /\ (r = None -> api_keys w' = api_keys w)
    /\ (forall res, r = Some res ->
          exists row,
            api_keys w' = (api_keys w ++ [row])%list
            /\ UniqueKeyResult.rawKey res = randomBytes32_base64 e (entropy w)
            /\ ApiKey.api_key row = UniqueKeyResult.rawKey res
            /\ ApiKey.client_id row = userId
            /\ ApiKey.is_active row = isActive
            /\ ApiKey.deleted_at row = None
            /\ ApiKey.expiry_date row
               = Some (match expiresAt with
                       | Some d => d
                       | None => now e + defaultExpiryDays (config w) * 24 * 60 * 60 * 1000
                       end)
            /\ KeyRecord.expiresAt (UniqueKeyResult.keyRecord res) = ApiKey.expiry_date row
            /\ KeyRecord.createdAt (UniqueKeyResult.keyRecord res) = now e
            /\ KeyRecord.status (UniqueKeyResult.keyRecord res)
               = if isActive then active else inactive).
Proof.
  pose proof (draw_collides_find e w) as Hc.
  unfold attempt_once, try_catch, bind, generateRawKey, Crypto.randomBytes32_toBase64,
    checkKeyExists, try_catch, bind, ApiKeyRepo.findOne, bind, log_event, get_world, ret.
  cbn [api_keys entropy].
  destruct (find _ (api_keys w)) as [k|] eqn:Hf; cbn [negb].
  - eexists. eexists. split; [reflexivity|]. cbn.
    repeat split; auto; try discriminate. intros _. apply Hc. discriminate.
  - unfold createKeyRecord, try_catch, bind, get_world, ApiKeyRepo.save, bind, log_event, ret.
    cbn. eexists. eexists. split; [reflexivity|]. cbn.
    repeat split; auto; try discriminate.
    + intros Hd%Hc. congruence.
    + intros res [= <-]. eexists. repeat split.
Qed.

(** The loop: at most [remaining] draws; it gives up exactly when every
    draw collides, and then nothing has been stored. *)
Lemma retry_loop_spec (remaining : nat) :
  forall w,
  exists r w',
    retry_loop e remaining userId name description isActive expiresAt w = (Return r, w')
    /\ (entropy w <= entropy w' <= entropy w + remaining)%nat
    /\ config w' = config w /\ sa_info w' = sa_info w
    /\ (r = None <-> forall i, (i < remaining)%nat -> draw_collides e w i)
    /\ (r = None -> api_keys w' = api_keys w /\ entropy w' = (entropy w + remaining)%nat)
    /\ (forall res, r = Some res ->
          exists row,
            api_keys w' = (api_keys w ++ [row])%list
            /\ ApiKey.api_key row = UniqueKeyResult.rawKey res
            /\ ApiKey.client_id row = userId
            /\ ApiKey.is_active row = isActive
            /\ ApiKey.deleted_at row = None
            /\ ApiKey.expiry_date row
               = Some (match expiresAt with
                       | Some d => d
                       | None => now e + defaultExpiryDays (config w) * 24 * 60 * 60 * 1000
                       end)
            /\ KeyRecord.expiresAt (UniqueKeyResult.keyRecord res) = ApiKey.expiry_date row
            /\ KeyRecord.createdAt (UniqueKeyResult.keyRecord res) = now e
            /\ KeyRecord.status (UniqueKeyResult.keyRecord res)
               = if isActive then active else inactive).
Proof.
  induction remaining as [|n IH]; intro w; cbn [retry_loop].
  - exists None, w. unfold ret. repeat split; auto; try lia; try discriminate.
  - destruct (attempt_once_spec w)
      as (r1 & w1 & H1 & He1 & Hc1 & Hs1 & Hnone1 & Hkeep1 & Hsome1).
    unfold bind at 1. rewrite H1. destruct r1 as [res|].
    + exists (Some res), w1. unfold ret.
      destruct (Hsome1 res eq_refl) as (row & Hrow & _ & Hrest).
      repeat split; auto; try lia; try discriminate.
      * intros Hall. apply Hnone1. apply Hall. lia.
      * intros res' [= <-]. exists row. split; [exact Hrow | exact Hrest].
    + destruct (IH w1) as (r & w' & Hr & He & Hc & Hs & Hnone & Hkeep & Hsome).
      specialize (Hkeep1 eq_refl).
      assert (Hshift : forall i, draw_collides e w1 i <-> draw_collides e w (S i)).
      { intro i. unfold draw_collides. rewrite Hkeep1, He1.
        now replace (S (entropy w) + i)%nat with (entropy w + S i)%nat by lia. }
      exists r, w'. split; [exact Hr|].
      split; [lia|]. split; [congruence|]. split; [congruence|].
      split; [split|split].
      * intros Hr0 i Hi. destruct i as [|i]; [now apply Hnone1|].
        apply Hshift. apply Hnone; [assumption | lia].
      * intros Hall. apply Hnone. intros i Hi. apply Hshift. apply Hall. lia.
      * intros Hr0. destruct (Hkeep Hr0) as [Hk Hn]. split; [congruence | lia].
      * intros res Hres. destruct (Hsome res Hres) as (row & Hrow & Hrest).
        exists row. rewrite <- Hkeep1, <- Hc1. split; [exact Hrow | exact Hrest].
Qed.

Lemma generateUniqueKey_spec (w : World) :
  exists r w',
    generateUniqueKey e userId name description isActive expiresAt w = (r, w')
    /\ (entropy w <= entropy w' <= entropy w + maxRetries (config w))%nat
    /\ config w' = config w /\ sa_info w' = sa_info w
    /\ (r = Throw (Error (exhausted_message w))
        <-> forall i, (i < maxRetries (config w))%nat -> draw_collides e w i)
    /\ (forall ex, r = Throw ex ->
          ex = Error (exhausted_message w)
          /\ api_keys w' = api_keys w
          /\ entropy w' = (entropy w + maxRetries (config w))%nat)
    /\ (forall res, r = Return res ->
          generated e w w' userId isActive expiresAt (UniqueKeyResult.rawKey res)
            (KeyRecord.expiresAt (UniqueKeyResult.keyRecord res))
            (KeyRecord.createdAt (UniqueKeyResult.keyRecord res))
            (KeyRecord.status (UniqueKeyResult.keyRecord res))).
Proof.
  destruct (retry_loop_spec (maxRetries (config w)) w)
    as (r & w' & Hr & He & Hc & Hs & Hnone & Hkeep & Hsome).
  unfold generateUniqueKey, bind, get_world. rewrite Hr.
  destruct r as [res|]; unfold ret, throw.
  - exists (Return res), w'. split; [reflexivity|].
    split; [exact He|]. split; [exact Hc|]. split; [exact Hs|].
    split; [split; [discriminate | intros Hall%Hnone; discriminate]|].
    split; [discriminate|].
    intros res' [= <-]. destruct (Hsome res eq_refl) as (row & H1 & H2 & H3 & H4 & H5 & H6 & H7 & H8 & H9).
    exists row. repeat split; auto.
  - exists (Throw (Error (exhausted_message w))), w'. split; [reflexivity|].
    split; [exact He|]. split; [exact Hc|]. split; [exact Hs|].
    destruct (Hkeep eq_refl) as [Hk Hn].
    split; [split; [intros _; now apply Hnone | reflexivity]|].
    split; [intros ex [= <-]; auto | discriminate].
Qed.

End Generation.

Lemma validateGenerationInput_spec (e : Env) (userId : string) (expiresAt : option Z)
    (w : World) :
  (generation_input_ok e userId expiresAt = true
   /\ validateGenerationInput e userId expiresAt w = (Return tt, w))
  \/ (generation_input_ok e userId expiresAt = false
      /\ exists m, validateGenerationInput e userId expiresAt w = (Throw (Error m), w)).
Proof.
  unfold validateGenerationInput, generation_input_ok.
  destruct (Js.truthy_string userId); cbn [negb orb andb];
    [|right; split; [reflexivity | eexists; reflexivity]].
  destruct (String.length (Js.trim userId) =? 0)%nat; cbn [negb andb];
    [right; split; [reflexivity | eexists; reflexivity]|].
  destruct expiresAt as [d|]; [|left; split; reflexivity].
  destruct (d <=? now e); cbn [negb];
    [right; split; [reflexivity | eexists; reflexivity] | left; split; reflexivity].
Qed.

Lemma generateApiKey_spec (e : Env) (params : KeyGenerationParams.t) (w : World) :
  let userId := KeyGenerationParams.userId params in
  let isActive :=
    match KeyGenerationParams.isActive params with Some b => b | None => true end in
  let expiresAt := KeyGenerationParams.expiresAt params in
  exists r w',
    generateApiKey e params w = (r, w')
    /\ (entropy w <= entropy w' <= entropy w + maxRetries (config w))%nat
    /\ config w' = config w /\ sa_info w' = sa_info w
    /\ (generation_input_ok e userId expiresAt = true ->
        (forall i, (i < maxRetries (config w))%nat -> draw_collides e w i) ->
        r = Throw (Error (exhausted_message w))
        /\ entropy w' = (entropy w + maxRetries (config w))%nat)
    /\ (forall ex, r = Throw ex -> api_keys w' = api_keys w /\ exists m, ex = Error m)
    /\ (forall res, r = Return res ->
          generation_input_ok e userId expiresAt = true
          /\ generated e w w' userId isActive expiresAt
               (KeyGenerationResult.rawKey res) (KeyGenerationResult.expiresAt res)
               (KeyGenerationResult.createdAt res) (KeyGenerationResult.status res)).
Proof.
  intros userId isActive expiresAt.
  unfold generateApiKey, try_catch, bind. fold userId isActive expiresAt.
  destruct (validateGenerationInput_spec e userId expiresAt w) as [[Hok Hv]|[Hok [m Hv]]];
    rewrite Hv.
  - destruct (generateUniqueKey_spec e userId (KeyGenerationParams.name params)
                (KeyGenerationParams.description params) isActive expiresAt w)
      as (r & w' & Hr & He & Hc & Hs & Hex & Hthrow & Hret).
    rewrite Hr. destruct r as [res|ex]; unfold ret, throw.
    + exists (Return
                {| KeyGenerationResult.keyId := KeyRecord.id (UniqueKeyResult.keyRecord res);
                   KeyGenerationResult.rawKey := UniqueKeyResult.rawKey res;
                   KeyGenerationResult.userId := KeyRecord.userId (UniqueKeyResult.keyRecord res);
                   KeyGenerationResult.createdAt :=
                     KeyRecord.createdAt (UniqueKeyResult.keyRecord res);
                   KeyGenerationResult.expiresAt :=
                     KeyRecord.expiresAt (UniqueKeyResult.keyRecord res);
                   KeyGenerationResult.status :=
                     KeyRecord.status (UniqueKeyResult.keyRecord res) |}), w'.
      split; [reflexivity|]. split; [exact He|]. split; [exact Hc|]. split; [exact Hs|].
      split; [intros _ Hall; apply Hex in Hall; discriminate|].
      split; [discriminate|].
      intros res' [= <-]. split; [exact Hok|]. exact (Hret res eq_refl).
    + exists (Throw ex), w'.
      split; [reflexivity|]. split; [exact He|]. split; [exact Hc|]. split; [exact Hs|].
      destruct (Hthrow ex eq_refl) as (-> & Hk & Hn).
      split; [auto|]. split; [intros ex' [= <-]; eauto | discriminate].
  - exists (Throw (Error m)), w. unfold throw.
    split; [reflexivity|]. split; [lia|]. split; [reflexivity|]. split; [reflexivity|].
    split; [congruence|]. split; [intros ex [= <-]; eauto | discriminate].
Qed.

(** ** Key manager: creation *)

Lemma create_expiry_spec (e : Env) (expires_at : Js.nullable string) (w : World) :
  exists r,
    create_expiry e expires_at w = (r, w)
    /\ (Js.truthy_nullable_string expires_at = false -> r = Return None)
    /\ (forall ex, r = Throw ex ->
          exists c m, (c = "INVALID_EXPIRY_DATE" \/ c = "EXPIRY_DATE_PAST")
                      /\ ex = http_exception e c m HttpStatus.BAD_REQUEST)
    /\ (forall d, r = Return (Some d) -> now e < d).
Proof.
  unfold create_expiry.
  destruct (Js.truthy_nullable_string expires_at) eqn:Ht.
  - destruct expires_at as [| |s]; try discriminate.
    destruct (Date_parse e s) as [d|].
    + destruct (Z.leb_spec d (now e)).
      * eexists. split; [reflexivity|]. split; [discriminate|].
        split; [intros ex [= <-]; eauto 6 | discriminate].
      * eexists. split; [reflexivity|]. split; [discriminate|].
        split; [discriminate | intros d' [= <-]; assumption].
    + eexists. split; [reflexivity|]. split; [discriminate|].
      split; [intros ex [= <-]; eauto 6 | discriminate].
  - eexists. split; [reflexivity|]. split; [reflexivity|]. split; discriminate.
Qed.

(** [createApiKey] in two stages: the account is resolved, or created when
    the lookup finds none, and the generator is then called once. *)
Lemma createApiKey_stages (e : Env) (dto : CreateApiKeyDto.t) (w : World)
    (expiryDate : option Z) :
  create_expiry e (CreateApiKeyDto.expires_at dto) w = (Return expiryDate, w) ->
  exists sa w1,
    config w1 = config w /\ api_keys w1 = api_keys w
    /\ SaInfo.user_id sa = CreateApiKeyDto.user_id dto
    /\ SaInfo.deleted_at sa = None
    /\ ((find (owner_account (CreateApiKeyDto.user_id dto)) (sa_info w) = Some sa
         /\ sa_info w1 = sa_info w /\ entropy w1 = entropy w)
        \/ (find (owner_account (CreateApiKeyDto.user_id dto)) (sa_info w) = None
            /\ sa_info w1 = (sa_info w ++ [sa])%list
            /\ entropy w1 = S (entropy w)
            /\ SaInfo.id sa = uuid e (uuids w)
            /\ SaInfo.client_secret sa = randomBytes32_base64 e (entropy w)))
    /\ createApiKey e dto w
       = match generateApiKey e (generation_params dto sa expiryDate) w1 with
         | (Return result, w') =>
             (Return
                {| Response.success := true;
                   Response.message := "API key created successfully";
                   Response.data :=
                     {| CreateData.key_id := KeyGenerationResult.keyId result;
                        CreateData.raw_key := KeyGenerationResult.rawKey result;
                        CreateData.user_id := CreateApiKeyDto.user_id dto;
                        CreateData.client_id := SaInfo.id sa;
                        CreateData.client_secret := SaInfo.client_secret sa;
                        CreateData.name := CreateApiKeyDto.name dto;
                        CreateData.description :=
                          if Js.truthy_option_string (CreateApiKeyDto.description dto)
                          then CreateApiKeyDto.description dto else None;
                        CreateData.is_active :=
                          match CreateApiKeyDto.is_active dto with
                          | Some b => b
                          | None => true
                          end;
                        CreateData.created_at := KeyGenerationResult.createdAt result;
                        CreateData.expires_at := KeyGenerationResult.expiresAt result;
                        CreateData.status := KeyGenerationResult.status result |};
                   Response.timestamp := now e |},
              w')
         | (Throw ex, w') =>
             (Throw (rethrow_or_internal e "KEY_CREATION_ERROR" "Failed to create API key" ex),
              w')
         end.
Proof.
  intro Hce.
  unfold createApiKey, try_catch. unfold bind at 1. rewrite Hce.
  unfold bind at 1. unfold SaInfoRepo.findOne at 1, bind, log_event, get_world, ret.
  cbn [sa_info]. fold (owner_account (CreateApiKeyDto.user_id dto)).
  destruct (find _ (sa_info w)) as [sa|] eqn:Hf.
  - pose proof (find_some _ _ Hf) as [_ Hp]. unfold owner_account in Hp.
    apply andb_true_iff in Hp as [Hu%Z.eqb_eq Hd].
    destruct (SaInfo.deleted_at sa) eqn:Hdel; [discriminate|].
    exists sa, (after_events w [SaFindOne]).
    split; [reflexivity|]. split; [reflexivity|]. split; [exact Hu|]. split; [exact Hdel|].
    split; [left; repeat split|].
    unfold generation_params. cbv zeta.
    destruct (generateApiKey e _ _) as [[result|ex] w']; reflexivity.
  - unfold Crypto.randomBytes32_toBase64, SaInfoRepo.save, bind, log_event. cbn.
    match goal with
    | |- context [generateApiKey e _ ?w1] =>
        match w1 with
        | context [(sa_info w ++ [?row])%list] => exists row, w1
        end
    end.
    split; [reflexivity|]. split; [reflexivity|]. split; [reflexivity|]. split; [reflexivity|].
    split; [right; repeat split|].
    unfold generation_params. cbv zeta.
    destruct (generateApiKey e _ _) as [[result|ex] w']; reflexivity.
Qed.

Lemma createApiKey_expiry_rejected (e : Env) (dto : CreateApiKeyDto.t) (w : World)
    (ex : exn) :
  create_expiry e (CreateApiKeyDto.expires_at dto) w = (Throw ex, w) ->
  (exists b s, ex = HttpException b s) ->
  createApiKey e dto w = (Throw ex, w).
Proof.
  intros Hce (b & s & ->). unfold createApiKey, try_catch. unfold bind at 1.
  rewrite Hce. reflexivity.
Qed.

(** The branch that answers [SERVICE_ACCOUNT_DELETED] is never taken: the
    lookup before it only returns accounts that are not deleted. *)
Lemma createApiKey_never_account_deleted (e : Env) (dto : CreateApiKeyDto.t)
    (w w' : World) (b : HttpBody) (status : Z) :
  createApiKey e dto w = (Throw (HttpException b status), w') ->
  code b <> "SERVICE_ACCOUNT_DELETED".
Proof.
  destruct (create_expiry_spec e (CreateApiKeyDto.expires_at dto) w)
    as (r & Hce & _ & Hthrow & _).
  destruct r as [x|ex].
  - destruct (createApiKey_stages e dto w x Hce) as (sa & w1 & _ & _ & _ & _ & _ & Heq).
    rewrite Heq.
    destruct (generateApiKey_spec e (generation_params dto sa x) w1)
      as (r & w2 & Hg & _ & _ & _ & _ & Hgthrow & _).
    cbv zeta in Hg. rewrite Hg. destruct r as [res|ex]; [discriminate|].
    destruct (Hgthrow ex eq_refl) as [_ [m ->]]. cbn [rethrow_or_internal].
    intros [= <- _ _]. discriminate.
  - destruct (Hthrow ex eq_refl) as (c & m & Hc & ->).
    rewrite (createApiKey_expiry_rejected e dto w _ Hce) by (unfold http_exception; eauto).
    intros [= <- _ _]. cbn [code]. destruct Hc as [-> | ->]; discriminate.
Qed.

(** When every account of the owner is soft-deleted and the expiry passes
    the check, a new account is saved for the owner. *)
Lemma createApiKey_recreates_account (e : Env) (dto : CreateApiKeyDto.t) (w : World)
    (expiryDate : option Z) :
  (forall sa, In sa (sa_info w) ->
              SaInfo.user_id sa = CreateApiKeyDto.user_id dto ->
              SaInfo.deleted_at sa <> None) ->
  create_expiry e (CreateApiKeyDto.expires_at dto) w = (Return expiryDate, w) ->
  exists sa,
    sa_info (snd (createApiKey e dto w)) = (sa_info w ++ [sa])%list
    /\ SaInfo.user_id sa = CreateApiKeyDto.user_id dto
    /\ SaInfo.deleted_at sa = None.
Proof.
  intros Hall Hce.
  destruct (createApiKey_stages e dto w expiryDate Hce)
    as (sa & w1 & _ & _ & Hu & Hd & Hcase & Heq).
  destruct Hcase as [(Hf & _) | (Hf & Hsa & _)].
  - apply find_some in Hf as [Hin _]. exfalso. exact (Hall sa Hin Hu Hd).
  - exists sa. rewrite Heq.
    destruct (generateApiKey_spec e (generation_params dto sa expiryDate) w1)
      as (r & w2 & Hg & _ & _ & Hs & _).
    cbv zeta in Hg. rewrite Hg.
    destruct r; cbn [snd]; rewrite Hs, Hsa; auto.
Qed.

(** The generator returns as soon as one draw within the budget is fresh. *)
Lemma generateApiKey_succeeds (e : Env) (params : KeyGenerationParams.t) (w : World) :
  generation_input_ok e (KeyGenerationParams.userId params)
    (KeyGenerationParams.expiresAt params) = true ->
  (exists i, (i < maxRetries (config w))%nat /\ ~ draw_collides e w i) ->
  exists res w', generateApiKey e params w = (Return res, w').
Proof.
  intros Hok (i & Hi & Hfresh).
  unfold generateApiKey, try_catch, bind.
  destruct (validateGenerationInput_spec e (KeyGenerationParams.userId params)
              (KeyGenerationParams.expiresAt params) w) as [[_ Hv]|[Hbad _]];
    [rewrite Hv | congruence].
  destruct (generateUniqueKey_spec e (KeyGenerationParams.userId params)
              (KeyGenerationParams.name params) (KeyGenerationParams.description params)
              (match KeyGenerationParams.isActive params with Some b => b | None => true end)
              (KeyGenerationParams.expiresAt params) w)
    as (r & w' & Hr & _ & _ & _ & Hex & Hthrow & _).
  rewrite Hr. destruct r as [res|ex]; [eexists; eexists; reflexivity|].
  exfalso. destruct (Hthrow ex eq_refl) as (-> & _). apply Hfresh.
  destruct Hex as [Hall _]. now apply Hall.
Qed.

(** So does [createApiKey] for an owner whose account exists. *)
Lemma createApiKey_succeeds (e : Env) (dto : CreateApiKeyDto.t) (w : World)
    (sa : SaInfo.t) (expiryDate : option Z) :
  create_expiry e (CreateApiKeyDto.expires_at dto) w = (Return expiryDate, w) ->
  find (owner_account (CreateApiKeyDto.user_id dto)) (sa_info w) = Some sa ->
  generation_input_ok e (SaInfo.id sa) expiryDate = true ->
  (exists i, (i < maxRetries (config w))%nat /\ ~ draw_collides e w i) ->
  exists resp w', createApiKey e dto w = (Return resp, w').
Proof.
  intros Hce Hf Hok (i & Hi & Hfresh).
  destruct (createApiKey_stages e dto w expiryDate Hce)
    as (sa' & w1 & Hc1 & Hk1 & _ & _ & Hcase & Heq).
  destruct Hcase as [(Hf' & _ & He1) | (Hf' & _)]; [|congruence].
  assert (sa' = sa) as -> by congruence.
  destruct (generateApiKey_succeeds e (generation_params dto sa expiryDate) w1)
    as (res & w' & Hg).
  - exact Hok.
  - exists i. rewrite Hc1. split; [exact Hi|].
    intros (k & Hin & Hk). apply Hfresh. exists k. rewrite <- Hk1, <- He1. auto.
  - rewrite Heq, Hg. eexists. eexists. reflexivity.
Qed.

(** C6. A creation request whose [expires_at] is omitted or null and that
    succeeds has stored one new row whose [expiry_date] is now plus 365
    days; the generator, called with no expiry, chose it, and the response
    reports it. *)
Theorem createApiKey_default_expiry (e : Env) (dto : CreateApiKeyDto.t) (w w' : World)
    (resp : Response.t CreateData.t) :
  CreateApiKeyDto.expires_at dto = Js.undefined
  \/ CreateApiKeyDto.expires_at dto = Js.null ->
  defaultExpiryDays (config w) = 365 ->
  createApiKey e dto w = (Return resp, w') ->
  exists row,
    api_keys w' = (api_keys w ++ [row])%list
    /\ ApiKey.api_key row = CreateData.raw_key (Response.data resp)
    /\ ApiKey.client_id row = CreateData.client_id (Response.data resp)
    /\ ApiKey.expiry_date row = Some (now e + one_year_ms)
    /\ CreateData.expires_at (Response.data resp) = Some (now e + one_year_ms).
Proof.
  intros Hexp Hdays Hrun.
  destruct (create_expiry_spec e (CreateApiKeyDto.expires_at dto) w)
    as (r & Hce & Hfalsy & _).
  rewrite Hfalsy in Hce by (destruct Hexp as [-> | ->]; reflexivity).
  destruct (createApiKey_stages e dto w None Hce)
    as (sa & w1 & Hc1 & Hk1 & _ & _ & _ & Heq).
  rewrite Heq in Hrun.
  destruct (generateApiKey_spec e (generation_params dto sa None) w1)
    as (r' & w2 & Hg & _ & _ & _ & _ & _ & Hret).
  cbv zeta in Hg. rewrite Hg in Hrun.
  destruct r' as [res|ex]; [|discriminate].
  injection Hrun as <- <-.
  destruct (Hret res eq_refl) as (_ & row & Hrow & Hkey & Hcid & _ & _ & Hdate & Hres & _).
  cbn [generation_params KeyGenerationParams.userId KeyGenerationParams.expiresAt] in *.
  exists row. cbn [Response.data CreateData.raw_key CreateData.client_id CreateData.expires_at].
  rewrite Hk1 in Hrow. rewrite Hc1, Hdays in Hdate.
  replace (now e + 365 * 24 * 60 * 60 * 1000) with (now e + one_year_ms) in Hdate
    by (unfold one_year_ms; lia).
  repeat split; auto; congruence.
Qed.

Lemma createApiKey_default_expiry_witness :
  let dto :=
    {| CreateApiKeyDto.user_id := 42;
       CreateApiKeyDto.name := "ci";
       CreateApiKeyDto.expires_at := Js.null;
       CreateApiKeyDto.description := None;
       CreateApiKeyDto.is_active := None |} in
  let w := Sample.world [] [] in
  exists row,
    api_keys (snd (createApiKey Sample.env dto w)) = [row]
    /\ ApiKey.expiry_date row = Some (1000 + 31536000000).
Proof.
  intros dto w.
  destruct (createApiKey Sample.env dto w) as [[resp|ex] w'] eqn:Hrun.
  - destruct (createApiKey_default_expiry Sample.env dto w w' resp) as (row & Hrow & _ & _ & Hd & _).
    + right; reflexivity.
    + reflexivity.
    + exact Hrun.
    + exists row. split; [exact Hrow | exact Hd].
  - vm_compute in Hrun. discriminate.
Defined.

Lemma exhausted_message_three (w : World) :
  maxRetries (config w) = 3%nat ->
  exhausted_message w = "Failed to generate unique key after 3 attempts".
Proof. intro H. unfold exhausted_message. now rewrite H. Qed.

(** The generator's caller passes the exhaustion on: one call, no second
    round of draws. *)
Lemma generateApiKey_exhausted (e : Env) (params : KeyGenerationParams.t) (w : World) :
  generation_input_ok e (KeyGenerationParams.userId params)
    (KeyGenerationParams.expiresAt params) = true ->
  (forall i, (i < maxRetries (config w))%nat -> draw_collides e w i) ->
  exists w',
    generateApiKey e params w = (Throw (Error (exhausted_message w)), w')
    /\ entropy w' = (entropy w + maxRetries (config w))%nat
    /\ api_keys w' = api_keys w.
Proof.
  intros Hok Hall.
  destruct (generateApiKey_spec e params w) as (r & w' & Hg & _ & _ & _ & Hex & Hthrow & _).
  cbv zeta in *. destruct (Hex Hok Hall) as [-> Hn].
  exists w'. split; [exact Hg|]. split; [exact Hn|].
  now destruct (Hthrow _ eq_refl).
Qed.

(** So does [createApiKey], as a 500 [KEY_CREATION_ERROR]. *)
Lemma createApiKey_exhausted (e : Env) (dto : CreateApiKeyDto.t) (w : World)
    (sa : SaInfo.t) (expiryDate : option Z) :
  create_expiry e (CreateApiKeyDto.expires_at dto) w = (Return expiryDate, w) ->
  find (owner_account (CreateApiKeyDto.user_id dto)) (sa_info w) = Some sa ->
  generation_input_ok e (SaInfo.id sa) expiryDate = true ->
  (forall i, (i < maxRetries (config w))%nat -> draw_collides e w i) ->
  exists w',
    createApiKey e dto w
    = (Throw (http_exception e "KEY_CREATION_ERROR" "Failed to create API key"
                HttpStatus.INTERNAL_SERVER_ERROR), w')
    /\ entropy w' = (entropy w + maxRetries (config w))%nat
    /\ api_keys w' = api_keys w.
Proof.
  intros Hce Hf Hok Hall.
  destruct (createApiKey_stages e dto w expiryDate Hce)
    as (sa' & w1 & Hc1 & Hk1 & _ & _ & Hcase & Heq).
  destruct Hcase as [(Hf' & _ & He1) | (Hf' & _)]; [|congruence].
  assert (sa' = sa) as -> by congruence.
  destruct (generateApiKey_exhausted e (generation_params dto sa expiryDate) w1)
    as (w' & Hg & Hn & Hk).
  - exact Hok.
  - rewrite Hc1. intros i Hi. destruct (Hall i Hi) as (k & Hin & Hk).
    exists k. rewrite Hk1, He1. auto.
  - exists w'. rewrite Heq, Hg. split; [reflexivity|].
    rewrite Hn, Hk, Hc1, He1, Hk1. auto.
Qed.

(** C5. With the configured budget of 3, [generateUniqueKey] draws at most
    three tokens; when the three tokens drawn all collide with stored keys it
    throws the generation failure after exactly three draws and stores no
    row, and its callers [generateApiKey] and [createApiKey] pass the failure
    on without drawing again. *)
Theorem generateUniqueKey_retry_budget (e : Env) (userId name : string)
    (description : option string) (isActive : bool) (expiresAt : option Z) (w : World) :
  maxRetries (config w) = 3%nat ->
  exists r w',
    generateUniqueKey e userId name description isActive expiresAt w = (r, w')
    /\ (entropy w <= entropy w' <= entropy w + 3)%nat
    /\ ((forall i, (i < 3)%nat -> draw_collides e w i) ->
        r = Throw (Error "Failed to generate unique key after 3 attempts")
        /\ entropy w' = (entropy w + 3)%nat
        /\ api_keys w' = api_keys w
        /\ (forall params,
              generation_input_ok e (KeyGenerationParams.userId params)
                (KeyGenerationParams.expiresAt params) = true ->
              exists w2,
                generateApiKey e params w
                = (Throw (Error "Failed to generate unique key after 3 attempts"), w2)
                /\ entropy w2 = (entropy w + 3)%nat
                /\ api_keys w2 = api_keys w)
        /\ (forall dto sa expiryDate,
              create_expiry e (CreateApiKeyDto.expires_at dto) w = (Return expiryDate, w) ->
              find (owner_account (CreateApiKeyDto.user_id dto)) (sa_info w) = Some sa ->
              generation_input_ok e (SaInfo.id sa) expiryDate = true ->
              exists w3,
                createApiKey e dto w
                = (Throw (http_exception e "KEY_CREATION_ERROR" "Failed to create API key"
                            HttpStatus.INTERNAL_SERVER_ERROR), w3)
                /\ entropy w3 = (entropy w + 3)%nat
                /\ api_keys w3 = api_keys w)).
Proof.
  intro Hmax.
  destruct (generateUniqueKey_spec e userId name description isActive expiresAt w)
    as (r & w' & Hr & He & _ & _ & Hex & Hthrow & _).
  rewrite Hmax in *. rewrite (exhausted_message_three w Hmax) in *.
  exists r, w'. split; [exact Hr|]. split; [exact He|].
  intro Hall. apply Hex in Hall as Hfail. subst r.
  destruct (Hthrow _ eq_refl) as (_ & Hk & Hn).
  split; [reflexivity|]. split; [exact Hn|]. split; [exact Hk|]. split.
  - intros params Hok.
    destruct (generateApiKey_exhausted e params w Hok) as (w2 & Hg & Hn2 & Hk2).
    + now rewrite Hmax.
    + rewrite Hmax in Hn2. rewrite (exhausted_message_three w Hmax) in Hg. eauto.
  - intros dto sa expiryDate Hce Hf Hok.
    destruct (createApiKey_exhausted e dto w sa expiryDate Hce Hf Hok) as (w3 & Hc & Hn3 & Hk3).
    + now rewrite Hmax.
    + rewrite Hmax in Hn3. eauto.
Qed.

Lemma generateUniqueKey_retry_budget_witness :
  let w := Sample.world [Sample.account "sa-0" 42 "s3cret" None]
             [Sample.key 1 "sa-0" "tok0" true None None;
              Sample.key 2 "sa-0" "tok1" true None None;
              Sample.key 3 "sa-0" "tok2" false None (Some 5)] in
  exists w',
    generateUniqueKey Sample.env "sa-0" "ci" None true None w
    = (Throw (Error "Failed to generate unique key after 3 attempts"), w')
    /\ entropy w' = 3%nat /\ api_keys w' = api_keys w.
Proof.
  intro w.
  destruct (generateUniqueKey_retry_budget Sample.env "sa-0" "ci" None true None w eq_refl)
    as (r & w' & Hr & _ & Hall).
  destruct Hall as (-> & Hn & Hk & _).
  - intros i Hi. unfold draw_collides.
    destruct i as [|[|[|i]]]; [| | |lia].
    + exists (Sample.key 1 "sa-0" "tok0" true None None). split; [cbn; auto | reflexivity].
    + exists (Sample.key 2 "sa-0" "tok1" true None None). split; [cbn; auto | reflexivity].
    + exists (Sample.key 3 "sa-0" "tok2" false None (Some 5)). split; [cbn; auto | reflexivity].
  - exists w'. split; [exact Hr|]. split; [exact Hn | exact Hk].
Defined.

(** ** Where the code departs from the specification *)

(** C1. The owner 42 has one service account and it is soft-deleted.  The
    request does not fail with [SERVICE_ACCOUNT_DELETED]: it succeeds, and a
    second, live account has been saved for the owner. *)
Theorem createApiKey_deleted_owner_recreated :
  let w := Sample.world [Sample.account "sa-0" 42 "old-secret" (Some 500)] [] in
  exists resp w',
    createApiKey Sample.env (Sample.create_request 42 "ci") w = (Return resp, w')
    /\ CreateData.client_id (Response.data resp) = "sa-1"
    /\ map SaInfo.user_id (sa_info w') = [42; 42]
    /\ map SaInfo.deleted_at (sa_info w') = [Some 500; None]
    /\ List.length (api_keys w') = 1%nat.
Proof.
  intro w.
  destruct (createApiKey Sample.env (Sample.create_request 42 "ci") w)
    as [[resp|ex] w'] eqn:Hrun; vm_compute in Hrun; [|discriminate].
  injection Hrun as <- <-. eexists. eexists. repeat split.
Qed.

(** The status expression of the list response agrees with the classifier
    except on an active, live key without expiry date, which it reports
    expired (from the epoch on). *)
Lemma list_status_classifier (e : Env) (k : ApiKey.t) :
  ApiKey.expiry_date k <> None \/ ApiKey.is_active k = false
  \/ ApiKey.deleted_at k <> None ->
  list_status e k = stored_status e k.
Proof.
  unfold list_status, stored_status, Spec.classify, Js.date_le.
  destruct (ApiKey.deleted_at k), (ApiKey.is_active k), (ApiKey.expiry_date k);
    cbn; intuition congruence.
Qed.

Lemma list_status_no_expiry (e : Env) (k : ApiKey.t) :
  ApiKey.deleted_at k = None -> ApiKey.is_active k = true ->
  ApiKey.expiry_date k = None -> 0 <= now e ->
  list_status e k = expired /\ stored_status e k = active.
Proof.
  intros Hd Ha He Hn. unfold list_status, stored_status, Spec.classify, Js.date_le.
  rewrite Hd, Ha, He. cbn. destruct (Z.leb_spec 0 (now e)); [auto | lia].
Qed.

(** The status of the create response is the classifier's, as long as the
    default expiry lies ahead. *)
Lemma createApiKey_status_classifier (e : Env) (dto : CreateApiKeyDto.t) (w w' : World)
    (resp : Response.t CreateData.t) :
  0 < defaultExpiryDays (config w) ->
  createApiKey e dto w = (Return resp, w') ->
  exists row,
    api_keys w' = (api_keys w ++ [row])%list
    /\ CreateData.status (Response.data resp) = stored_status e row.
Proof.
  intros Hdays Hrun.
  destruct (create_expiry_spec e (CreateApiKeyDto.expires_at dto) w)
    as (r & Hce & _ & Hthrow & Hfuture).
  destruct r as [x|ex].
  - destruct (createApiKey_stages e dto w x Hce)
      as (sa & w1 & Hc1 & Hk1 & _ & _ & _ & Heq).
    rewrite Heq in Hrun.
    destruct (generateApiKey_spec e (generation_params dto sa x) w1)
      as (r' & w2 & Hg & _ & _ & _ & _ & _ & Hret).
    cbv zeta in Hg. rewrite Hg in Hrun.
    destruct r' as [res|ex]; [|discriminate].
    injection Hrun as <- <-.
    destruct (Hret res eq_refl) as (_ & row & Hrow & _ & _ & Hact & Hdel & Hdate & _ & _ & Hst).
    cbn [generation_params KeyGenerationParams.userId KeyGenerationParams.expiresAt
           KeyGenerationParams.isActive] in *.
    exists row. rewrite <- Hk1. split; [exact Hrow|].
    cbn [Response.data CreateData.status]. rewrite Hst.
    unfold stored_status, Spec.classify. rewrite Hdel, Hact, Hdate.
    destruct (match CreateApiKeyDto.is_active dto with Some b => b | None => true end);
      [|reflexivity].
    cbn [negb]. rewrite Hc1.
    destruct x as [d|].
    + specialize (Hfuture d eq_refl). destruct (Z.leb_spec d (now e)); [lia | reflexivity].
    + destruct (Z.leb_spec (now e + defaultExpiryDays (config w) * 24 * 60 * 60 * 1000) (now e));
        [lia | reflexivity].
  - destruct (Hthrow ex eq_refl) as (c & m & _ & ->).
    rewrite (createApiKey_expiry_rejected e dto w _ Hce) in Hrun
      by (unfold http_exception; eauto).
    discriminate.
Qed.

(** Whatever the key, the status of an update response is read off
    [is_active] alone. *)
Lemma updateApiKey_status_two_valued (e : Env) (id : string) (dto : UpdateApiKeyDto.t)
    (w w' : World) (resp : Response.t UpdateData.t) :
  updateApiKey e id dto w = (Return resp, w') ->
  UpdateData.status (Response.data resp)
  = if UpdateData.is_active (Response.data resp) then active else inactive.
Proof.
  unfold updateApiKey, try_catch.
  destruct (negb (Js.truthy_string id)); [discriminate|].
  destruct (_ && _); [discriminate|].
  unfold bind at 1.
  destruct (ApiKeyRepo.findOneById (Js.parseInt id) w) as [[[k|]|ex] w1];
    try (destruct ex; discriminate); try discriminate.
  unfold bind at 1. destruct (update_expiry e (UpdateApiKeyDto.expires_at dto) w1)
    as [[x|ex] w2]; [|destruct ex; discriminate].
  unfold bind at 1. destruct (ApiKeyRepo.update e (Js.parseInt id) _ w2) as [[[]|ex] w3];
    [|destruct ex; discriminate].
  unfold bind at 1.
  destruct (ApiKeyRepo.findOneById (Js.parseInt id) w3) as [[[k'|]|ex] w4];
    try (destruct ex; discriminate); try discriminate.
  unfold ret. intros [= <- _]. reflexivity.
Qed.

(** C2. Key 1 is active, not deleted, and expired since 500; now is 1000.
    Renaming it succeeds and the update response reports the status
    [active], while the classifier applied to the stored row gives
    [expired], which is also what the list response shows for that row. *)
Theorem updateApiKey_status_not_classifier :
  let k := Sample.key 1 "sa-0" "tok0" true (Some 500) None in
  let w := Sample.world [Sample.account "sa-0" 42 "s3cret" None] [k] in
  exists resp w' k',
    updateApiKey Sample.env "1" (Sample.rename_request "renamed") w = (Return resp, w')
    /\ api_keys w' = [k']
    /\ ApiKey.name k' = "renamed"
    /\ UpdateData.status (Response.data resp) = active
    /\ stored_status Sample.env k' = expired
    /\ list_status Sample.env k' = expired.
Proof.
  intros k w.
  destruct (updateApiKey Sample.env "1" (Sample.rename_request "renamed") w)
    as [[resp|ex] w'] eqn:Hrun; vm_compute in Hrun; [|discriminate].
  injection Hrun as <- <-. eexists. eexists. eexists. repeat split.
Qed.

(** The validation response has the same two-valued status: a soft-deleted
    key that is active and not expired validates, with status [active]. *)
Lemma validateKey_status_of_deleted_key :
  let k := Sample.key 1 "sa-0" "tok0" true (Some 5000) (Some 900) in
  let w := Sample.world [Sample.account "sa-0" 42 "s3cret" None] [k] in
  exists resp w',
    validateKey Sample.env
      {| ValidateApiKeyDto.client_id := "sa-0";
         ValidateApiKeyDto.client_secret := "s3cret";
         ValidateApiKeyDto.api_key := "tok0" |} w
    = (Return resp, w')
    /\ ValidateData.status (Response.data resp) = Some active
    /\ stored_status Sample.env k = deleted.
Proof.
  intros k w.
  destruct (validateKey Sample.env _ w) as [[resp|ex] w'] eqn:Hrun;
    vm_compute in Hrun; [|discriminate].
  injection Hrun as <- <-. eexists. eexists. repeat split.
Qed.

(** Every item of a list response carries the stored token of its row. *)
Lemma list_item_api_key (e : Env) (k : ApiKey.t) (sa : option SaInfo.t) :
  ListItem.api_key (list_item e (k, sa)) = ApiKey.api_key k.
Proof. reflexivity. Qed.

(** C3. One key is stored, with token [tok0].  Listing the keys returns an
    item whose [api_key] field is that token (next to the [client_secret] of
    its account): the raw key is returned again after creation. *)
Theorem listKeys_returns_raw_key :
  let k := Sample.key 1 "sa-0" "tok0" true (Some 5000) None in
  let w := Sample.world [Sample.account "sa-0" 42 "s3cret" None] [k] in
  exists resp w',
    listKeys Sample.env Sample.query w = (Return resp, w')
    /\ map ListItem.api_key (ListData.keys (Response.data resp)) = [ApiKey.api_key k]
    /\ map ListItem.client_secret (ListData.keys (Response.data resp)) = [Some "s3cret"].
Proof.
  intros k w.
  destruct (listKeys Sample.env Sample.query w) as [[resp|ex] w'] eqn:Hrun;
    vm_compute in Hrun; [|discriminate].
  injection Hrun as <- <-. eexists. eexists. repeat split.
Qed.

(** * Further properties of the services *)

(** ** Validation *)

Lemma validateApiKey_blank_result (e : Env) (w : World) (keyToValidate : string)
    (clientId : option string) :
  Js.trim keyToValidate = EmptyString ->
  validateApiKey e keyToValidate clientId w
  = (Return (createFailureResult e "INVALID_FORMAT" "API key cannot be empty" (now e) None), w).
Proof. intro Ht. unfold validateApiKey, validateApiKey_over, try_catch. now rewrite Ht. Qed.

(** [validateApiKey] on a key that is not blank, as a function of the record
    its scan stops at. *)
Lemma validateApiKey_scan (e : Env) (w : World) (keyToValidate : string)
    (clientId : option string) :
  Js.trim keyToValidate <> EmptyString ->
  validateApiKey e keyToValidate clientId w
  = (Return
       match scanned w keyToValidate clientId with
       | None =>
           createFailureResult e "KEY_NOT_FOUND" "Invalid API key or client credentials"
             404 (Some (now e))
       | Some keyRecord =>
           if negb (ApiKey.is_active keyRecord) then
             createFailureResult e "KEY_INACTIVE" "API key is not active" 403 (Some (now e))
           else
             let v := validateExpiration e (ApiKey.expiry_date keyRecord) in
             if negb (ExpirationValidationResult.isValid v) then
               createFailureResult e (ExpirationValidationResult.reason v)
                 (ExpirationValidationResult.message v) 401 (Some (now e))
             else
               {| ValidationResult.isValid := true;
                  ValidationResult.reason := None;
                  ValidationResult.message := "API key validation successful";
                  ValidationResult.statusCode := 200;
                  ValidationResult.timestamp := now e;
                  ValidationResult.keyInfo :=
                    Some {| KeyInfo.id := Js.string_of_Z (ApiKey.id keyRecord);
                            KeyInfo.userId := ApiKey.client_id keyRecord;
                            KeyInfo.expiresAt := ApiKey.expiry_date keyRecord;
                            KeyInfo.status :=
                              if ApiKey.is_active keyRecord then active else inactive |} |}
       end,
     after_events w [KeyFind]).
Proof.
  intro Ht. unfold validateApiKey, validateApiKey_over, try_catch, scanned.
  destruct (Js.trim keyToValidate); [congruence|]. cbn [Js.truthy_string negb].
  unfold ApiKeyRepo.find. unfold_monad. cbn [api_keys].
  fold (active_scope clientId).
  destruct (find _ _) as [k|]; [|reflexivity].
  destruct (negb (ApiKey.is_active k)); [reflexivity|].
  cbv zeta. destruct (negb _); reflexivity.
Qed.

Lemma scanned_some (w : World) (keyToValidate : string) (clientId : option string)
    (k : ApiKey.t) :
  scanned w keyToValidate clientId = Some k ->
  In k (api_keys w) /\ ApiKey.api_key k = keyToValidate /\ ApiKey.is_active k = true
  /\ active_scope clientId k = true.
Proof.
  unfold scanned. intros [Hin Heq]%find_some.
  apply filter_In in Hin as [Hin Hscope]. apply String.eqb_eq in Heq.
  repeat split; auto.
  unfold active_scope in Hscope. apply andb_true_iff in Hscope as [Ha _].
  now destruct (ApiKey.is_active k).
Qed.

(** The repository of the model returns the rows its condition selects. *)
Lemma ApiKeyRepo_find_rows_of_query : finds_rows_of_query ApiKeyRepo.find.
Proof.
  intros where_ w rows w'. unfold ApiKeyRepo.find. unfold_monad. cbn [api_keys].
  intros [= <- _] k Hk. now apply filter_In in Hk.
Qed.

(** X1. Over any repository whose [find] returns rows of its query, and
    whether or not the store answers, [validateApiKey] returns a result and
    throws nothing.  The result is either valid, with status 200 and the key
    reported [active], or a failure whose reason is INVALID_FORMAT,
    KEY_NOT_FOUND, KEY_EXPIRED or VALIDATION_ERROR.  VALIDATION_ERROR, with
    status 500, is the answer exactly when the key is not blank and the store
    rejects the query.  The KEY_INACTIVE answer is never given: the query
    keeps active rows only, so an inactive key is not found. *)
Theorem validateApiKey_outcomes (find : (ApiKey.t -> bool) -> M (list ApiKey.t))
    (e : Env) (w : World) (keyToValidate : string) (clientId : option string) :
  finds_rows_of_query find ->
  exists r w',
    validateApiKey_over find e keyToValidate clientId w = (Return r, w')
    /\ ((ValidationResult.isValid r = true
         /\ ValidationResult.statusCode r = 200
         /\ exists info, ValidationResult.keyInfo r = Some info
                         /\ KeyInfo.status info = active)
        \/ (ValidationResult.isValid r = false
            /\ ValidationResult.keyInfo r = None
            /\ exists reason, ValidationResult.reason r = Some reason
                              /\ In reason validation_reasons))
    /\ (Js.trim keyToValidate <> EmptyString ->
        forall ex w1, find (active_scope clientId) w = (Throw ex, w1) ->
        r = createFailureResult e "VALIDATION_ERROR" "Internal validation error" 500
              (Some (now e))
        /\ w' = w1)
    /\ (ValidationResult.reason r = Some "VALIDATION_ERROR" ->
        Js.trim keyToValidate <> EmptyString
        /\ exists ex w1, find (active_scope clientId) w = (Throw ex, w1)).
Proof.
  intro Hrows. unfold validateApiKey_over, try_catch. cbv zeta.
  fold (active_scope clientId).
  destruct (Js.trim keyToValidate) as [|c t] eqn:Ht.
  - cbn [Js.truthy_string negb]. unfold ret. eexists. eexists. split; [reflexivity|].
    split; [|split; [congruence | discriminate]].
    right. cbn. repeat split. eexists. split; [reflexivity|]. auto.
  - cbn [Js.truthy_string negb]. unfold bind.
    destruct (find (active_scope clientId) w) as [[rows|ex] w1] eqn:Hf.
    + destruct (List.find _ rows) as [k|] eqn:Hscan.
      * apply find_some in Hscan as [Hin _].
        pose proof (Hrows _ _ _ _ Hf k Hin) as Hscope.
        assert (Hact : ApiKey.is_active k = true).
        { unfold active_scope in Hscope. apply andb_true_iff in Hscope as [Ha _].
          now destruct (ApiKey.is_active k). }
        rewrite Hact. cbn [negb]. unfold validateExpiration, ret.
        destruct (ApiKey.expiry_date k) as [d|]; [destruct (d <=? now e)|];
          cbn [ExpirationValidationResult.isValid negb];
          (eexists; eexists; split; [reflexivity|]);
          (split; [|split; [discriminate | discriminate]]).
        -- right. cbn. repeat split. eexists. split; [reflexivity|]. cbn; auto.
        -- left. cbn. repeat split. eexists. split; reflexivity.
        -- left. cbn. repeat split. eexists. split; reflexivity.
      * unfold ret. eexists. eexists. split; [reflexivity|].
        split; [|split; [discriminate | discriminate]].
        right. cbn. repeat split. eexists. split; [reflexivity|]. cbn; auto.
    + unfold ret. eexists. eexists. split; [reflexivity|].
      split; [|split].
      * right. cbn. repeat split. eexists. split; [reflexivity|]. cbn; auto.
      * intros _ ex' w1' [= <- <-]. split; reflexivity.
      * intros _. split; [discriminate|]. eauto.
Qed.

Lemma validateApiKey_outcomes_witness :
  let unreachable :=
    fun _ : ApiKey.t -> bool =>
      throw (A := list ApiKey.t) (Error "Connection terminated unexpectedly") in
  let w := Sample.world [] [Sample.key 1 "sa-0" "tok0" true (Some 5000) None] in
  (exists r,
     validateApiKey_over unreachable Sample.env "tok0" None w = (Return r, w)
     /\ ValidationResult.reason r = Some "VALIDATION_ERROR"
     /\ ValidationResult.statusCode r = 500)
  /\ (exists r w',
        validateApiKey Sample.env "tok0" None w = (Return r, w')
        /\ ValidationResult.isValid r = true).
Proof.
  intros unreachable w. split.
  - assert (Hrows : finds_rows_of_query unreachable) by (intros p w0 rows w1; discriminate).
    destruct (validateApiKey_outcomes unreachable Sample.env w "tok0" None Hrows)
      as (r & w' & Hrun & _ & Hrejected & _).
    destruct (Hrejected ltac:(discriminate) _ _ eq_refl) as [-> ->].
    eexists. split; [exact Hrun|]. split; reflexivity.
  - destruct (validateApiKey_outcomes ApiKeyRepo.find Sample.env w "tok0" None
                ApiKeyRepo_find_rows_of_query)
      as (r & w' & Hrun & [(Hvalid & _) | (Hinvalid & _)] & _).
    + exists r, w'. split; [exact Hrun | exact Hvalid].
    + exfalso. vm_compute in Hrun. injection Hrun as <- _. discriminate.
Defined.

(** [validateKey] up to the secret check. *)
Lemma validateKey_unfold (e : Env) (dto : ValidateApiKeyDto.t) (w : World) :
  validateKey e dto w
  = match find (client_account (ValidateApiKeyDto.client_id dto)) (sa_info w) with
    | None =>
        (Throw (http_exception e "INVALID_CLIENT_ID" "Invalid client credentials"
                  HttpStatus.UNAUTHORIZED),
         after_events w [SaFindOne])
    | Some saInfo =>
        if negb (String.eqb (SaInfo.client_secret saInfo)
                   (ValidateApiKeyDto.client_secret dto))
        then
          (Throw (http_exception e "INVALID_CLIENT_SECRET" "Invalid client credentials"
                    HttpStatus.UNAUTHORIZED),
           after_events w [SaFindOne])
        else
          match validateApiKey e (ValidateApiKeyDto.api_key dto)
                  (Some (ValidateApiKeyDto.client_id dto)) (after_events w [SaFindOne]) with
          | (Return r, w') =>
              if negb (ValidationResult.isValid r) then
                (Throw (validation_failure
                          (match ValidationResult.reason r with
                           | Some reason => reason
                           | None => EmptyString
                           end)
                          (ValidationResult.message r) (ValidationResult.timestamp r)
                          (ValidationResult.statusCode r)),
                 w')
              else
                (Return
                   {| Response.success := true;
                      Response.message := "API key is valid";
                      Response.data :=
                        {| ValidateData.key_id :=
                             option_map KeyInfo.id (ValidationResult.keyInfo r);
                           ValidateData.user_id := SaInfo.user_id saInfo;
                           ValidateData.client_id := SaInfo.id saInfo;
                           ValidateData.expires_at :=
                             match ValidationResult.keyInfo r with
                             | Some i => KeyInfo.expiresAt i
                             | None => None
                             end;
                           ValidateData.status :=
                             option_map KeyInfo.status (ValidationResult.keyInfo r) |};
                      Response.timestamp := ValidationResult.timestamp r |},
                 w')
          | (Throw ex, w') =>
              (Throw (rethrow_or_internal e "VALIDATION_SERVICE_ERROR"
                        "Validation service error" ex), w')
          end
    end.
Proof.
  unfold validateKey, try_catch. unfold bind at 1.
  unfold SaInfoRepo.findOne. unfold_monad. cbn [sa_info].
  fold (client_account (ValidateApiKeyDto.client_id dto)).
  destruct (find _ (sa_info w)) as [sa|]; [|reflexivity].
  destruct (negb (String.eqb _ _)); [reflexivity|].
  change {| sa_info := sa_info w; api_keys := api_keys w; api_key_seq := api_key_seq w;
            uuids := uuids w; entropy := entropy w; config := config w;
            trace := (trace w ++ [SaFindOne])%list |}
    with (after_events w [SaFindOne]).
  destruct (validateApiKey e _ _ _) as [[r|ex] w'].
  - unfold validation_failure. destruct (negb (ValidationResult.isValid r)); reflexivity.
  - reflexivity.
Qed.

(** The lookup finds no account when every account with the identifier is
    soft-deleted, and a live one otherwise. *)
Lemma client_account_none (w : World) (client_id : string) :
  (forall sa, In sa (sa_info w) -> SaInfo.id sa = client_id ->
              SaInfo.deleted_at sa <> None) ->
  find (client_account client_id) (sa_info w) = None.
Proof.
  intro H. apply find_none_iff. intros sa Hin. unfold client_account.
  destruct (String.eqb_spec (SaInfo.id sa) client_id) as [Hid|]; [|reflexivity].
  specialize (H sa Hin Hid). now destruct (SaInfo.deleted_at sa).
Qed.

Lemma client_account_live (w : World) (sa : SaInfo.t) :
  sa_ids_unique w -> In sa (sa_info w) -> SaInfo.deleted_at sa = None ->
  find (client_account (SaInfo.id sa)) (sa_info w) = Some sa.
Proof. exact (find_account_by_id w sa). Qed.

(** X2. When no live service account has the presented [client_id] (none
    at all, or only soft-deleted ones), [validateKey] throws the 401
    INVALID_CLIENT_ID exception whatever secret and key are presented, after
    the account lookup alone. *)
Theorem validateKey_unknown_client (e : Env) (w : World) (dto : ValidateApiKeyDto.t) :
  (forall sa, In sa (sa_info w) -> SaInfo.id sa = ValidateApiKeyDto.client_id dto ->
              SaInfo.deleted_at sa <> None) ->
  validateKey e dto w
  = (Throw (http_exception e "INVALID_CLIENT_ID" "Invalid client credentials" 401),
     after_events w [SaFindOne]).
Proof.
  intro H. rewrite validateKey_unfold, (client_account_none w _ H). reflexivity.
Qed.

Lemma validateKey_unknown_client_witness :
  let w := Sample.world [Sample.account "sa-0" 42 "s3cret" (Some 900)]
             [Sample.key 1 "sa-0" "tok0" true None None] in
  fst (validateKey Sample.env
         {| ValidateApiKeyDto.client_id := "sa-0";
            ValidateApiKeyDto.client_secret := "s3cret";
            ValidateApiKeyDto.api_key := "tok0" |} w)
  = Throw (http_exception Sample.env "INVALID_CLIENT_ID" "Invalid client credentials" 401).
Proof.
  intro w.
  refine (f_equal fst (validateKey_unknown_client Sample.env w _ _)).
  intros sa [<-|[]] _. discriminate.
Defined.

(** X3. [validateKey] only reads: whatever the request and its outcome,
    both tables, the id sequence, the entropy counter and the configuration
    are as before, and the trace grew by the account lookup and at most one
    query of the keys. *)
Theorem validateKey_read_only (e : Env) (w : World) (dto : ValidateApiKeyDto.t) :
  let w' := snd (validateKey e dto w) in
  w' = after_events w [SaFindOne] \/ w' = after_events w [SaFindOne; KeyFind].
Proof.
  cbv zeta. rewrite validateKey_unfold.
  destruct (find _ (sa_info w)) as [sa|]; [|left; reflexivity].
  destruct (negb (String.eqb _ _)); [left; reflexivity|].
  destruct (string_dec (Js.trim (ValidateApiKeyDto.api_key dto)) EmptyString) as [Ht|Ht].
  - rewrite (validateApiKey_blank_result _ _ _ _ Ht). left. reflexivity.
  - rewrite (validateApiKey_scan _ _ _ _ Ht). right.
    match goal with
    | |- snd (if ?c then _ else _) = _ => destruct c
    end; cbn [snd]; unfold after_events; cbn; now rewrite <- app_assoc.
Qed.

(** The request of a client that presents the secret of its account. *)
Lemma validateKey_authenticated (e : Env) (w : World) (sa : SaInfo.t) (api_key : string) :
  sa_ids_unique w -> In sa (sa_info w) -> SaInfo.deleted_at sa = None ->
  validateKey e
    {| ValidateApiKeyDto.client_id := SaInfo.id sa;
       ValidateApiKeyDto.client_secret := SaInfo.client_secret sa;
       ValidateApiKeyDto.api_key := api_key |} w
  = match validateApiKey e api_key (Some (SaInfo.id sa)) (after_events w [SaFindOne]) with
    | (Return r, w') =>
        if negb (ValidationResult.isValid r) then
          (Throw (validation_failure
                    (match ValidationResult.reason r with
                     | Some reason => reason
                     | None => EmptyString
                     end)
                    (ValidationResult.message r) (ValidationResult.timestamp r)
                    (ValidationResult.statusCode r)),
           w')
        else
          (Return
             {| Response.success := true;
                Response.message := "API key is valid";
                Response.data :=
                  {| ValidateData.key_id := option_map KeyInfo.id (ValidationResult.keyInfo r);
                     ValidateData.user_id := SaInfo.user_id sa;
                     ValidateData.client_id := SaInfo.id sa;
                     ValidateData.expires_at :=
                       match ValidationResult.keyInfo r with
                       | Some i => KeyInfo.expiresAt i
                       | None => None
                       end;
                     ValidateData.status :=
                       option_map KeyInfo.status (ValidationResult.keyInfo r) |};
                Response.timestamp := ValidationResult.timestamp r |},
           w')
    | (Throw ex, w') =>
        (Throw (rethrow_or_internal e "VALIDATION_SERVICE_ERROR"
                  "Validation service error" ex), w')
    end.
Proof.
  intros Hu Hin Hdel. rewrite validateKey_unfold.
  cbn [ValidateApiKeyDto.client_id ValidateApiKeyDto.client_secret ValidateApiKeyDto.api_key].
  rewrite (client_account_live w sa Hu Hin Hdel), String.eqb_refl. reflexivity.
Qed.

(** X4. With the right credentials, a presented key that no active key of
    this client holds is answered by the 404 KEY_NOT_FOUND exception, the key
    masked: a key of another client and an inactive key of this client are
    treated like a key that does not exist. *)
Theorem validateKey_key_not_found (e : Env) (w : World) (sa : SaInfo.t) (api_key : string) :
  sa_ids_unique w -> In sa (sa_info w) -> SaInfo.deleted_at sa = None ->
  SaInfo.id sa <> EmptyString ->
  Js.trim api_key <> EmptyString ->
  (forall k, In k (api_keys w) -> ApiKey.api_key k = api_key ->
             ApiKey.client_id k <> SaInfo.id sa \/ ApiKey.is_active k = false) ->
  validateKey e
    {| ValidateApiKeyDto.client_id := SaInfo.id sa;
       ValidateApiKeyDto.client_secret := SaInfo.client_secret sa;
       ValidateApiKeyDto.api_key := api_key |} w
  = (Throw (validation_failure "KEY_NOT_FOUND" "Invalid API key or client credentials"
              (now e) 404),
     after_events (after_events w [SaFindOne]) [KeyFind]).
Proof.
  intros Hu Hin Hdel Hid Ht Hnone.
  rewrite (validateKey_authenticated e w sa api_key Hu Hin Hdel).
  rewrite (validateApiKey_scan _ _ _ _ Ht).
  assert (Hs : scanned (after_events w [SaFindOne]) api_key (Some (SaInfo.id sa)) = None).
  { unfold scanned. apply find_none_iff. intros k [Hk Hscope]%filter_In.
    destruct (String.eqb_spec api_key (ApiKey.api_key k)) as [Heq|]; [|reflexivity].
    exfalso. unfold active_scope in Hscope. cbn [Js.truthy_option_string] in Hscope.
    destruct (SaInfo.id sa) eqn:Hs; [congruence|]. cbn [Js.truthy_string] in Hscope.
    apply andb_true_iff in Hscope as [Hact Hcid]. apply String.eqb_eq in Hcid.
    destruct (Hnone k Hk (eq_sym Heq)) as [Hc|Hi]; [congruence|].
    rewrite Hi in Hact. discriminate. }
  rewrite Hs. reflexivity.
Qed.

Lemma validateKey_key_not_found_witness :
  let sa := Sample.account "sa-0" 42 "s3cret" None in
  let w := Sample.world [sa; Sample.account "sa-1" 43 "other" None]
             [Sample.key 1 "sa-1" "tok0" true None None;
              Sample.key 2 "sa-0" "tok1" false None None] in
  fst (validateKey Sample.env
         {| ValidateApiKeyDto.client_id := "sa-0";
            ValidateApiKeyDto.client_secret := "s3cret";
            ValidateApiKeyDto.api_key := "tok0" |} w)
  = Throw (validation_failure "KEY_NOT_FOUND" "Invalid API key or client credentials"
             1000 404)
  /\ fst (validateKey Sample.env
            {| ValidateApiKeyDto.client_id := "sa-0";
               ValidateApiKeyDto.client_secret := "s3cret";
               ValidateApiKeyDto.api_key := "tok1" |} w)
     = Throw (validation_failure "KEY_NOT_FOUND" "Invalid API key or client credentials"
                1000 404).
Proof.
  intros sa w.
  assert (Hu : sa_ids_unique w).
  { unfold sa_ids_unique. cbn. repeat constructor; cbn; intuition discriminate. }
  assert (Hin : In sa (sa_info w)) by (left; reflexivity).
  assert (Hid : SaInfo.id sa <> EmptyString) by discriminate.
  assert (H0 : forall k, In k (api_keys w) -> ApiKey.api_key k = "tok0" ->
                         ApiKey.client_id k <> SaInfo.id sa \/ ApiKey.is_active k = false).
  { intros k [<-|[<-|[]]] Hk; [left; discriminate | discriminate]. }
  assert (H1 : forall k, In k (api_keys w) -> ApiKey.api_key k = "tok1" ->
                         ApiKey.client_id k <> SaInfo.id sa \/ ApiKey.is_active k = false).
  { intros k [<-|[<-|[]]] Hk; [discriminate | right; reflexivity]. }
  assert (Ht0 : Js.trim "tok0" <> EmptyString) by discriminate.
  assert (Ht1 : Js.trim "tok1" <> EmptyString) by discriminate.
  split.
  - exact (f_equal fst
             (validateKey_key_not_found Sample.env w sa "tok0" Hu Hin eq_refl Hid Ht0 H0)).
  - exact (f_equal fst
             (validateKey_key_not_found Sample.env w sa "tok1" Hu Hin eq_refl Hid Ht1 H1)).
Defined.

(** X5. With the right credentials, the active key of the client that holds
    the presented token and has no expiry date, or one after now, is
    accepted: the response carries its id as a string, the owner of the
    account, the expiry date and the status [active].  The key's
    [deleted_at] is not looked at, so a soft-deleted key is accepted too. *)
Theorem validateKey_accepts (e : Env) (w : World) (sa : SaInfo.t) (k : ApiKey.t) :
  sa_ids_unique w -> In sa (sa_info w) -> SaInfo.deleted_at sa = None ->
  In k (api_keys w) -> only_holder w k ->
  ApiKey.is_active k = true ->
  ApiKey.client_id k = SaInfo.id sa ->
  Js.trim (ApiKey.api_key k) <> EmptyString ->
  (forall t, ApiKey.expiry_date k = Some t -> now e < t) ->
  validateKey e
    {| ValidateApiKeyDto.client_id := SaInfo.id sa;
       ValidateApiKeyDto.client_secret := SaInfo.client_secret sa;
       ValidateApiKeyDto.api_key := ApiKey.api_key k |} w
  = (Return
       {| Response.success := true;
          Response.message := "API key is valid";
          Response.data :=
            {| ValidateData.key_id := Some (Js.string_of_Z (ApiKey.id k));
               ValidateData.user_id := SaInfo.user_id sa;
               ValidateData.client_id := SaInfo.id sa;
               ValidateData.expires_at := ApiKey.expiry_date k;
               ValidateData.status := Some active |};
          Response.timestamp := now e |},
     after_events (after_events w [SaFindOne]) [KeyFind]).
Proof.
  intros Hu Hin Hdel Hk Honly Hact Hcid Ht Hexp.
  rewrite (validateKey_authenticated e w sa _ Hu Hin Hdel). rewrite <- Hcid.
  rewrite (validateApiKey_stored e (after_events w [SaFindOne]) k) by assumption.
  assert (Hv : ExpirationValidationResult.isValid (validateExpiration e (ApiKey.expiry_date k))
               = true).
  { destruct (ApiKey.expiry_date k) as [t|] eqn:He; [|reflexivity].
    apply validateExpiration_valid_iff. auto. }
  cbv zeta. rewrite Hv. reflexivity.
Qed.

Lemma validateKey_accepts_witness :
  let sa := Sample.account "sa-0" 42 "s3cret" None in
  let k := Sample.key 7 "sa-0" "tok0" true (Some 5000) (Some 900) in
  let w := Sample.world [sa] [k] in
  exists resp w',
    validateKey Sample.env
      {| ValidateApiKeyDto.client_id := "sa-0";
         ValidateApiKeyDto.client_secret := "s3cret";
         ValidateApiKeyDto.api_key := "tok0" |} w
    = (Return resp, w')
    /\ ValidateData.key_id (Response.data resp) = Some "7"
    /\ ValidateData.status (Response.data resp) = Some active.
Proof.
  intros sa k w.
  assert (Hu : sa_ids_unique w) by (repeat constructor; intros []).
  assert (Hin : In sa (sa_info w)) by (left; reflexivity).
  assert (Hk : In k (api_keys w)) by (left; reflexivity).
  assert (Honly : only_holder w k) by (intros k' [<-|[]] _; reflexivity).
  assert (Ht : Js.trim (ApiKey.api_key k) <> EmptyString) by discriminate.
  assert (Hexp : forall t, ApiKey.expiry_date k = Some t -> now Sample.env < t).
  { intros t [= <-]. reflexivity. }
  pose proof (validateKey_accepts Sample.env w sa k Hu Hin eq_refl Hk Honly eq_refl eq_refl
                Ht Hexp) as H.
  eexists. eexists. split; [exact H|]. split; reflexivity.
Defined.

(** X6. With the right credentials and a blank key, the exception of
    [validateKey] has the code INVALID_FORMAT and, as its HTTP status, the
    start time of the validation: [createFailureResult] received the start
    time in the position of the status code.  The keys are not queried. *)
Theorem validateKey_blank_key_status (e : Env) (w : World) (sa : SaInfo.t)
    (api_key : string) :
  sa_ids_unique w -> In sa (sa_info w) -> SaInfo.deleted_at sa = None ->
  blank api_key = true ->
  validateKey e
    {| ValidateApiKeyDto.client_id := SaInfo.id sa;
       ValidateApiKeyDto.client_secret := SaInfo.client_secret sa;
       ValidateApiKeyDto.api_key := api_key |} w
  = (Throw (validation_failure "INVALID_FORMAT" "API key cannot be empty" (now e) (now e)),
     after_events w [SaFindOne]).
Proof.
  intros Hu Hin Hdel Hb.
  rewrite (validateKey_authenticated e w sa _ Hu Hin Hdel).
  rewrite (validateApiKey_blank_result _ _ _ _ (trim_blank _ Hb)). reflexivity.
Qed.

Lemma validateKey_blank_key_status_witness :
  let sa := Sample.account "sa-0" 42 "s3cret" None in
  let w := Sample.world [sa] [] in
  fst (validateKey Sample.env
         {| ValidateApiKeyDto.client_id := "sa-0";
            ValidateApiKeyDto.client_secret := "s3cret";
            ValidateApiKeyDto.api_key := " " |} w)
  = Throw (validation_failure "INVALID_FORMAT" "API key cannot be empty" 1000 1000).
Proof.
  intros sa w.
  assert (Hu : sa_ids_unique w) by (repeat constructor; intros []).
  assert (Hin : In sa (sa_info w)) by (left; reflexivity).
  exact (f_equal fst
           (validateKey_blank_key_status Sample.env w sa " " Hu Hin eq_refl eq_refl)).
Defined.

(** ** Removal *)

Lemma where_id_update (e : Env) (id : string) (u : ApiKeyRepo.UpdateData) (k : ApiKey.t) :
  where_id id (ApiKeyRepo.apply_update e u k) = where_id id k.
Proof. reflexivity. Qed.

(** The second lookup of an update finds the updated row of the first. *)
Lemma find_after_update (e : Env) (w : World) (id : string) (u : ApiKeyRepo.UpdateData) :
  find (where_id id) (api_keys (after_update e w id u))
  = option_map (ApiKeyRepo.apply_update e u) (find (where_id id) (api_keys w)).
Proof.
  cbn [after_update api_keys]. induction (api_keys w) as [|k l IH]; [reflexivity|].
  cbn [map find]. destruct (where_id id k) eqn:Hk.
  - now rewrite where_id_update, Hk.
  - now rewrite Hk.
Qed.

Lemma update_hits_where_id (id : string) (k : ApiKey.t) :
  match Js.parseInt id with Some i => ApiKey.id k =? i | None => false end = where_id id k.
Proof. reflexivity. Qed.

(** [removeKey] with an id that reads as a number, by the row the lookup
    finds. *)
Lemma removeKey_unfold (e : Env) (w : World) (id deletedBy : string) (i : Z) :
  Js.parseInt id = Some i ->
  removeKey e id deletedBy w
  = match find (where_id id) (api_keys w) with
    | None =>
        (Throw (http_exception e "KEY_NOT_FOUND" "API key not found" HttpStatus.NOT_FOUND),
         after_events w [KeyFindOne])
    | Some existingKey =>
        match ApiKey.deleted_at existingKey with
        | Some _ =>
            (Throw (http_exception e "KEY_ALREADY_DELETED" "API key already deleted"
                      HttpStatus.BAD_REQUEST),
             after_events w [KeyFindOne])
        | None =>
            let deletedKey := ApiKeyRepo.apply_update e (delete_data e deletedBy) existingKey in
            (Return
               {| Response.success := true;
                  Response.message := "API key removed successfully";
                  Response.data :=
                    {| RemoveData.key_id := ApiKey.id deletedKey;
                       RemoveData.client_id := ApiKey.client_id deletedKey;
                       RemoveData.status := deleted;
                       RemoveData.deleted_at := ApiKey.deleted_at deletedKey;
                       RemoveData.deleted_by := ApiKey.deleted_by deletedKey |};
                  Response.timestamp := now e |},
             after_update e w id (delete_data e deletedBy))
        end
    end.
Proof.
  intro Hid. unfold removeKey, try_catch.
  rewrite (parseInt_some_truthy _ _ Hid), (findOneById_parsed _ _ Hid). cbn [negb].
  rewrite (update_parsed e id i _ Hid).
  unfold bind at 1. unfold ApiKeyRepo.findOne at 1. unfold_monad. cbn [api_keys].
  destruct (find (where_id id) (api_keys w)) as [k|] eqn:Hf; [|reflexivity].
  destruct (ApiKey.deleted_at k) eqn:Hd; [reflexivity|].
  unfold ApiKeyRepo.update_where, ApiKeyRepo.findOne. unfold_monad. cbn [api_keys].
  fold (delete_data e deletedBy).
  match goal with
  | |- context [find (where_id id) ?l] =>
      change l with (api_keys (after_update e w id (delete_data e deletedBy)))
  end.
  rewrite find_after_update, Hf. reflexivity.
Qed.

(** With a non-empty id that does not read as a number the store rejects the
    lookup, and the method answers with its own 500. *)
Lemma removeKey_not_a_number (e : Env) (w : World) (id deletedBy : string) :
  Js.truthy_string id = true -> Js.parseInt id = None ->
  removeKey e id deletedBy w
  = (Throw (http_exception e "KEY_REMOVAL_ERROR" "Failed to remove API key" 500),
     after_events w [KeyFindOne]).
Proof.
  intros Hid Hnan. unfold removeKey, try_catch. rewrite Hid, Hnan. reflexivity.
Qed.

Lemma where_id_of_key (id : string) (k r : ApiKey.t) :
  Js.parseInt id = Some (ApiKey.id k) -> where_id id r = (ApiKey.id r =? ApiKey.id k).
Proof. intro H. unfold where_id. now rewrite H. Qed.

(** Under unique ids, an update by id replaces the one row with that id. *)
Lemma after_update_rows (e : Env) (w : World) (id : string) (u : ApiKeyRepo.UpdateData)
    (k : ApiKey.t) :
  key_ids_unique w -> In k (api_keys w) -> Js.parseInt id = Some (ApiKey.id k) ->
  api_keys (after_update e w id u)
  = map (fun r => if ApiKey.id r =? ApiKey.id k then ApiKeyRepo.apply_update e u k else r)
      (api_keys w).
Proof.
  intros Hu Hin Hid. cbn [after_update api_keys]. apply map_ext_in. intros r Hr.
  rewrite (where_id_of_key id k r Hid).
  destruct (Z.eqb_spec (ApiKey.id r) (ApiKey.id k)) as [Heq|]; [|reflexivity].
  now rewrite (NoDup_map_eq ApiKey.id (api_keys w) r k Hu Hr Hin Heq).
Qed.

(** X7. Removing a live key succeeds: the response reports the status
    [deleted] with the time and the author of the removal, and in the table
    the row of that id, and no other, has changed: it carries [deleted_at],
    [deleted_by] and [updated_by], while its token, owner, name, description,
    active flag and expiry date are as before (a soft delete). *)
Theorem removeKey_soft_deletes (e : Env) (w : World) (k : ApiKey.t)
    (id deletedBy : string) :
  key_ids_unique w -> In k (api_keys w) ->
  Js.parseInt id = Some (ApiKey.id k) ->
  ApiKey.deleted_at k = None ->
  exists resp w' k',
    removeKey e id deletedBy w = (Return resp, w')
    /\ Response.data resp
       = {| RemoveData.key_id := ApiKey.id k;
            RemoveData.client_id := ApiKey.client_id k;
            RemoveData.status := deleted;
            RemoveData.deleted_at := Some (now e);
            RemoveData.deleted_by := Some deletedBy |}
    /\ sa_info w' = sa_info w
    /\ api_keys w'
       = map (fun r => if ApiKey.id r =? ApiKey.id k then k' else r) (api_keys w)
    /\ payload_columns k' = payload_columns k
    /\ ApiKey.deleted_at k' = Some (now e)
    /\ ApiKey.deleted_by k' = Some deletedBy
    /\ ApiKey.updated_by k' = Some deletedBy.
Proof.
  intros Hu Hin Hid Hdel.
  exists
    {| Response.success := true;
       Response.message := "API key removed successfully";
       Response.data :=
         {| RemoveData.key_id := ApiKey.id k;
            RemoveData.client_id := ApiKey.client_id k;
            RemoveData.status := deleted;
            RemoveData.deleted_at := Some (now e);
            RemoveData.deleted_by := Some deletedBy |};
       Response.timestamp := now e |},
    (after_update e w id (delete_data e deletedBy)),
    (ApiKeyRepo.apply_update e (delete_data e deletedBy) k).
  split.
  - rewrite (removeKey_unfold e w id deletedBy _ Hid).
    now rewrite (find_key_by_id w k id Hu Hin Hid), Hdel.
  - split; [reflexivity|]. split; [reflexivity|].
    split; [apply after_update_rows; assumption|].
    repeat split.
Qed.

Lemma removeKey_soft_deletes_witness :
  let k := Sample.key 7 "sa-0" "tok0" true (Some 5000) None in
  let other := Sample.key 8 "sa-0" "tok1" true None None in
  let w := Sample.world [Sample.account "sa-0" 42 "s3cret" None] [k; other] in
  exists resp w' k',
    removeKey Sample.env "7" "ops" w = (Return resp, w')
    /\ RemoveData.deleted_at (Response.data resp) = Some 1000
    /\ api_keys w' = [k'; other]
    /\ ApiKey.api_key k' = "tok0".
Proof.
  intros k other w.
  destruct (removeKey_soft_deletes Sample.env w k "7" "ops")
    as (resp & w' & k' & Hr & Hd & _ & Hrows & Hpay & _).
  - unfold key_ids_unique. cbn. repeat constructor; cbn; intuition discriminate.
  - left; reflexivity.
  - reflexivity.
  - reflexivity.
  - exists resp, w', k'. split; [exact Hr|]. rewrite Hd, Hrows.
    split; [reflexivity|]. split; [reflexivity|].
    now injection Hpay as _ _ -> _ _ _ _.
Defined.

(** X8. Removing the same key a second time, after a successful removal,
    fails with the 400 KEY_ALREADY_DELETED exception and changes no table:
    the first [deleted_at] stays. *)
Theorem removeKey_twice (e e2 : Env) (w : World) (k : ApiKey.t)
    (id deletedBy deletedBy2 : string) :
  key_ids_unique w -> In k (api_keys w) ->
  Js.parseInt id = Some (ApiKey.id k) ->
  ApiKey.deleted_at k = None ->
  let w1 := snd (removeKey e id deletedBy w) in
  removeKey e2 id deletedBy2 w1
  = (Throw (http_exception e2 "KEY_ALREADY_DELETED" "API key already deleted" 400),
     after_events w1 [KeyFindOne])
  /\ exists k', find (where_id id) (api_keys w1) = Some k'
                /\ ApiKey.deleted_at k' = Some (now e).
Proof.
  intros Hu Hin Hid Hdel. cbv zeta.
  rewrite (removeKey_unfold e w id deletedBy _ Hid).
  rewrite (find_key_by_id w k id Hu Hin Hid), Hdel. cbn [snd].
  rewrite (removeKey_unfold e2 _ id deletedBy2 _ Hid).
  rewrite find_after_update, (find_key_by_id w k id Hu Hin Hid). cbn [option_map].
  split; [reflexivity|]. eexists. split; reflexivity.
Qed.

Lemma removeKey_twice_witness :
  let k := Sample.key 7 "sa-0" "tok0" true (Some 5000) None in
  let w := Sample.world [Sample.account "sa-0" 42 "s3cret" None] [k] in
  fst (removeKey Sample.env "7" "again" (snd (removeKey Sample.env "7" "ops" w)))
  = Throw (http_exception Sample.env "KEY_ALREADY_DELETED" "API key already deleted" 400).
Proof.
  intros k w.
  assert (Hu : key_ids_unique w) by (repeat constructor; intros []).
  assert (Hin : In k (api_keys w)) by (left; reflexivity).
  exact (f_equal fst
           (proj1 (removeKey_twice Sample.env Sample.env w k "7" "ops" "again"
                     Hu Hin eq_refl eq_refl))).
Defined.

(** X9. [removeKey] on an id that names no key.  An empty id gives the 400
    MISSING_KEY_ID exception without a call to the repository.  An id that
    does not read as a number makes the store reject the lookup, and the
    exception is the 500 KEY_REMOVAL_ERROR.  An id that reads as a number no
    stored key has (a number in the range of a 32-bit integer column, which
    the store takes whatever the integer type of the column) gives the 404
    KEY_NOT_FOUND exception.  In the last two cases one lookup was made, and
    in none of the three has a table changed. *)
Theorem removeKey_no_such_key (e : Env) (w : World) (id deletedBy : string) :
  removeKey e EmptyString deletedBy w
  = (Throw (http_exception e "MISSING_KEY_ID" "Key ID is required" 400), w)
  /\ (id <> EmptyString -> Js.parseInt id = None ->
      removeKey e id deletedBy w
      = (Throw (http_exception e "KEY_REMOVAL_ERROR" "Failed to remove API key" 500),
         after_events w [KeyFindOne]))
  /\ (forall i, Js.parseInt id = Some i -> - 2 ^ 31 <= i < 2 ^ 31 ->
      (forall k, In k (api_keys w) -> ApiKey.id k <> i) ->
      removeKey e id deletedBy w
      = (Throw (http_exception e "KEY_NOT_FOUND" "API key not found" 404),
         after_events w [KeyFindOne])).
Proof.
  split; [reflexivity|]. split.
  - intros Hid Hnan. apply removeKey_not_a_number; [|exact Hnan].
    destruct id; [congruence | reflexivity].
  - intros i Hid _ Hnone. rewrite (removeKey_unfold e w id deletedBy i Hid).
    assert (Hf : find (where_id id) (api_keys w) = None).
    { apply find_none_iff. intros k Hk. unfold where_id. rewrite Hid.
      apply Z.eqb_neq. exact (Hnone k Hk). }
    now rewrite Hf.
Qed.

Lemma removeKey_no_such_key_witness :
  let w := Sample.world [] [Sample.key 7 "sa-0" "tok0" true None None] in
  fst (removeKey Sample.env "8" "ops" w)
  = Throw (http_exception Sample.env "KEY_NOT_FOUND" "API key not found" 404)
  /\ fst (removeKey Sample.env "seven" "ops" w)
     = Throw (http_exception Sample.env "KEY_REMOVAL_ERROR" "Failed to remove API key" 500)
  /\ api_keys (snd (removeKey Sample.env "seven" "ops" w)) = api_keys w.
Proof.
  intro w.
  pose proof (proj2 (removeKey_no_such_key Sample.env w "8" "ops")) as [_ Hnone].
  pose proof (proj2 (removeKey_no_such_key Sample.env w "seven" "ops")) as [Hnan _].
  assert (H8 : forall k, In k (api_keys w) -> ApiKey.id k <> 8)
    by (intros k [<-|[]]; discriminate).
  assert (Hrange : - 2 ^ 31 <= 8 < 2 ^ 31) by (split; [discriminate | reflexivity]).
  rewrite (Hnone 8 eq_refl Hrange H8).
  rewrite (Hnan ltac:(discriminate) eq_refl).
  repeat split.
Defined.

(** ** Update *)

(** The expiry of an update request: absent, a date after now, or one of the
    two 400 exceptions; the world is not touched. *)
Lemma update_expiry_cases (e : Env) (expires_at : Js.nullable string) :
  (expires_at = Js.undefined /\ forall w, update_expiry e expires_at w = (Return None, w))
  \/ (exists d, now e < d /\ expires_at <> Js.undefined
                /\ forall w, update_expiry e expires_at w = (Return (Some d), w))
  \/ (exists c m, (c = "INVALID_EXPIRY_DATE" \/ c = "EXPIRY_DATE_PAST")
                  /\ forall w, update_expiry e expires_at w
                               = (Throw (http_exception e c m HttpStatus.BAD_REQUEST), w)).
Proof.
  unfold update_expiry. destruct expires_at as [| |s].
  - left. auto.
  - right. destruct (Z.leb_spec 0 (now e)).
    + right. exists "EXPIRY_DATE_PAST", "expires_at must be in the future".
      split; [auto | reflexivity].
    + left. exists 0. split; [lia|]. split; [discriminate | reflexivity].
  - right. destruct (Date_parse e s) as [d|].
    + destruct (Z.leb_spec d (now e)).
      * right. exists "EXPIRY_DATE_PAST", "expires_at must be in the future".
        split; [auto | reflexivity].
      * left. exists d. split; [lia|]. split; [discriminate | reflexivity].
    + right. exists "INVALID_EXPIRY_DATE", "expires_at must be a valid ISO date string".
      split; [auto | reflexivity].
Qed.

(** [updateApiKey] past its two input checks with an id that reads as a
    number, by the row the lookup finds and the expiry of the request. *)
Lemma updateApiKey_unfold (e : Env) (w : World) (id : string) (dto : UpdateApiKeyDto.t)
    (i : Z) :
  Js.parseInt id = Some i -> no_field dto = false ->
  updateApiKey e id dto w
  = match find (where_id id) (api_keys w) with
    | None =>
        (Throw (http_exception e "KEY_NOT_FOUND" "API key not found" HttpStatus.NOT_FOUND),
         after_events w [KeyFindOne])
    | Some existingKey =>
        match update_expiry e (UpdateApiKeyDto.expires_at dto) (after_events w [KeyFindOne]) with
        | (Throw ex, w1) =>
            (Throw (rethrow_or_internal e "KEY_UPDATE_ERROR" "Failed to update API key" ex), w1)
        | (Return expiryDate, _) =>
            let updatedKey :=
              ApiKeyRepo.apply_update e (update_data dto expiryDate) existingKey in
            (Return
               {| Response.success := true;
                  Response.message := "API key updated successfully";
                  Response.data :=
                    {| UpdateData.key_id := ApiKey.id updatedKey;
                       UpdateData.client_id := ApiKey.client_id updatedKey;
                       UpdateData.name := ApiKey.name updatedKey;
                       UpdateData.description := ApiKey.description updatedKey;
                       UpdateData.is_active := ApiKey.is_active updatedKey;
                       UpdateData.expires_at := ApiKey.expiry_date updatedKey;
                       UpdateData.status :=
                         if ApiKey.is_active updatedKey then active else inactive;
                       UpdateData.updated_at := ApiKey.updated_at updatedKey |};
                  Response.timestamp := now e |},
             after_update e w id (update_data dto expiryDate))
        end
    end.
Proof.
  intros Hid Hfields. unfold updateApiKey, try_catch.
  rewrite (parseInt_some_truthy _ _ Hid), (findOneById_parsed _ _ Hid). cbn [negb].
  unfold no_field in Hfields. rewrite Hfields.
  assert (Hupdate : forall u, ApiKeyRepo.update e (Js.parseInt id) u
                              = (log_event KeyUpdate ;;;
                                 ApiKeyRepo.update_where e (where_id id) u))
    by (intro u; exact (update_parsed e id i u Hid)).
  unfold bind at 1. unfold ApiKeyRepo.findOne at 1. unfold_monad. cbn [api_keys].
  destruct (find (where_id id) (api_keys w)) as [k|] eqn:Hf; [|reflexivity].
  change {| sa_info := sa_info w; api_keys := api_keys w; api_key_seq := api_key_seq w;
            uuids := uuids w; entropy := entropy w; config := config w;
            trace := (trace w ++ [KeyFindOne])%list |}
    with (after_events w [KeyFindOne]).
  destruct (update_expiry_cases e (UpdateApiKeyDto.expires_at dto))
    as [[_ Hx] | [(d & _ & _ & Hx) | (c & m & _ & Hx)]]; rewrite Hx; [| |reflexivity].
  - rewrite Hupdate.
    unfold ApiKeyRepo.update_where, ApiKeyRepo.findOne. unfold_monad. cbn [api_keys].
    fold (update_data dto None).
    match goal with
    | |- context [find (where_id id) ?l] =>
        change l with (api_keys (after_update e w id (update_data dto None)))
    end.
    rewrite find_after_update, Hf. reflexivity.
  - rewrite Hupdate.
    unfold ApiKeyRepo.update_where, ApiKeyRepo.findOne. unfold_monad. cbn [api_keys].
    fold (update_data dto (Some d)).
    match goal with
    | |- context [find (where_id id) ?l] =>
        change l with (api_keys (after_update e w id (update_data dto (Some d))))
    end.
    rewrite find_after_update, Hf. reflexivity.
Qed.

Lemma updateApiKey_input_checks (e : Env) (w : World) (id : string) (dto : UpdateApiKeyDto.t) :
  (Js.truthy_string id = false ->
   updateApiKey e id dto w
   = (Throw (http_exception e "MISSING_KEY_ID" "Key ID is required" 400), w))
  /\ (Js.truthy_string id = true -> no_field dto = true ->
      updateApiKey e id dto w
      = (Throw (http_exception e "MISSING_UPDATE_FIELDS"
                  "At least one field (name, description, expires_at, or is_active) must be provided"
                  400), w)).
Proof.
  split.
  - intro Hid. unfold updateApiKey, try_catch. now rewrite Hid.
  - intros Hid Hf. unfold updateApiKey, try_catch. rewrite Hid. cbn [negb].
    unfold no_field in Hf. now rewrite Hf.
Qed.

(** With a non-empty id that does not read as a number the store rejects the
    lookup, and the method answers with its own 500. *)
Lemma updateApiKey_not_a_number (e : Env) (w : World) (id : string)
    (dto : UpdateApiKeyDto.t) :
  Js.truthy_string id = true -> no_field dto = false -> Js.parseInt id = None ->
  updateApiKey e id dto w
  = (Throw (http_exception e "KEY_UPDATE_ERROR" "Failed to update API key" 500),
     after_events w [KeyFindOne]).
Proof.
  intros Hid Hf Hnan. unfold updateApiKey, try_catch. rewrite Hid. cbn [negb].
  unfold no_field in Hf. rewrite Hf, Hnan. reflexivity.
Qed.

(** Every run of [updateApiKey]: one of the six exceptions, thrown before
    the [update], or a response after it. *)
Lemma updateApiKey_outcome (e : Env) (w : World) (id : string) (dto : UpdateApiKeyDto.t) :
  (exists c m status w1,
     updateApiKey e id dto w = (Throw (http_exception e c m status), w1)
     /\ In c update_codes
     /\ (w1 = w \/ w1 = after_events w [KeyFindOne])
     /\ (Js.truthy_string id = false \/ no_field dto = true -> w1 = w)
     /\ (Js.truthy_string id = true -> no_field dto = false -> Js.parseInt id = None ->
         c = "KEY_UPDATE_ERROR" /\ status = 500 /\ w1 = after_events w [KeyFindOne]))
  \/ (exists resp expiryDate,
        updateApiKey e id dto w
        = (Return resp, after_update e w id (update_data dto expiryDate))).
Proof.
  destruct (updateApiKey_input_checks e w id dto) as [Hmissing Hnofield].
  destruct (Js.truthy_string id) eqn:Hid.
  - destruct (no_field dto) eqn:Hf.
    + left. do 3 eexists. exists w. split; [exact (Hnofield eq_refl eq_refl)|].
      split; [cbn; auto|]. split; [auto|]. split; [auto|]. discriminate.
    + destruct (Js.parseInt id) as [i|] eqn:Hparse.
      * rewrite (updateApiKey_unfold e w id dto i Hparse Hf).
        destruct (find _ _) as [k|].
        -- destruct (update_expiry_cases e (UpdateApiKeyDto.expires_at dto))
             as [[_ Hx] | [(d & _ & _ & Hx) | (c & m & Hc & Hx)]]; rewrite Hx.
           ++ right. eexists. eexists. reflexivity.
           ++ right. eexists. eexists. reflexivity.
           ++ left. exists c, m, HttpStatus.BAD_REQUEST, (after_events w [KeyFindOne]).
              split; [reflexivity|].
              split; [destruct Hc as [-> | ->]; cbn; auto 6|].
              split; [auto|]. split; [intros [|]; discriminate|]. discriminate.
        -- left. do 3 eexists. exists (after_events w [KeyFindOne]).
           split; [reflexivity|]. split; [cbn; auto|].
           split; [auto|]. split; [intros [|]; discriminate|]. discriminate.
      * left. do 3 eexists. exists (after_events w [KeyFindOne]).
        split; [exact (updateApiKey_not_a_number e w id dto Hid Hf Hparse)|].
        split; [cbn; auto 7|]. split; [auto|].
        split; [intros [|]; discriminate|]. auto.
  - left. do 3 eexists. exists w. split; [exact (Hmissing eq_refl)|].
    split; [cbn; auto|]. split; [auto|]. split; [auto|]. discriminate.
Qed.

(** X10. A failed [updateApiKey] throws one of six exceptions:
    MISSING_KEY_ID, MISSING_UPDATE_FIELDS, KEY_NOT_FOUND, INVALID_EXPIRY_DATE,
    EXPIRY_DATE_PAST, or the 500 KEY_UPDATE_ERROR of the [catch].  After any
    of the first five both tables are as before: they are thrown before the
    [update]; a missing id and a request without fields are rejected before
    any repository call.  With a field and an id that does not read as a
    number the store rejects the lookup: the exception is KEY_UPDATE_ERROR,
    one lookup was made and nothing was written. *)
Theorem updateApiKey_failure_writes_nothing (e : Env) (w w' : World) (id : string)
    (dto : UpdateApiKeyDto.t) (ex : exn) :
  updateApiKey e id dto w = (Throw ex, w') ->
  exists c m status,
    ex = http_exception e c m status /\ In c update_codes
    /\ (c <> "KEY_UPDATE_ERROR" -> api_keys w' = api_keys w /\ sa_info w' = sa_info w)
    /\ (Js.truthy_string id = false \/ no_field dto = true -> w' = w)
    /\ (Js.truthy_string id = true -> no_field dto = false -> Js.parseInt id = None ->
        c = "KEY_UPDATE_ERROR" /\ status = 500 /\ w' = after_events w [KeyFindOne]).
Proof.
  intro Hrun.
  destruct (updateApiKey_outcome e w id dto)
    as [(c & m & status & w1 & Heq & Hc & Hw & Hearly & Hnan) | (resp & x & Heq)];
    rewrite Heq in Hrun; [|discriminate].
  injection Hrun as <- <-. exists c, m, status.
  split; [reflexivity|]. split; [exact Hc|].
  split; [intros _; destruct Hw as [-> | ->]; split; reflexivity|].
  split; [exact Hearly | exact Hnan].
Qed.

Lemma updateApiKey_failure_writes_nothing_witness :
  let w := Sample.world [] [Sample.key 7 "sa-0" "tok0" true (Some 5000) None] in
  let dto := {| UpdateApiKeyDto.name := None; UpdateApiKeyDto.description := None;
                UpdateApiKeyDto.expires_at := Js.value "999";
                UpdateApiKeyDto.is_active := Some false |} in
  (exists ex w',
     updateApiKey Sample.env "7" dto w = (Throw ex, w')
     /\ api_keys w' = api_keys w)
  /\ (exists m w',
        updateApiKey Sample.env "seven" dto w
        = (Throw (http_exception Sample.env "KEY_UPDATE_ERROR" m 500), w')
        /\ w' = after_events w [KeyFindOne]).
Proof.
  intros w dto. split.
  - destruct (updateApiKey Sample.env "7" dto w) as [[resp|ex] w'] eqn:Hrun.
    + vm_compute in Hrun. discriminate.
    + exists ex, w'. split; [reflexivity|].
      destruct (updateApiKey_failure_writes_nothing Sample.env w w' "7" dto ex Hrun)
        as (c & m & status & Hex & _ & Htables & _).
      apply Htables. intros ->. rewrite Hex in Hrun. vm_compute in Hrun. discriminate.
  - destruct (updateApiKey Sample.env "seven" dto w) as [[resp|ex] w'] eqn:Hrun.
    + vm_compute in Hrun. discriminate.
    + destruct (updateApiKey_failure_writes_nothing Sample.env w w' "seven" dto ex Hrun)
        as (c & m & status & Hex & _ & _ & _ & Hnan).
      destruct (Hnan eq_refl eq_refl eq_refl) as (-> & -> & ->).
      exists m, (after_events w [KeyFindOne]). rewrite Hex. split; reflexivity.
Defined.

(** X11. Whatever the request and its outcome, [updateApiKey] leaves the
    id, the owner, the token, the creation and the deletion columns of every
    stored key as they were, keeps the rows in place, and does not touch the
    service accounts. *)
Theorem updateApiKey_keeps_identity (e : Env) (w : World) (id : string)
    (dto : UpdateApiKeyDto.t) :
  let w' := snd (updateApiKey e id dto w) in
  map identity_columns (api_keys w') = map identity_columns (api_keys w)
  /\ sa_info w' = sa_info w.
Proof.
  cbv zeta.
  destruct (updateApiKey_outcome e w id dto)
    as [(c & m & status & w1 & Heq & _ & Hw & _) | (resp & x & Heq)];
    rewrite Heq; cbn [snd].
  - destruct Hw as [-> | ->]; auto.
  - split; [|reflexivity]. cbn [after_update api_keys]. rewrite map_map.
    apply map_ext. intro r. now destruct (where_id id r).
Qed.

(** X12. Updating a stored key with at least one field and an expiry that
    is absent or parses to a date after now succeeds.  The row of that id,
    and no other, is rewritten: each of name, description, active flag and
    expiry date takes the value of the request when the request has one and
    keeps its own otherwise, [updated_by] is the service, and the response
    shows the row after the update.  A soft-deleted key is updated like any
    other. *)
Theorem updateApiKey_applies_fields (e : Env) (w : World) (k : ApiKey.t) (id : string)
    (dto : UpdateApiKeyDto.t) (expiryDate : option Z) :
  key_ids_unique w -> In k (api_keys w) ->
  Js.parseInt id = Some (ApiKey.id k) ->
  no_field dto = false ->
  match UpdateApiKeyDto.expires_at dto with
  | Js.undefined => expiryDate = None
  | Js.null => False
  | Js.value s => exists d, Date_parse e s = Some d /\ now e < d /\ expiryDate = Some d
  end ->
  exists resp w' k',
    updateApiKey e id dto w = (Return resp, w')
    /\ api_keys w'
       = map (fun r => if ApiKey.id r =? ApiKey.id k then k' else r) (api_keys w)
    /\ identity_columns k' = identity_columns k
    /\ ApiKey.name k'
       = match UpdateApiKeyDto.name dto with Some n => n | None => ApiKey.name k end
    /\ ApiKey.description k'
       = match UpdateApiKeyDto.description dto with
         | Some d => Some d
         | None => ApiKey.description k
         end
    /\ ApiKey.is_active k'
       = match UpdateApiKeyDto.is_active dto with Some b => b | None => ApiKey.is_active k end
    /\ ApiKey.expiry_date k'
       = match expiryDate with Some d => Some d | None => ApiKey.expiry_date k end
    /\ ApiKey.updated_by k' = Some "key-manager-service"
    /\ ApiKey.updated_at k' = now e
    /\ Response.data resp
       = {| UpdateData.key_id := ApiKey.id k;
            UpdateData.client_id := ApiKey.client_id k;
            UpdateData.name := ApiKey.name k';
            UpdateData.description := ApiKey.description k';
            UpdateData.is_active := ApiKey.is_active k';
            UpdateData.expires_at := ApiKey.expiry_date k';
            UpdateData.status := if ApiKey.is_active k' then active else inactive;
            UpdateData.updated_at := now e |}.
Proof.
  intros Hu Hin Hid Hf Hexp.
  assert (Hx : forall w0, update_expiry e (UpdateApiKeyDto.expires_at dto) w0
                          = (Return expiryDate, w0)).
  { intro w0. unfold update_expiry.
    destruct (UpdateApiKeyDto.expires_at dto) as [| |s]; [now subst | contradiction|].
    destruct Hexp as (d & -> & Hd & ->).
    destruct (Z.leb_spec d (now e)); [lia | reflexivity]. }
  eexists. exists (after_update e w id (update_data dto expiryDate)),
    (ApiKeyRepo.apply_update e (update_data dto expiryDate) k).
  split.
  - rewrite (updateApiKey_unfold e w id dto _ Hid Hf).
    rewrite (find_key_by_id w k id Hu Hin Hid), Hx. reflexivity.
  - split; [apply after_update_rows; assumption|]. repeat split.
Qed.

Lemma updateApiKey_applies_fields_witness :
  let k := Sample.key 7 "sa-0" "tok0" true (Some 500) (Some 900) in
  let w := Sample.world [] [k] in
  let dto := {| UpdateApiKeyDto.name := None; UpdateApiKeyDto.description := None;
                UpdateApiKeyDto.expires_at := Js.value "2000";
                UpdateApiKeyDto.is_active := Some false |} in
  exists resp w' k',
    updateApiKey Sample.env "7" dto w = (Return resp, w')
    /\ api_keys w' = [k']
    /\ ApiKey.expiry_date k' = Some 2000
    /\ ApiKey.is_active k' = false
    /\ ApiKey.name k' = "sample".
Proof.
  intros k w dto.
  destruct (updateApiKey_applies_fields Sample.env w k "7" dto (Some 2000))
    as (resp & w' & k' & Hr & Hrows & _ & Hname & _ & Hact & Hdate & _).
  - repeat constructor. intros [].
  - left; reflexivity.
  - reflexivity.
  - reflexivity.
  - exists 2000. repeat split.
  - exists resp, w', k'. rewrite Hrows, Hname, Hact, Hdate. repeat split. exact Hr.
Defined.

(** X13. An update whose expiry is not after now is rejected with the 400
    EXPIRY_DATE_PAST exception after the lookup and before any write: a date
    equal to now is rejected, and so is [null], which is read as the epoch,
    so an expiry date cannot be cleared. *)
Theorem updateApiKey_expiry_not_after_now (e : Env) (w : World) (k : ApiKey.t)
    (id : string) (dto : UpdateApiKeyDto.t) :
  key_ids_unique w -> In k (api_keys w) ->
  Js.parseInt id = Some (ApiKey.id k) ->
  match UpdateApiKeyDto.expires_at dto with
  | Js.undefined => False
  | Js.null => 0 <= now e
  | Js.value s => exists d, Date_parse e s = Some d /\ d <= now e
  end ->
  updateApiKey e id dto w
  = (Throw (http_exception e "EXPIRY_DATE_PAST" "expires_at must be in the future" 400),
     after_events w [KeyFindOne]).
Proof.
  intros Hu Hin Hid Hexp.
  assert (Hf : no_field dto = false).
  { unfold no_field. destruct (UpdateApiKeyDto.expires_at dto); [contradiction| |];
      cbn [is_undefined]; now rewrite andb_false_r. }
  rewrite (updateApiKey_unfold e w id dto _ Hid Hf).
  rewrite (find_key_by_id w k id Hu Hin Hid). unfold update_expiry.
  destruct (UpdateApiKeyDto.expires_at dto) as [| |s]; [contradiction| |].
  - destruct (Z.leb_spec 0 (now e)); [reflexivity | lia].
  - destruct Hexp as (d & -> & Hd). destruct (Z.leb_spec d (now e)); [reflexivity | lia].
Qed.

Lemma updateApiKey_expiry_not_after_now_witness :
  let k := Sample.key 7 "sa-0" "tok0" true (Some 5000) None in
  let w := Sample.world [] [k] in
  fst (updateApiKey Sample.env "7"
         {| UpdateApiKeyDto.name := None; UpdateApiKeyDto.description := None;
            UpdateApiKeyDto.expires_at := Js.null;
            UpdateApiKeyDto.is_active := None |} w)
  = Throw (http_exception Sample.env "EXPIRY_DATE_PAST" "expires_at must be in the future" 400)
  /\ fst (updateApiKey Sample.env "7"
            {| UpdateApiKeyDto.name := None; UpdateApiKeyDto.description := None;
               UpdateApiKeyDto.expires_at := Js.value "1000";
               UpdateApiKeyDto.is_active := None |} w)
     = Throw (http_exception Sample.env "EXPIRY_DATE_PAST" "expires_at must be in the future"
                400).
Proof.
  intros k w.
  assert (Hu : key_ids_unique w) by (repeat constructor; intros []).
  assert (Hin : In k (api_keys w)) by (left; reflexivity).
  split.
  - refine (f_equal fst (updateApiKey_expiry_not_after_now Sample.env w k "7" _
                           Hu Hin eq_refl _)).
    cbn. discriminate.
  - refine (f_equal fst (updateApiKey_expiry_not_after_now Sample.env w k "7" _
                           Hu Hin eq_refl _)).
    exists 1000. split; [reflexivity|]. cbn. discriminate.
Defined.

(** ** Generation and creation *)

Lemma find_app_none {A} (p : A -> bool) (l : list A) (x : A) :
  find p l = None -> p x = true -> find p (l ++ [x]) = Some x.
Proof.
  induction l as [|a l IH]; cbn [app find]; intros Hn Hx.
  - now rewrite Hx.
  - destruct (p a); [discriminate | auto].
Qed.

Lemma fresh_token_iff (e : Env) (w : World) (i : nat) :
  fresh_token w (randomBytes32_base64 e (entropy w + i)) <-> ~ draw_collides e w i.
Proof.
  unfold fresh_token, draw_collides. split.
  - intros H (k & Hin & Hk). exact (H k Hin Hk).
  - intros H k Hin Hk. apply H. eauto.
Qed.

Section FirstFresh.

Context (e : Env) (userId name : string) (description : option string)
  (isActive : bool) (expiresAt : option Z).

(** The loop returns the first token that no stored key holds, after as
    many draws as it took to reach it. *)
Lemma retry_loop_first_fresh (remaining : nat) :
  forall w res w',
    retry_loop e remaining userId name description isActive expiresAt w
    = (Return (Some res), w') ->
    exists j,
      (j < remaining)%nat
      /\ (forall i, (i < j)%nat -> draw_collides e w i)
      /\ ~ draw_collides e w j
      /\ UniqueKeyResult.rawKey res = randomBytes32_base64 e (entropy w + j)
      /\ entropy w' = (entropy w + S j)%nat.
Proof.
  induction remaining as [|n IH]; intros w res w'; cbn [retry_loop].
  - discriminate.
  - destruct (attempt_once_spec e userId name description isActive expiresAt w)
      as (r1 & w1 & H1 & He1 & _ & _ & Hnone1 & Hkeep1 & Hsome1).
    unfold bind at 1. rewrite H1. destruct r1 as [res1|].
    + unfold ret. intros [= <- <-]. exists 0%nat.
      destruct (Hsome1 res1 eq_refl) as (row & _ & Hraw & _).
      split; [lia|]. split; [intros i Hi; lia|].
      split; [intro Hc; apply Hnone1 in Hc; discriminate|].
      rewrite Nat.add_0_r. split; [exact Hraw | lia].
    + intro Hrun. destruct (IH w1 res w' Hrun) as (j & Hj & Hbefore & Hfresh & Hraw & Hent).
      specialize (Hkeep1 eq_refl).
      assert (Hshift : forall i, draw_collides e w1 i <-> draw_collides e w (S i)).
      { intro i. unfold draw_collides. rewrite Hkeep1, He1.
        now replace (S (entropy w) + i)%nat with (entropy w + S i)%nat by lia. }
      exists (S j). split; [lia|]. split; [|split; [|split]].
      * intros i Hi. destruct i as [|i]; [now apply Hnone1|].
        apply Hshift, Hbefore. lia.
      * intro Hc. apply Hfresh. now apply Hshift.
      * rewrite Hraw, He1. f_equal. lia.
      * rewrite Hent, He1. lia.
Qed.

Lemma generateUniqueKey_first_fresh_run (w : World) (res : UniqueKeyResult.t) (w' : World) :
  generateUniqueKey e userId name description isActive expiresAt w = (Return res, w') ->
  exists j,
    (j < maxRetries (config w))%nat
    /\ (forall i, (i < j)%nat -> draw_collides e w i)
    /\ ~ draw_collides e w j
    /\ UniqueKeyResult.rawKey res = randomBytes32_base64 e (entropy w + j)
    /\ entropy w' = (entropy w + S j)%nat.
Proof.
  unfold generateUniqueKey, bind, get_world.
  destruct (retry_loop e _ userId name description isActive expiresAt w)
    as [[[r|]|ex] w1] eqn:Hloop; try discriminate.
  unfold ret. intros [= <- <-]. eapply retry_loop_first_fresh; eauto.
Qed.

End FirstFresh.

(** X14. Whatever budget is configured, [generateUniqueKey] draws at most
    [maxRetries] tokens.  When it returns, the token it returns is the first
    drawn token that no stored key holds, every draw before it collided, and
    exactly one row was appended, holding that token.  With a budget of 0 it
    fails at once, without drawing and without reading the store. *)
Theorem generateUniqueKey_first_fresh (e : Env) (userId name : string)
    (description : option string) (isActive : bool) (expiresAt : option Z) (w : World) :
  exists r w',
    generateUniqueKey e userId name description isActive expiresAt w = (r, w')
    /\ (entropy w' <= entropy w + maxRetries (config w))%nat
    /\ (forall res, r = Return res ->
          exists j row,
            (j < maxRetries (config w))%nat
            /\ (forall i, (i < j)%nat -> draw_collides e w i)
            /\ fresh_token w (UniqueKeyResult.rawKey res)
            /\ UniqueKeyResult.rawKey res = randomBytes32_base64 e (entropy w + j)
            /\ entropy w' = (entropy w + S j)%nat
            /\ api_keys w' = (api_keys w ++ [row])%list
            /\ ApiKey.api_key row = UniqueKeyResult.rawKey res)
    /\ (maxRetries (config w) = 0%nat ->
        r = Throw (Error "Failed to generate unique key after 0 attempts") /\ w' = w).
Proof.
  destruct (generateUniqueKey_spec e userId name description isActive expiresAt w)
    as (r & w' & Hr & He & _ & _ & _ & _ & Hret).
  exists r, w'. split; [exact Hr|]. split; [lia|]. split.
  - intros res ->.
    destruct (generateUniqueKey_first_fresh_run e _ _ _ _ _ w res w' Hr)
      as (j & Hj & Hbefore & Hfresh & Hraw & Hent).
    destruct (Hret res eq_refl) as (row & Hrow & Hkey & _).
    exists j, row. repeat split; auto.
    rewrite Hraw. now apply fresh_token_iff.
  - intro H0. unfold generateUniqueKey, bind, get_world in Hr. rewrite H0 in Hr.
    cbn in Hr. injection Hr as <- <-. auto.
Qed.

Lemma generateUniqueKey_first_fresh_witness :
  let w := Sample.world [] [Sample.key 1 "sa-0" "tok0" true None None] in
  exists res w' row,
    generateUniqueKey Sample.env "sa-0" "ci" None true None w = (Return res, w')
    /\ UniqueKeyResult.rawKey res = "tok1"
    /\ entropy w' = 2%nat
    /\ api_keys w' = (api_keys w ++ [row])%list.
Proof.
  intro w.
  destruct (generateUniqueKey_first_fresh Sample.env "sa-0" "ci" None true None w)
    as (r & w' & Hr & _ & Hret & _).
  destruct r as [res|ex]; [|vm_compute in Hr; discriminate].
  destruct (Hret res eq_refl) as (j & row & Hj & Hbefore & _ & Hraw & Hent & Hrow & _).
  assert (j = 1%nat) as ->.
  { destruct j as [|[|j]]; [|reflexivity|].
    - vm_compute in Hr. injection Hr as <- _. discriminate.
    - destruct (Hbefore 1%nat ltac:(lia)) as (k & [<-|[]] & Hk). discriminate. }
  exists res, w', row. repeat split; auto.
Defined.

(** A token the generator returns is held by no key stored before. *)
Lemma generateApiKey_fresh (e : Env) (params : KeyGenerationParams.t) (w w' : World)
    (res : KeyGenerationResult.t) :
  generateApiKey e params w = (Return res, w') ->
  fresh_token w (KeyGenerationResult.rawKey res).
Proof.
  unfold generateApiKey, try_catch, bind.
  destruct (validateGenerationInput_spec e (KeyGenerationParams.userId params)
              (KeyGenerationParams.expiresAt params) w) as [[_ Hv]|[_ [m Hv]]];
    rewrite Hv; [|discriminate].
  destruct (generateUniqueKey e _ _ _ _ _ w) as [[ures|ex] w1] eqn:Hu; [|discriminate].
  unfold ret. intros [= <- <-]. cbn [KeyGenerationResult.rawKey].
  destruct (generateUniqueKey_first_fresh_run e _ _ _ _ _ w ures w1 Hu)
    as (j & _ & _ & Hfresh & Hraw & _).
  rewrite Hraw. now apply fresh_token_iff.
Qed.

(** Every run of [createApiKey]: the expiry is rejected and nothing
    happened; or an account is resolved and the generator fails, leaving the
    keys as they were; or the generator succeeds and one row is appended. *)
Lemma createApiKey_outcome (e : Env) (dto : CreateApiKeyDto.t) (w : World) :
  (exists c m,
     (c = "INVALID_EXPIRY_DATE" \/ c = "EXPIRY_DATE_PAST")
     /\ createApiKey e dto w = (Throw (http_exception e c m HttpStatus.BAD_REQUEST), w))
  \/ (exists expiryDate sa w',
        create_expiry e (CreateApiKeyDto.expires_at dto) w = (Return expiryDate, w)
        /\ provisioned e (CreateApiKeyDto.user_id dto) w sa (sa_info w')
        /\ ((createApiKey e dto w
             = (Throw (http_exception e "KEY_CREATION_ERROR" "Failed to create API key"
                         HttpStatus.INTERNAL_SERVER_ERROR), w')
             /\ api_keys w' = api_keys w)
            \/ (exists resp row,
                  createApiKey e dto w = (Return resp, w')
                  /\ api_keys w' = (api_keys w ++ [row])%list
                  /\ fresh_token w (ApiKey.api_key row)
                  /\ ApiKey.api_key row = CreateData.raw_key (Response.data resp)
                  /\ ApiKey.client_id row = SaInfo.id sa
                  /\ ApiKey.deleted_at row = None
                  /\ ApiKey.is_active row = CreateData.is_active (Response.data resp)
                  /\ ApiKey.expiry_date row
                     = Some (match expiryDate with
                             | Some d => d
                             | None =>
                                 now e + defaultExpiryDays (config w) * 24 * 60 * 60 * 1000
                             end)
                  /\ CreateData.expires_at (Response.data resp) = ApiKey.expiry_date row
                  /\ CreateData.client_id (Response.data resp) = SaInfo.id sa
                  /\ CreateData.client_secret (Response.data resp) = SaInfo.client_secret sa
                  /\ CreateData.user_id (Response.data resp) = CreateApiKeyDto.user_id dto))).
Proof.
  destruct (create_expiry_spec e (CreateApiKeyDto.expires_at dto) w)
    as (r & Hce & _ & Hthrow & _).
  destruct r as [x|ex].
  - right.
    destruct (createApiKey_stages e dto w x Hce)
      as (sa & w1 & Hc1 & Hk1 & Hu & Hd & Hcase & Heq).
    destruct (generateApiKey_spec e (generation_params dto sa x) w1)
      as (r & w2 & Hg & _ & _ & Hs & _ & Hgthrow & Hret).
    cbv zeta in Hg, Hret.
    assert (Hprov : provisioned e (CreateApiKeyDto.user_id dto) w sa (sa_info w2)).
    { rewrite Hs. split; [exact Hu|]. split; [exact Hd|].
      destruct Hcase as [(Hf & -> & _) | (Hf & -> & _ & Hid & Hsec)].
      - split; [exact Hf|]. left. auto.
      - split; [|right; auto].
        apply find_app_none; [exact Hf|]. unfold owner_account.
        now rewrite Hu, Z.eqb_refl, Hd. }
    exists x, sa, w2. split; [exact Hce|]. split; [exact Hprov|].
    rewrite Heq, Hg. destruct r as [res|ex].
    + right. destruct (Hret res eq_refl)
        as (_ & row & Hrow & Hkey & Hcid & Hact & Hdel & Hdate & Hres & _).
      cbn [generation_params KeyGenerationParams.userId KeyGenerationParams.expiresAt
             KeyGenerationParams.isActive] in *.
      eexists. exists row. split; [reflexivity|].
      cbn [Response.data CreateData.raw_key CreateData.is_active CreateData.expires_at
             CreateData.client_id CreateData.client_secret CreateData.user_id].
      rewrite <- Hk1, <- Hc1.
      split; [exact Hrow|]. split.
      { rewrite Hkey. intros k Hk. rewrite <- Hk1 in Hk.
        exact (generateApiKey_fresh e _ w1 w2 res Hg k Hk). }
      repeat split; auto.
    + left. destruct (Hgthrow ex eq_refl) as [Hk [m ->]].
      cbn [rethrow_or_internal]. split; [reflexivity | congruence].
  - left. destruct (Hthrow ex eq_refl) as (c & m & Hc & ->).
    exists c, m. split; [exact Hc|].
    apply createApiKey_expiry_rejected; [exact Hce|]. unfold http_exception. eauto.
Qed.

(** X15. A failed [createApiKey] has stored no key, and its exception is
    INVALID_EXPIRY_DATE or EXPIRY_DATE_PAST (400) or KEY_CREATION_ERROR
    (500): the SERVICE_ACCOUNT_DELETED answer is never given, since the
    lookup before it returns live accounts only. *)
Theorem createApiKey_failure_codes (e : Env) (dto : CreateApiKeyDto.t) (w w' : World)
    (ex : exn) :
  createApiKey e dto w = (Throw ex, w') ->
  api_keys w' = api_keys w
  /\ exists c m status,
       ex = http_exception e c m status /\ In c create_codes
       /\ c <> "SERVICE_ACCOUNT_DELETED".
Proof.
  intro Hrun.
  destruct (createApiKey_outcome e dto w)
    as [(c & m & Hc & Heq) | (x & sa & w1 & _ & _ & [[Heq Hk] | (resp & row & Heq & _)])];
    rewrite Heq in Hrun; [| |discriminate]; injection Hrun as <- <-.
  - split; [reflexivity|]. do 3 eexists. split; [reflexivity|].
    destruct Hc as [-> | ->]; (split; [cbn; auto | discriminate]).
  - split; [exact Hk|]. do 3 eexists. split; [reflexivity|].
    split; [cbn; auto | discriminate].
Qed.

Lemma createApiKey_failure_codes_witness :
  let w := Sample.world [Sample.account "sa-0" 42 "old" (Some 500)] [] in
  let dto := {| CreateApiKeyDto.user_id := 42; CreateApiKeyDto.name := "ci";
                CreateApiKeyDto.expires_at := Js.value "yesterday";
                CreateApiKeyDto.description := None;
                CreateApiKeyDto.is_active := None |} in
  exists ex w', createApiKey Sample.env dto w = (Throw ex, w') /\ api_keys w' = [].
Proof.
  intros w dto.
  destruct (createApiKey Sample.env dto w) as [[resp|ex] w'] eqn:Hrun.
  - vm_compute in Hrun. discriminate.
  - exists ex, w'. split; [reflexivity|].
    exact (proj1 (createApiKey_failure_codes Sample.env dto w w' ex Hrun)).
Defined.

(** X16. [createApiKey] keeps the stored tokens pairwise distinct: when no
    two stored keys share a token before the call, none do after it,
    whatever the outcome; soft-deleted rows count, the collision check reads
    them too. *)
Theorem createApiKey_keeps_tokens_unique (e : Env) (dto : CreateApiKeyDto.t) (w : World) :
  NoDup (tokens w) -> NoDup (tokens (snd (createApiKey e dto w))).
Proof.
  intro Hnd.
  destruct (createApiKey_outcome e dto w)
    as [(c & m & _ & Heq) | (x & sa & w1 & _ & _ & [[Heq Hk] | (resp & row & Heq & Hrow & Hfresh & _)])];
    rewrite Heq; cbn [snd]; unfold tokens in *.
  - exact Hnd.
  - now rewrite Hk.
  - rewrite Hrow, map_app. cbn [map].
    apply NoDup_app; [exact Hnd | repeat constructor; intros [] |].
    intros t Ht [<-|[]]. apply in_map_iff in Ht as (k & Hk & Hin).
    exact (Hfresh k Hin Hk).
Qed.

Lemma createApiKey_keeps_tokens_unique_witness :
  let w := Sample.world [Sample.account "sa-0" 42 "s3cret" None]
             [Sample.key 1 "sa-0" "tok0" true None (Some 5)] in
  tokens (snd (createApiKey Sample.env (Sample.create_request 42 "ci") w)) = ["tok0"; "tok1"]
  /\ NoDup (tokens (snd (createApiKey Sample.env (Sample.create_request 42 "ci") w))).
Proof.
  intro w. split; [reflexivity|].
  apply (createApiKey_keeps_tokens_unique Sample.env (Sample.create_request 42 "ci") w).
  repeat constructor. intros [].
Defined.

Lemma owner_account_found (w : World) (user : Z) :
  (exists sa, In sa (sa_info w) /\ SaInfo.user_id sa = user /\ SaInfo.deleted_at sa = None) ->
  exists sa, find (owner_account user) (sa_info w) = Some sa.
Proof.
  intros (sa & Hin & Hu & Hd).
  destruct (find (owner_account user) (sa_info w)) as [sa'|] eqn:Hf; [eauto|].
  apply (find_none _ _ Hf) in Hin. unfold owner_account in Hin.
  rewrite Hu, Z.eqb_refl, Hd in Hin. discriminate.
Qed.

Lemma owner_account_some (rows : list SaInfo.t) (user : Z) (sa : SaInfo.t) :
  find (owner_account user) rows = Some sa ->
  In sa rows /\ SaInfo.user_id sa = user /\ SaInfo.deleted_at sa = None.
Proof.
  intros [Hin Hp]%find_some. unfold owner_account in Hp.
  apply andb_true_iff in Hp as [Hu%Z.eqb_eq Hd].
  destruct (SaInfo.deleted_at sa); [discriminate | auto].
Qed.

(** X17. For an owner who has a live service account, [createApiKey] adds no
    account, whatever the outcome, and a successful response carries the id
    and the secret of a live account of that owner: the stored secret is
    returned again with every key. *)
Theorem createApiKey_reuses_account (e : Env) (dto : CreateApiKeyDto.t) (w : World) :
  (exists sa, In sa (sa_info w)
              /\ SaInfo.user_id sa = CreateApiKeyDto.user_id dto
              /\ SaInfo.deleted_at sa = None) ->
  sa_info (snd (createApiKey e dto w)) = sa_info w
  /\ forall resp w',
       createApiKey e dto w = (Return resp, w') ->
       exists sa, In sa (sa_info w)
                  /\ SaInfo.user_id sa = CreateApiKeyDto.user_id dto
                  /\ SaInfo.deleted_at sa = None
                  /\ CreateData.client_id (Response.data resp) = SaInfo.id sa
                  /\ CreateData.client_secret (Response.data resp) = SaInfo.client_secret sa.
Proof.
  intros [sa0 Hf0]%owner_account_found.
  destruct (createApiKey_outcome e dto w)
    as [(c & m & _ & Heq) | (x & sa & w1 & _ & Hprov & Hrun)].
  - rewrite Heq. split; [reflexivity | discriminate].
  - destruct Hprov as (_ & _ & _ & [[Hf Hrows] | (Hf & _)]); [|congruence].
    apply owner_account_some in Hf as (Hin & Hu & Hd).
    destruct Hrun as [[Heq _] | (resp & row & Heq & _ & _ & _ & _ & _ & _ & _ & _ & Hcid & Hsec & _)];
      rewrite Heq; cbn [snd]; (split; [exact Hrows|]); [discriminate|].
    intros resp' w' [= <- <-]. exists sa. auto.
Qed.

Lemma createApiKey_reuses_account_witness :
  let sa := Sample.account "sa-0" 42 "s3cret" None in
  let w := Sample.world [sa] [] in
  sa_info (snd (createApiKey Sample.env (Sample.create_request 42 "ci") w)) = [sa].
Proof.
  intros sa w.
  apply (createApiKey_reuses_account Sample.env (Sample.create_request 42 "ci") w).
  exists sa. repeat split. left; reflexivity.
Defined.

(** X18. Two successful creations in a row for the same owner work under
    one account: the second response has the [client_id] and the
    [client_secret] of the first, the second call adds no account, and the
    two keys are two new rows with different tokens.  The two calls may
    differ in everything but the owner, the clock and the entropy source
    included. *)
Theorem createApiKey_twice_same_account (e1 e2 : Env) (dto1 dto2 : CreateApiKeyDto.t)
    (w w1 w2 : World) (resp1 resp2 : Response.t CreateData.t) :
  CreateApiKeyDto.user_id dto1 = CreateApiKeyDto.user_id dto2 ->
  createApiKey e1 dto1 w = (Return resp1, w1) ->
  createApiKey e2 dto2 w1 = (Return resp2, w2) ->
  CreateData.client_id (Response.data resp2) = CreateData.client_id (Response.data resp1)
  /\ CreateData.client_secret (Response.data resp2)
     = CreateData.client_secret (Response.data resp1)
  /\ sa_info w2 = sa_info w1
  /\ CreateData.raw_key (Response.data resp2) <> CreateData.raw_key (Response.data resp1)
  /\ exists row1 row2,
       api_keys w2 = (api_keys w ++ [row1; row2])%list
       /\ ApiKey.client_id row1 = CreateData.client_id (Response.data resp1)
       /\ ApiKey.client_id row2 = CreateData.client_id (Response.data resp1).
Proof.
  intros Huser Hrun1 Hrun2.
  destruct (createApiKey_outcome e1 dto1 w)
    as [(c & m & _ & Heq) | (x1 & sa1 & w1' & _ & Hprov1 & [[Heq _] | (r1 & row1 & Heq & Hrow1 & _ & Hkey1 & Hcid1 & _ & _ & _ & _ & Hrc1 & Hrs1 & _)])];
    rewrite Heq in Hrun1; try discriminate.
  injection Hrun1 as <- <-.
  destruct Hprov1 as (_ & _ & Hfound1 & _).
  destruct (createApiKey_outcome e2 dto2 w1')
    as [(c & m & _ & Heq2) | (x2 & sa2 & w2' & _ & Hprov2 & [[Heq2 _] | (r2 & row2 & Heq2 & Hrow2 & Hfresh2 & Hkey2 & Hcid2 & _ & _ & _ & _ & Hrc2 & Hrs2 & _)])];
    rewrite Heq2 in Hrun2; try discriminate.
  injection Hrun2 as <- <-.
  destruct Hprov2 as (_ & _ & _ & [[Hf2 Hrows2] | (Hf2 & _)]);
    rewrite <- Huser, Hfound1 in Hf2; [|discriminate].
  injection Hf2 as <-.
  split; [congruence|]. split; [congruence|]. split; [exact Hrows2|]. split.
  - rewrite <- Hkey1, <- Hkey2. intro Heq12. apply (Hfresh2 row1); [|auto].
    rewrite Hrow1. apply in_or_app. right. left. reflexivity.
  - exists row1, row2. rewrite Hrow2, Hrow1, <- app_assoc.
    split; [reflexivity|]. split; congruence.
Qed.

Lemma createApiKey_twice_same_account_witness :
  let w := Sample.world [] [] in
  let run1 := createApiKey Sample.env (Sample.create_request 42 "first") w in
  let run2 := createApiKey Sample.env (Sample.create_request 42 "second") (snd run1) in
  exists resp1 resp2,
    fst run1 = Return resp1 /\ fst run2 = Return resp2
    /\ CreateData.client_id (Response.data resp2) = CreateData.client_id (Response.data resp1)
    /\ List.length (sa_info (snd run2)) = 1%nat
    /\ List.length (api_keys (snd run2)) = 2%nat.
Proof.
  intros w run1 run2.
  destruct run1 as [[resp1|ex1] w1] eqn:H1; [|vm_compute in H1; discriminate].
  subst run2. cbn [snd].
  destruct (createApiKey Sample.env (Sample.create_request 42 "second") w1)
    as [[resp2|ex2] w2] eqn:H2;
    [|vm_compute in H1; injection H1 as <- <-; vm_compute in H2; discriminate].
  destruct (createApiKey_twice_same_account Sample.env Sample.env
              (Sample.create_request 42 "first") (Sample.create_request 42 "second")
              w w1 w2 resp1 resp2 eq_refl H1 H2) as (Hc & _ & _ & _ & _).
  exists resp1, resp2. split; [reflexivity|]. split; [reflexivity|]. split; [exact Hc|].
  vm_compute in H1. injection H1 as <- <-. vm_compute in H2. injection H2 as <- <-.
  split; reflexivity.
Defined.

(** X19. There is no rollback: when the owner has no live account and the
    request fails in the generator (KEY_CREATION_ERROR), the account that
    was created for the request stays saved, although no key was stored. *)
Theorem createApiKey_failure_leaves_account (e : Env) (dto : CreateApiKeyDto.t)
    (w w' : World) (m : string) (status : Z) :
  (forall sa, In sa (sa_info w) ->
              SaInfo.user_id sa = CreateApiKeyDto.user_id dto ->
              SaInfo.deleted_at sa <> None) ->
  createApiKey e dto w = (Throw (http_exception e "KEY_CREATION_ERROR" m status), w') ->
  api_keys w' = api_keys w
  /\ exists sa,
       sa_info w' = (sa_info w ++ [sa])%list
       /\ SaInfo.user_id sa = CreateApiKeyDto.user_id dto
       /\ SaInfo.deleted_at sa = None
       /\ SaInfo.client_secret sa = randomBytes32_base64 e (entropy w).
Proof.
  intros Hall Hrun.
  destruct (createApiKey_outcome e dto w)
    as [(c & m' & Hc & Heq) | (x & sa & w1 & _ & Hprov & [[Heq Hk] | (resp & row & Heq & _)])];
    rewrite Heq in Hrun; [| |discriminate].
  - exfalso. injection Hrun as Hcode _ _ _.
    destruct Hc as [-> | ->]; discriminate.
  - injection Hrun as _ _ <-. split; [exact Hk|].
    destruct Hprov as (Hu & Hd & _ & [[Hf _] | (_ & Hrows & _ & Hsec)]).
    + apply owner_account_some in Hf as (Hin & _ & _). exfalso. exact (Hall sa Hin Hu Hd).
    + exists sa. auto.
Qed.

Lemma createApiKey_failure_leaves_account_witness :
  let w := Sample.world []
             [Sample.key 1 "sa-9" "tok1" true None None;
              Sample.key 2 "sa-9" "tok2" true None None;
              Sample.key 3 "sa-9" "tok3" true None None] in
  exists sa w',
    snd (createApiKey Sample.env (Sample.create_request 42 "ci") w) = w'
    /\ sa_info w' = [sa] /\ SaInfo.client_secret sa = "tok0"
    /\ List.length (api_keys w') = 3%nat.
Proof.
  intro w.
  destruct (createApiKey Sample.env (Sample.create_request 42 "ci") w)
    as [[resp|ex] w'] eqn:Hrun; [vm_compute in Hrun; discriminate|].
  assert (Hex : ex = http_exception Sample.env "KEY_CREATION_ERROR"
                       "Failed to create API key" 500).
  { vm_compute in Hrun. injection Hrun as <- _. reflexivity. }
  subst ex.
  destruct (createApiKey_failure_leaves_account Sample.env (Sample.create_request 42 "ci")
              w w' _ _ (fun sa (H : In sa []) _ => match H with end) Hrun)
    as (Hk & sa & Hrows & _ & _ & Hsec).
  exists sa, w'. split; [reflexivity|]. split; [exact Hrows|]. split; [exact Hsec|].
  now rewrite Hk.
Defined.

(** X20. A creation request whose [expires_at] is a non-empty string that
    does not parse, or parses to a date that is not after now (now itself
    included), is rejected with the 400 exception INVALID_EXPIRY_DATE,
    respectively EXPIRY_DATE_PAST, before anything is read or written. *)
Theorem createApiKey_rejects_bad_expiry (e : Env) (dto : CreateApiKeyDto.t) (w : World)
    (s : string) :
  CreateApiKeyDto.expires_at dto = Js.value s -> s <> EmptyString ->
  (Date_parse e s = None ->
   createApiKey e dto w
   = (Throw (http_exception e "INVALID_EXPIRY_DATE"
               "expires_at must be a valid ISO date string" 400), w))
  /\ (forall d, Date_parse e s = Some d -> d <= now e ->
                createApiKey e dto w
                = (Throw (http_exception e "EXPIRY_DATE_PAST"
                            "expires_at must be in the future" 400), w)).
Proof.
  intros Hx Hs. destruct s as [|c s]; [congruence|]. split.
  - intro Hp. apply createApiKey_expiry_rejected; [|unfold http_exception; eauto].
    unfold create_expiry. rewrite Hx. cbn [Js.truthy_nullable_string Js.truthy_string].
    now rewrite Hp.
  - intros d Hp Hd. apply createApiKey_expiry_rejected; [|unfold http_exception; eauto].
    unfold create_expiry. rewrite Hx. cbn [Js.truthy_nullable_string Js.truthy_string].
    rewrite Hp. destruct (Z.leb_spec d (now e)); [reflexivity | lia].
Qed.

Lemma createApiKey_rejects_bad_expiry_witness :
  let w := Sample.world [] [] in
  let dto := {| CreateApiKeyDto.user_id := 42; CreateApiKeyDto.name := "ci";
                CreateApiKeyDto.expires_at := Js.value "1000";
                CreateApiKeyDto.description := None;
                CreateApiKeyDto.is_active := None |} in
  createApiKey Sample.env dto w
  = (Throw (http_exception Sample.env "EXPIRY_DATE_PAST"
              "expires_at must be in the future" 400), w).
Proof.
  intros w dto.
  refine (proj2 (createApiKey_rejects_bad_expiry Sample.env dto w "1000" eq_refl _)
            1000 eq_refl _).
  - discriminate.
  - cbn. discriminate.
Defined.

(** X21. A successful creation with an explicit expiry stores the parsed
    date itself, which is after now, and the response reports it; the
    default of 365 days is not applied. *)
Theorem createApiKey_explicit_expiry (e : Env) (dto : CreateApiKeyDto.t) (w w' : World)
    (resp : Response.t CreateData.t) (s : string) :
  CreateApiKeyDto.expires_at dto = Js.value s -> s <> EmptyString ->
  createApiKey e dto w = (Return resp, w') ->
  exists d row,
    Date_parse e s = Some d /\ now e < d
    /\ api_keys w' = (api_keys w ++ [row])%list
    /\ ApiKey.expiry_date row = Some d
    /\ CreateData.expires_at (Response.data resp) = Some d.
Proof.
  intros Hx Hs Hrun.
  destruct (createApiKey_outcome e dto w)
    as [(c & m & _ & Heq) | (x & sa & w1 & Hce & _ & [[Heq _] | (r & row & Heq & Hrow & _ & _ & _ & _ & _ & Hdate & Hres & _)])];
    rewrite Heq in Hrun; try discriminate.
  injection Hrun as <- <-.
  unfold create_expiry in Hce. rewrite Hx in Hce. cbn [Js.truthy_nullable_string] in Hce.
  destruct s; [congruence|]. cbn [Js.truthy_string] in Hce.
  destruct (Date_parse e _) as [d|]; [|discriminate].
  destruct (Z.leb_spec d (now e)); [discriminate|].
  injection Hce as <-. exists d, row. rewrite Hres, Hdate. auto.
Qed.

Lemma createApiKey_explicit_expiry_witness :
  let w := Sample.world [] [] in
  let dto := {| CreateApiKeyDto.user_id := 42; CreateApiKeyDto.name := "ci";
                CreateApiKeyDto.expires_at := Js.value "2000";
                CreateApiKeyDto.description := None;
                CreateApiKeyDto.is_active := None |} in
  exists row,
    api_keys (snd (createApiKey Sample.env dto w)) = [row]
    /\ ApiKey.expiry_date row = Some 2000.
Proof.
  intros w dto.
  destruct (createApiKey Sample.env dto w) as [[resp|ex] w'] eqn:Hrun;
    [|vm_compute in Hrun; discriminate].
  destruct (createApiKey_explicit_expiry Sample.env dto w w' resp "2000" eq_refl
              ltac:(discriminate) Hrun) as (d & row & Hp & _ & Hrow & Hd & _).
  exists row. split; [exact Hrow|]. rewrite Hd. exact (eq_sym Hp).
Defined.

Lemma trimStart_empty_blank (s : string) :
  Js.trimStart s = EmptyString -> blank s = true.
Proof.
  unfold blank. induction s as [|c s IH]; cbn [Js.trimStart list_ascii_of_string forallb];
    [reflexivity|].
  destruct (Js.is_white_space c); [auto | discriminate].
Qed.

Lemma trimStart_head (s : string) (c : ascii) (t : string) :
  Js.trimStart s = String c t -> Js.is_white_space c = false.
Proof.
  induction s as [|a s IH]; cbn [Js.trimStart]; [discriminate|].
  destruct (Js.is_white_space a) eqn:Ha; [exact IH|]. now intros [= <- _].
Qed.

Lemma forallb_rev {A} (f : A -> bool) (l : list A) : forallb f (rev l) = forallb f l.
Proof.
  induction l as [|a l IH]; [reflexivity|].
  cbn [rev forallb]. rewrite forallb_app, IH. cbn [forallb].
  now rewrite andb_true_r, andb_comm.
Qed.

Lemma blank_reverse (s : string) : blank (Js.reverse s) = blank s.
Proof.
  unfold blank, Js.reverse.
  now rewrite list_ascii_of_string_of_list_ascii, forallb_rev.
Qed.

Lemma reverse_empty (s : string) : Js.reverse s = EmptyString -> s = EmptyString.
Proof.
  unfold Js.reverse. intro H.
  apply (f_equal list_ascii_of_string) in H.
  rewrite list_ascii_of_string_of_list_ascii in H. cbn in H.
  destruct s as [|c s]; [reflexivity|]. cbn in H.
  now destruct (rev (list_ascii_of_string s)).
Qed.

(** [trim] leaves nothing exactly of the strings that are blank. *)
Lemma trim_empty_iff_blank (s : string) : Js.trim s = EmptyString <-> blank s = true.
Proof.
  split; [|apply trim_blank].
  unfold Js.trim, Js.trimEnd. intros H%reverse_empty%trimStart_empty_blank.
  rewrite blank_reverse in H.
  destruct (Js.trimStart s) as [|c t] eqn:Ht; [now apply trimStart_empty_blank|].
  apply trimStart_head in Ht. unfold blank in H. cbn in H. rewrite Ht in H. discriminate.
Qed.

(** X22. [generateApiKey] checks its input before it draws or reads
    anything: a client id that is empty or white space only, and otherwise
    an expiry that is not after now (now itself included), each end the call
    with an error and leave the world as it was. *)
Theorem generateApiKey_rejects_input (e : Env) (params : KeyGenerationParams.t) (w : World) :
  blank (KeyGenerationParams.userId params) = true
  \/ (exists d, KeyGenerationParams.expiresAt params = Some d /\ d <= now e) ->
  generateApiKey e params w
  = (Throw (Error (if blank (KeyGenerationParams.userId params)
                   then "Client ID is required and must be a non-empty string"
                   else "Expiry date must be in the future")), w).
Proof.
  intro H. unfold generateApiKey, try_catch, bind, validateGenerationInput.
  destruct (blank (KeyGenerationParams.userId params)) eqn:Hb.
  - rewrite (trim_blank _ Hb). cbn [String.length Nat.eqb].
    now rewrite orb_true_r.
  - destruct H as [H | (d & Hd & Hle)]; [discriminate|].
    assert (Ht : Js.trim (KeyGenerationParams.userId params) <> EmptyString).
    { intros Ht%trim_empty_iff_blank. congruence. }
    assert (Hu : Js.truthy_string (KeyGenerationParams.userId params) = true).
    { destruct (KeyGenerationParams.userId params); [discriminate | reflexivity]. }
    rewrite Hu. destruct (Js.trim (KeyGenerationParams.userId params)); [congruence|].
    cbn [negb orb String.length Nat.eqb]. rewrite Hd.
    destruct (Z.leb_spec d (now e)); [reflexivity | lia].
Qed.

Lemma generateApiKey_rejects_input_witness :
  let w := Sample.world [] [] in
  generateApiKey Sample.env
    {| KeyGenerationParams.userId := "  ";
       KeyGenerationParams.name := "ci";
       KeyGenerationParams.description := None;
       KeyGenerationParams.isActive := None;
       KeyGenerationParams.expiresAt := None |} w
  = (Throw (Error "Client ID is required and must be a non-empty string"), w)
  /\ generateApiKey Sample.env
       {| KeyGenerationParams.userId := "sa-0";
          KeyGenerationParams.name := "ci";
          KeyGenerationParams.description := None;
          KeyGenerationParams.isActive := None;
          KeyGenerationParams.expiresAt := Some 1000 |} w
     = (Throw (Error "Expiry date must be in the future"), w).
Proof.
  intro w. split.
  - refine (generateApiKey_rejects_input Sample.env _ w _). left. reflexivity.
  - refine (generateApiKey_rejects_input Sample.env _ w _). right.
    exists 1000. split; [reflexivity|]. cbn. discriminate.
Defined.

(** ** Listing *)

Lemma effective_page_range (p : Js.param) (P : Z) :
  effective_page p = Some P -> 1 <= P.
Proof.
  unfold effective_page, Js.Math_max.
  destruct (Js.parseInt _) as [z|]; cbn [option_map]; [|discriminate].
  intros [= <-]. lia.
Qed.

Lemma effective_limit_range (l : Js.param) (L : Z) :
  effective_limit l = Some L -> 1 <= L <= 100.
Proof.
  unfold effective_limit, Js.Math_min, Js.Math_max.
  destruct (Js.parseInt _) as [z|]; cbn [option_map]; [|discriminate].
  intros [= <-]. lia.
Qed.

(** [listKeys] with a page and a limit that are numbers and a direction the
    query builder accepts. *)
Lemma listKeys_unfold (e : Env) (w : World) (query : ListKeysQueryDto.t) (P L : Z) :
  effective_page (ListKeysQueryDto.page query) = Some P ->
  effective_limit (ListKeysQueryDto.limit query) = Some L ->
  direction_accepted query = true ->
  listKeys e query w
  = (Return
       {| Response.success := true;
          Response.message := "API keys retrieved successfully";
          Response.data :=
            {| ListData.keys := map (list_item e) (map (joined w) (page_rows e query w P L));
               ListData.pagination :=
                 {| Pagination.page := Some P;
                    Pagination.limit := Some L;
                    Pagination.total := Z.of_nat (List.length (matching e query w));
                    Pagination.total_pages :=
                      Some (Js.ceil_div (Z.of_nat (List.length (matching e query w))) L);
                    Pagination.has_next :=
                      P <? Js.ceil_div (Z.of_nat (List.length (matching e query w))) L;
                    Pagination.has_previous := 1 <? P |} |};
          Response.timestamp := now e |},
     after_events (after_events w [KeyCount]) [KeyGetMany]).
Proof.
  intros HP HL HD. unfold listKeys, try_catch. rewrite HP, HL. cbn [effective_skip].
  unfold direction_accepted in HD. cbv zeta in HD.
  unfold ApiKeyRepo.getCount, ApiKeyRepo.getMany. unfold_monad. rewrite HD. reflexivity.
Qed.

(** Without them the query builder throws once the rows are counted. *)
Lemma listKeys_refused (e : Env) (w : World) (query : ListKeysQueryDto.t) :
  effective_page (ListKeysQueryDto.page query) = None
  \/ effective_limit (ListKeysQueryDto.limit query) = None
  \/ direction_accepted query = false ->
  listKeys e query w
  = (Throw (http_exception e "KEY_LISTING_ERROR" "Failed to list API keys" 500),
     after_events w [KeyCount]).
Proof.
  intro H. unfold listKeys, try_catch.
  unfold ApiKeyRepo.getCount, ApiKeyRepo.getMany. unfold_monad.
  unfold direction_accepted in H. cbv zeta in H.
  destruct (String.eqb _ "ASC" || String.eqb _ "DESC"); [|reflexivity].
  destruct (effective_page _) as [P|], (effective_limit _) as [L|];
    try (destruct H as [H|[H|H]]; discriminate); reflexivity.
Qed.

(** X23. [listKeys] only reads: whatever the query and the outcome, both
    tables are as before; and the only exception it throws is the 500
    KEY_LISTING_ERROR. *)
Theorem listKeys_read_only (e : Env) (w : World) (query : ListKeysQueryDto.t) :
  api_keys (snd (listKeys e query w)) = api_keys w
  /\ sa_info (snd (listKeys e query w)) = sa_info w
  /\ forall ex, fst (listKeys e query w) = Throw ex ->
                ex = http_exception e "KEY_LISTING_ERROR" "Failed to list API keys" 500.
Proof.
  destruct (effective_page (ListKeysQueryDto.page query)) as [P|] eqn:HP;
    [|rewrite (listKeys_refused e w query) by auto; repeat split; now intros ex [= <-]].
  destruct (effective_limit (ListKeysQueryDto.limit query)) as [L|] eqn:HL;
    [|rewrite (listKeys_refused e w query) by auto; repeat split; now intros ex [= <-]].
  destruct (direction_accepted query) eqn:HD;
    [|rewrite (listKeys_refused e w query) by auto; repeat split; now intros ex [= <-]].
  rewrite (listKeys_unfold e w query P L HP HL HD). repeat split. discriminate.
Qed.

Lemma ceil_div_spec (a b : Z) :
  0 <= a -> 0 < b ->
  a <= Js.ceil_div a b * b < a + b.
Proof.
  intros Ha Hb. unfold Js.ceil_div.
  pose proof (Z.div_mod (a + b - 1) b) as Hdm.
  pose proof (Z.mod_pos_bound (a + b - 1) b Hb). nia.
Qed.

(** X24. The pagination block of a list response is consistent: the page
    is at least 1, the limit lies between 1 and 100, [total] counts all the
    rows the filters match, whatever the page, [total_pages] is the least
    number of pages of that size that hold them, [has_next] says the page is
    before the last one and [has_previous] that it is after the first. *)
Theorem listKeys_pagination (e : Env) (w w' : World) (query : ListKeysQueryDto.t)
    (resp : Response.t ListData.t) :
  listKeys e query w = (Return resp, w') ->
  exists P L pages,
    let block := ListData.pagination (Response.data resp) in
    Pagination.page block = Some P /\ Pagination.limit block = Some L
    /\ Pagination.total_pages block = Some pages
    /\ 1 <= P /\ 1 <= L <= 100
    /\ Pagination.total block = Z.of_nat (List.length (matching e query w))
    /\ Pagination.total block <= pages * L < Pagination.total block + L
    /\ Pagination.has_next block = (P <? pages)
    /\ Pagination.has_previous block = (1 <? P).
Proof.
  intro Hrun.
  destruct (effective_page (ListKeysQueryDto.page query)) as [P|] eqn:HP;
    [|rewrite (listKeys_refused e w query) in Hrun by auto; discriminate].
  destruct (effective_limit (ListKeysQueryDto.limit query)) as [L|] eqn:HL;
    [|rewrite (listKeys_refused e w query) in Hrun by auto; discriminate].
  destruct (direction_accepted query) eqn:HD;
    [|rewrite (listKeys_refused e w query) in Hrun by auto; discriminate].
  rewrite (listKeys_unfold e w query P L HP HL HD) in Hrun. injection Hrun as <- _.
  pose proof (effective_page_range _ _ HP). pose proof (effective_limit_range _ _ HL).
  exists P, L, (Js.ceil_div (Z.of_nat (List.length (matching e query w))) L).
  cbn. repeat split; try lia.
  - apply ceil_div_spec; lia.
  - apply ceil_div_spec; lia.
Qed.

Lemma listKeys_pagination_witness :
  let w := Sample.world []
             [Sample.key 1 "sa-0" "tok0" true None None;
              Sample.key 2 "sa-0" "tok1" true None (Some 5);
              Sample.key 3 "sa-0" "tok2" true None None] in
  let query := {| ListKeysQueryDto.page := Js.PNum 1;
                  ListKeysQueryDto.limit := Js.PNum 1;
                  ListKeysQueryDto.sort_by := None;
                  ListKeysQueryDto.sort_order := None;
                  ListKeysQueryDto.include_deleted := false;
                  ListKeysQueryDto.client_id := None;
                  ListKeysQueryDto.status := None;
                  ListKeysQueryDto.search := None |} in
  exists resp w',
    listKeys Sample.env query w = (Return resp, w')
    /\ Pagination.total (ListData.pagination (Response.data resp)) = 2
    /\ Pagination.total_pages (ListData.pagination (Response.data resp)) = Some 2
    /\ Pagination.has_next (ListData.pagination (Response.data resp)) = true.
Proof.
  intros w query.
  destruct (listKeys Sample.env query w) as [[resp|ex] w'] eqn:Hrun;
    [|vm_compute in Hrun; discriminate].
  destruct (listKeys_pagination Sample.env w w' query resp Hrun)
    as (P & L & pages & HP & HL & Hpages & _ & _ & Htotal & _ & Hnext & _).
  exists resp, w'. split; [reflexivity|]. rewrite Htotal.
  vm_compute in Hrun. injection Hrun as <- _. repeat split.
Defined.

(** X25. A list response holds at most [limit] items, so at most 100.  When
    [ORDER BY] returns rows of its input only, it holds no more items than
    the filters match, and none at all for a page after the last one. *)
Theorem listKeys_page_size (e : Env) (w w' : World) (query : ListKeysQueryDto.t)
    (resp : Response.t ListData.t) :
  listKeys e query w = (Return resp, w') ->
  exists P L pages,
    let items := ListData.keys (Response.data resp) in
    let block := ListData.pagination (Response.data resp) in
    Pagination.page block = Some P /\ Pagination.limit block = Some L
    /\ Pagination.total_pages block = Some pages
    /\ Z.of_nat (List.length items) <= L <= 100
    /\ (order_by_sound e ->
        Z.of_nat (List.length items) <= Pagination.total block
        /\ (pages < P -> items = [])).
Proof.
  intro Hrun.
  destruct (effective_page (ListKeysQueryDto.page query)) as [P|] eqn:HP;
    [|rewrite (listKeys_refused e w query) in Hrun by auto; discriminate].
  destruct (effective_limit (ListKeysQueryDto.limit query)) as [L|] eqn:HL;
    [|rewrite (listKeys_refused e w query) in Hrun by auto; discriminate].
  destruct (direction_accepted query) eqn:HD;
    [|rewrite (listKeys_refused e w query) in Hrun by auto; discriminate].
  rewrite (listKeys_unfold e w query P L HP HL HD) in Hrun. injection Hrun as <- _.
  pose proof (effective_page_range _ _ HP) as HPr.
  pose proof (effective_limit_range _ _ HL) as HLr.
  exists P, L, (Js.ceil_div (Z.of_nat (List.length (matching e query w))) L).
  cbn [Response.data ListData.keys ListData.pagination Pagination.page Pagination.limit
         Pagination.total_pages Pagination.total].
  split; [reflexivity|]. split; [reflexivity|]. split; [reflexivity|].
  rewrite !length_map. unfold page_rows.
  set (ordered := order_by e _ _ _).
  split.
  - split; [|lia]. pose proof (firstn_le_length (Z.to_nat L)
                                 (skipn (Z.to_nat ((P - 1) * L)) ordered)). lia.
  - intro Hsound.
    destruct (Hsound (sort_column query)
                (or_string (ListKeysQueryDto.sort_order query) "DESC")
                (matching e query w)) as [_ Hlen].
    fold ordered in Hlen. split.
    + rewrite length_firstn, length_skipn. lia.
    + intro Hbeyond.
      pose proof (ceil_div_spec (Z.of_nat (List.length (matching e query w))) L
                    ltac:(lia) ltac:(lia)) as Hceil.
      rewrite skipn_all2 by nia. now rewrite firstn_nil.
Qed.

Lemma order_by_sound_sample : order_by_sound Sample.env.
Proof. intros column direction rows. cbn. auto. Qed.

Lemma listKeys_page_size_witness :
  let w := Sample.world []
             [Sample.key 1 "sa-0" "tok0" true None None;
              Sample.key 2 "sa-0" "tok1" true None None] in
  let query := {| ListKeysQueryDto.page := Js.PNum 5;
                  ListKeysQueryDto.limit := Js.PNum 1;
                  ListKeysQueryDto.sort_by := None;
                  ListKeysQueryDto.sort_order := None;
                  ListKeysQueryDto.include_deleted := false;
                  ListKeysQueryDto.client_id := None;
                  ListKeysQueryDto.status := None;
                  ListKeysQueryDto.search := None |} in
  exists resp w',
    listKeys Sample.env query w = (Return resp, w')
    /\ ListData.keys (Response.data resp) = []
    /\ Pagination.total (ListData.pagination (Response.data resp)) = 2.
Proof.
  intros w query.
  destruct (listKeys Sample.env query w) as [[resp|ex] w'] eqn:Hrun;
    [|vm_compute in Hrun; discriminate].
  destruct (listKeys_page_size Sample.env w w' query resp Hrun)
    as (P & L & pages & HP & _ & Hpages & _ & Hsound).
  destruct (Hsound order_by_sound_sample) as [_ Hempty].
  exists resp, w'. split; [reflexivity|].
  assert (HPv : P = 5 /\ pages = 2).
  { vm_compute in Hrun. injection Hrun as <- _. cbn in HP, Hpages.
    injection HP as <-; injection Hpages as <-. auto. }
  destruct HPv as [-> ->]. split; [apply Hempty; reflexivity|].
  vm_compute in Hrun. injection Hrun as <- _. reflexivity.
Defined.

Lemma in_firstn {A} (n : nat) (l : list A) (x : A) : In x (firstn n l) -> In x l.
Proof. intro H. rewrite <- (firstn_skipn n l). apply in_or_app. now left. Qed.

Lemma in_skipn {A} (n : nat) (l : list A) (x : A) : In x (skipn n l) -> In x l.
Proof. intro H. rewrite <- (firstn_skipn n l). apply in_or_app. now right. Qed.

(** X26. When [ORDER BY] returns rows of its input only, every item of a
    list response is made from a stored key that passes the filters of the
    query: it is not soft-deleted unless [include_deleted] is set; it belongs
    to the client of a [client_id] filter; with the status filter [active]
    it is active and has an expiry date after now, so a key without expiry
    date is left out; with [inactive] or [revoked] it is not active; with
    [expired] it has an expiry date that is not after now. *)
Theorem listKeys_filters (e : Env) (w w' : World) (query : ListKeysQueryDto.t)
    (resp : Response.t ListData.t) :
  order_by_sound e ->
  listKeys e query w = (Return resp, w') ->
  forall item, In item (ListData.keys (Response.data resp)) ->
  exists k,
    In k (api_keys w) /\ item = list_item e (joined w k)
    /\ (ListKeysQueryDto.include_deleted query = false -> ApiKey.deleted_at k = None)
    /\ (forall c, ListKeysQueryDto.client_id query = Some c -> c <> EmptyString ->
                  ApiKey.client_id k = c)
    /\ (ListKeysQueryDto.status query = Some "active" ->
        ApiKey.is_active k = true
        /\ exists t, ApiKey.expiry_date k = Some t /\ now e < t)
    /\ (ListKeysQueryDto.status query = Some "inactive"
        \/ ListKeysQueryDto.status query = Some "revoked" ->
        ApiKey.is_active k = false)
    /\ (ListKeysQueryDto.status query = Some "expired" ->
        exists t, ApiKey.expiry_date k = Some t /\ t <= now e).
Proof.
  intros Hsound Hrun item Hitem.
  destruct (effective_page (ListKeysQueryDto.page query)) as [P|] eqn:HP;
    [|rewrite (listKeys_refused e w query) in Hrun by auto; discriminate].
  destruct (effective_limit (ListKeysQueryDto.limit query)) as [L|] eqn:HL;
    [|rewrite (listKeys_refused e w query) in Hrun by auto; discriminate].
  destruct (direction_accepted query) eqn:HD;
    [|rewrite (listKeys_refused e w query) in Hrun by auto; discriminate].
  rewrite (listKeys_unfold e w query P L HP HL HD) in Hrun. injection Hrun as <- _.
  cbn [Response.data ListData.keys] in Hitem.
  apply in_map_iff in Hitem as (row & <- & Hrow).
  apply in_map_iff in Hrow as (k & <- & Hk).
  unfold page_rows in Hk. apply in_firstn, in_skipn in Hk.
  apply (proj1 (Hsound _ _ _)) in Hk. unfold matching in Hk.
  apply filter_In in Hk as [Hin Hwhere].
  exists k. split; [exact Hin|]. split; [reflexivity|].
  unfold list_where in Hwhere.
  apply andb_true_iff in Hwhere as [Hwhere _].
  apply andb_true_iff in Hwhere as [Hwhere Hstatus].
  apply andb_true_iff in Hwhere as [Hdel Hclient].
  split; [|split; [|split; [|split]]].
  - intro Hinc. rewrite Hinc in Hdel. cbn [negb] in Hdel.
    now destruct (ApiKey.deleted_at k).
  - intros c Hc Hne. rewrite Hc in Hclient. destruct c; [congruence|].
    cbn [Js.truthy_string] in Hclient. now apply String.eqb_eq.
  - intro Hs. rewrite Hs in Hstatus. cbn in Hstatus.
    apply andb_true_iff in Hstatus as [Ha He]. split.
    + now destruct (ApiKey.is_active k).
    + destruct (ApiKey.expiry_date k) as [t|]; [|discriminate].
      exists t. split; [reflexivity | lia].
  - intros [Hs | Hs]; rewrite Hs in Hstatus; cbn in Hstatus;
      now destruct (ApiKey.is_active k).
  - intro Hs. rewrite Hs in Hstatus. cbn in Hstatus.
    destruct (ApiKey.expiry_date k) as [t|]; [|discriminate].
    exists t. split; [reflexivity | lia].
Qed.

Lemma listKeys_filters_witness :
  let w := Sample.world []
             [Sample.key 1 "sa-0" "tok0" true (Some 5000) None;
              Sample.key 2 "sa-0" "tok1" true (Some 5000) (Some 900);
              Sample.key 3 "sa-1" "tok2" true None None] in
  let query := {| ListKeysQueryDto.page := Js.PUndefined;
                  ListKeysQueryDto.limit := Js.PUndefined;
                  ListKeysQueryDto.sort_by := None;
                  ListKeysQueryDto.sort_order := None;
                  ListKeysQueryDto.include_deleted := false;
                  ListKeysQueryDto.client_id := Some "sa-0";
                  ListKeysQueryDto.status := Some "active";
                  ListKeysQueryDto.search := None |} in
  exists resp w',
    listKeys Sample.env query w = (Return resp, w')
    /\ List.length (ListData.keys (Response.data resp)) = 1%nat
    /\ forall item, In item (ListData.keys (Response.data resp)) ->
                    ListItem.deleted_at item = None /\ ListItem.client_id item = "sa-0".
Proof.
  intros w query.
  destruct (listKeys Sample.env query w) as [[resp|ex] w'] eqn:Hrun;
    [|vm_compute in Hrun; discriminate].
  exists resp, w'. split; [reflexivity|]. split.
  - vm_compute in Hrun. injection Hrun as <- _. reflexivity.
  - intros item Hitem.
    destruct (listKeys_filters Sample.env w w' query resp order_by_sound_sample Hrun item Hitem)
      as (k & _ & -> & Hdel & Hclient & _).
    split; [exact (Hdel eq_refl)|].
    apply (Hclient "sa-0" eq_refl). discriminate.
Defined.

Lemma sort_column_fallback (query : ListKeysQueryDto.t) :
  includes allowedSortColumns (or_string (ListKeysQueryDto.sort_by query) "created_at")
  = false ->
  sort_column query = "created_at".
Proof. intro H. unfold sort_column. cbv zeta. now rewrite H. Qed.

(** X27. A [sort_by] outside the allow-list of five columns is not an error
    and never reaches the query: the call behaves in every respect like the
    same call sorted by [created_at]. *)
Theorem listKeys_sort_fallback (e : Env) (w : World) (query : ListKeysQueryDto.t) :
  includes allowedSortColumns (or_string (ListKeysQueryDto.sort_by query) "created_at")
  = false ->
  listKeys e query w = listKeys e (with_sort_by query (Some "created_at")) w.
Proof.
  intro H.
  assert (Hrefused :
            effective_page (ListKeysQueryDto.page query) = None
            \/ effective_limit (ListKeysQueryDto.limit query) = None
            \/ direction_accepted query = false ->
            listKeys e query w = listKeys e (with_sort_by query (Some "created_at")) w).
  { intro Hr. rewrite (listKeys_refused e w query Hr).
    now rewrite (listKeys_refused e w (with_sort_by query (Some "created_at")) Hr). }
  destruct (effective_page (ListKeysQueryDto.page query)) as [P|] eqn:HP; [|auto].
  destruct (effective_limit (ListKeysQueryDto.limit query)) as [L|] eqn:HL; [|auto].
  destruct (direction_accepted query) eqn:HD; [|auto].
  rewrite (listKeys_unfold e w query P L HP HL HD).
  rewrite (listKeys_unfold e w (with_sort_by query (Some "created_at")) P L HP HL HD).
  unfold page_rows. rewrite (sort_column_fallback query H). reflexivity.
Qed.

Lemma listKeys_sort_fallback_witness :
  let w := Sample.world [] [Sample.key 1 "sa-0" "tok0" true None None] in
  listKeys Sample.env (with_sort_by Sample.query (Some "api_key; DROP TABLE api_keys")) w
  = listKeys Sample.env (with_sort_by Sample.query (Some "created_at")) w.
Proof.
  intro w.
  exact (listKeys_sort_fallback Sample.env w
           (with_sort_by Sample.query (Some "api_key; DROP TABLE api_keys")) eq_refl).
Defined.

(** ** How the operations compose *)

(** X28. Round trip: the credentials of a successful creation validate.
    When the key was created active, its token is not blank, the account ids
    are unique and the expiry reported lies after the time of validation,
    [validateKey] with the returned [client_id], [client_secret] and
    [raw_key] succeeds and reports the owner of the request, the same expiry
    and the status [active]. *)
Theorem createApiKey_then_validateKey (e1 e2 : Env) (dto : CreateApiKeyDto.t)
    (w w1 : World) (resp : Response.t CreateData.t) :
  createApiKey e1 dto w = (Return resp, w1) ->
  sa_ids_unique w1 ->
  CreateData.is_active (Response.data resp) = true ->
  Js.trim (CreateData.raw_key (Response.data resp)) <> EmptyString ->
  (forall t, CreateData.expires_at (Response.data resp) = Some t -> now e2 < t) ->
  exists vresp w2,
    validateKey e2
      {| ValidateApiKeyDto.client_id := CreateData.client_id (Response.data resp);
         ValidateApiKeyDto.client_secret := CreateData.client_secret (Response.data resp);
         ValidateApiKeyDto.api_key := CreateData.raw_key (Response.data resp) |} w1
    = (Return vresp, w2)
    /\ ValidateData.user_id (Response.data vresp) = CreateApiKeyDto.user_id dto
    /\ ValidateData.client_id (Response.data vresp)
       = CreateData.client_id (Response.data resp)
    /\ ValidateData.expires_at (Response.data vresp)
       = CreateData.expires_at (Response.data resp)
    /\ ValidateData.status (Response.data vresp) = Some active.
Proof.
  intros Hrun Hu Hact Htrim Hexp.
  destruct (createApiKey_outcome e1 dto w)
    as [(c & m & _ & Heq) | (x & sa & w1' & _ & Hprov & [[Heq _] | (r & row & Heq & Hrow & Hfresh & Hkey & Hcid & _ & Hrowact & _ & Hres & Hrc & Hrs & _)])];
    rewrite Heq in Hrun; try discriminate.
  injection Hrun as <- <-.
  destruct Hprov as (Huser & _ & Hfound & _).
  apply owner_account_some in Hfound as (Hin & _ & Hlive).
  assert (Hk : In row (api_keys w1')).
  { rewrite Hrow. apply in_or_app. right. left. reflexivity. }
  assert (Honly : only_holder w1' row).
  { intros k' Hk' Heqk. rewrite Hrow in Hk'. apply in_app_or in Hk' as [Hold | [<-|[]]];
      [|reflexivity]. exfalso. exact (Hfresh k' Hold Heqk). }
  rewrite Hrc, Hrs, <- Hkey.
  rewrite (validateKey_authenticated e2 w1' sa _ Hu Hin Hlive). rewrite <- Hcid.
  rewrite (validateApiKey_stored e2 (after_events w1' [SaFindOne]) row);
    [|exact Hk | exact Honly | congruence | congruence].
  assert (Hv : ExpirationValidationResult.isValid
                 (validateExpiration e2 (ApiKey.expiry_date row)) = true).
  { destruct (ApiKey.expiry_date row) as [t|] eqn:He; [|reflexivity].
    apply validateExpiration_valid_iff. apply Hexp. congruence. }
  cbv zeta. rewrite Hv. cbn [ValidationResult.isValid negb]. eexists. eexists.
  split; [reflexivity|]. cbn. rewrite Hcid. auto.
Qed.

Lemma createApiKey_then_validateKey_witness :
  let w := Sample.world [] [] in
  let run := createApiKey Sample.env (Sample.create_request 42 "ci") w in
  exists resp vresp,
    fst run = Return resp
    /\ fst (validateKey Sample.env
              {| ValidateApiKeyDto.client_id := CreateData.client_id (Response.data resp);
                 ValidateApiKeyDto.client_secret :=
                   CreateData.client_secret (Response.data resp);
                 ValidateApiKeyDto.api_key := CreateData.raw_key (Response.data resp) |}
              (snd run))
       = Return vresp
    /\ ValidateData.user_id (Response.data vresp) = 42.
Proof.
  intros w run.
  destruct run as [[resp|ex] w1] eqn:Hrun; [|vm_compute in Hrun; discriminate].
  assert (Hfacts : sa_ids_unique w1
                   /\ CreateData.is_active (Response.data resp) = true
                   /\ Js.trim (CreateData.raw_key (Response.data resp)) <> EmptyString
                   /\ forall t, CreateData.expires_at (Response.data resp) = Some t ->
                                now Sample.env < t).
  { vm_compute in Hrun. injection Hrun as <- <-.
    split; [repeat constructor; intros []|]. split; [reflexivity|].
    split; [discriminate|]. intros t [= <-]. reflexivity. }
  destruct Hfacts as (Hu & Hact & Htrim & Hexp).
  destruct (createApiKey_then_validateKey Sample.env Sample.env
              (Sample.create_request 42 "ci") w w1 resp Hrun Hu Hact Htrim Hexp)
    as (vresp & w2 & Hv & Huser & _).
  exists resp, vresp. split; [reflexivity|]. cbn [snd]. rewrite Hv. split; [reflexivity|].
  exact Huser.
Defined.

(** X29. Deactivating revokes: after an update that sets [is_active] to
    false on a key, [validateKey] with the right credentials and that key's
    token throws the 404 KEY_NOT_FOUND exception. *)
Theorem updateApiKey_deactivate_then_validateKey (e e2 : Env) (w : World) (sa : SaInfo.t)
    (k : ApiKey.t) (id : string) (dto : UpdateApiKeyDto.t) :
  sa_ids_unique w -> In sa (sa_info w) -> SaInfo.deleted_at sa = None ->
  SaInfo.id sa <> EmptyString ->
  key_ids_unique w -> In k (api_keys w) -> only_holder w k ->
  Js.parseInt id = Some (ApiKey.id k) ->
  Js.trim (ApiKey.api_key k) <> EmptyString ->
  UpdateApiKeyDto.is_active dto = Some false ->
  UpdateApiKeyDto.expires_at dto = Js.undefined ->
  exists resp w1,
    updateApiKey e id dto w = (Return resp, w1)
    /\ fst (validateKey e2
              {| ValidateApiKeyDto.client_id := SaInfo.id sa;
                 ValidateApiKeyDto.client_secret := SaInfo.client_secret sa;
                 ValidateApiKeyDto.api_key := ApiKey.api_key k |} w1)
       = Throw (validation_failure "KEY_NOT_FOUND" "Invalid API key or client credentials"
                  (now e2) 404).
Proof.
  intros Hu Hsa Hlive Hid Hku Hk Honly Hparse Htrim Hoff Hexp.
  assert (Hf : no_field dto = false).
  { unfold no_field. rewrite Hoff. cbn [is_none]. now rewrite andb_false_r. }
  rewrite (updateApiKey_unfold e w id dto _ Hparse Hf).
  rewrite (find_key_by_id w k id Hku Hk Hparse), Hexp. cbn [update_expiry].
  unfold ret. cbv zeta. eexists. eexists. split; [reflexivity|].
  set (w1 := after_update e w id (update_data dto None)).
  rewrite (validateKey_authenticated e2 w1 sa _ Hu Hsa Hlive).
  rewrite (validateApiKey_scan _ _ _ _ Htrim).
  assert (Hs : scanned (after_events w1 [SaFindOne]) (ApiKey.api_key k) (Some (SaInfo.id sa))
               = None).
  { unfold scanned. apply find_none_iff. intros r' [Hr' Hscope]%filter_In.
    destruct (String.eqb_spec (ApiKey.api_key k) (ApiKey.api_key r')) as [Heq|];
      [|reflexivity].
    exfalso. cbn [after_events api_keys w1 after_update] in Hr'.
    apply in_map_iff in Hr' as (r & <- & Hr).
    assert (r = k) as ->.
    { apply Honly; [exact Hr|]. destruct (where_id id r); now rewrite Heq. }
    rewrite (where_id_of_key id k k Hparse), Z.eqb_refl in Hscope.
    unfold active_scope in Hscope. cbn [ApiKeyRepo.apply_update ApiKey.is_active
                                         update_data ApiKeyRepo.set_is_active] in Hscope.
    rewrite Hoff in Hscope. discriminate. }
  rewrite Hs. reflexivity.
Qed.

Lemma updateApiKey_deactivate_then_validateKey_witness :
  let sa := Sample.account "sa-0" 42 "s3cret" None in
  let k := Sample.key 7 "sa-0" "tok0" true None None in
  let w := Sample.world [sa] [k] in
  let off := {| UpdateApiKeyDto.name := None; UpdateApiKeyDto.description := None;
                UpdateApiKeyDto.expires_at := Js.undefined;
                UpdateApiKeyDto.is_active := Some false |} in
  fst (validateKey Sample.env
         {| ValidateApiKeyDto.client_id := "sa-0";
            ValidateApiKeyDto.client_secret := "s3cret";
            ValidateApiKeyDto.api_key := "tok0" |}
         (snd (updateApiKey Sample.env "7" off w)))
  = Throw (validation_failure "KEY_NOT_FOUND" "Invalid API key or client credentials"
             1000 404).
Proof.
  intros sa k w off.
  assert (Hu : sa_ids_unique w) by (repeat constructor; intros []).
  assert (Hsa : In sa (sa_info w)) by (left; reflexivity).
  assert (Hid : SaInfo.id sa <> EmptyString) by discriminate.
  assert (Hku : key_ids_unique w) by (repeat constructor; intros []).
  assert (Hk : In k (api_keys w)) by (left; reflexivity).
  assert (Honly : only_holder w k) by (intros k' [<-|[]] _; reflexivity).
  assert (Htrim : Js.trim (ApiKey.api_key k) <> EmptyString) by discriminate.
  destruct (updateApiKey_deactivate_then_validateKey Sample.env Sample.env w sa k "7" off
              Hu Hsa eq_refl Hid Hku Hk Honly eq_refl Htrim eq_refl eq_refl)
    as (resp & w1 & Hrun & Hv).
  rewrite Hrun. exact Hv.
Defined.

(** X30. A removed key leaves the default listing: after a successful
    [removeKey], no item of a list response without [include_deleted] has
    the id of the removed key (given that [ORDER BY] returns rows of its
    input only). *)
Theorem removeKey_then_listKeys (e e2 : Env) (w w2 : World) (k : ApiKey.t)
    (id deletedBy : string) (query : ListKeysQueryDto.t) (resp : Response.t ListData.t) :
  key_ids_unique w -> In k (api_keys w) ->
  Js.parseInt id = Some (ApiKey.id k) ->
  ApiKey.deleted_at k = None ->
  order_by_sound e2 ->
  ListKeysQueryDto.include_deleted query = false ->
  listKeys e2 query (snd (removeKey e id deletedBy w)) = (Return resp, w2) ->
  forall item, In item (ListData.keys (Response.data resp)) ->
               ListItem.id item <> ApiKey.id k.
Proof.
  intros Hu Hin Hid Hdel Hsound Hinc Hrun item Hitem.
  rewrite (removeKey_unfold e w id deletedBy _ Hid) in Hrun.
  rewrite (find_key_by_id w k id Hu Hin Hid), Hdel in Hrun. cbn [snd] in Hrun.
  set (w1 := after_update e w id (delete_data e deletedBy)) in Hrun.
  destruct (effective_page (ListKeysQueryDto.page query)) as [P|] eqn:HP;
    [|rewrite (listKeys_refused e2 w1 query) in Hrun by auto; discriminate].
  destruct (effective_limit (ListKeysQueryDto.limit query)) as [L|] eqn:HL;
    [|rewrite (listKeys_refused e2 w1 query) in Hrun by auto; discriminate].
  destruct (direction_accepted query) eqn:HD;
    [|rewrite (listKeys_refused e2 w1 query) in Hrun by auto; discriminate].
  rewrite (listKeys_unfold e2 w1 query P L HP HL HD) in Hrun. injection Hrun as <- _.
  cbn [Response.data ListData.keys] in Hitem.
  apply in_map_iff in Hitem as (row & <- & Hrow).
  apply in_map_iff in Hrow as (r' & <- & Hr').
  unfold page_rows in Hr'. apply in_firstn, in_skipn in Hr'.
  apply (proj1 (Hsound _ _ _)) in Hr'. unfold matching in Hr'.
  apply filter_In in Hr' as [Hr' Hwhere].
  cbn [list_item joined ListItem.id].
  unfold list_where in Hwhere. rewrite Hinc in Hwhere. cbn [negb] in Hwhere.
  apply andb_true_iff in Hwhere as [Hwhere _].
  apply andb_true_iff in Hwhere as [Hwhere _].
  apply andb_true_iff in Hwhere as [Hlive _].
  cbn [w1 after_update api_keys] in Hr'.
  apply in_map_iff in Hr' as (r & <- & Hr).
  rewrite (where_id_of_key id k r Hid) in *.
  destruct (Z.eqb_spec (ApiKey.id r) (ApiKey.id k)) as [Heq|Hne]; [|exact Hne].
  discriminate.
Qed.

Lemma removeKey_then_listKeys_witness :
  let k := Sample.key 7 "sa-0" "tok0" true None None in
  let other := Sample.key 8 "sa-0" "tok1" true None None in
  let w := Sample.world [] [k; other] in
  exists resp w2,
    listKeys Sample.env Sample.query (snd (removeKey Sample.env "7" "ops" w)) = (Return resp, w2)
    /\ map ListItem.id (ListData.keys (Response.data resp)) = [8]
    /\ forall item, In item (ListData.keys (Response.data resp)) -> ListItem.id item <> 7.
Proof.
  intros k other w.
  destruct (listKeys Sample.env Sample.query (snd (removeKey Sample.env "7" "ops" w)))
    as [[resp|ex] w2] eqn:Hrun; [|vm_compute in Hrun; discriminate].
  exists resp, w2. split; [reflexivity|]. split.
  - vm_compute in Hrun. injection Hrun as <- _. reflexivity.
  - assert (Hu : key_ids_unique w).
    { unfold key_ids_unique. cbn. repeat constructor; cbn; intuition discriminate. }
    assert (Hk : In k (api_keys w)) by (left; reflexivity).
    exact (removeKey_then_listKeys Sample.env Sample.env w w2 k "7" "ops" Sample.query resp
             Hu Hk eq_refl eq_refl order_by_sound_sample eq_refl Hrun).
Defined.
